(** * Multilingual review analysis: chunking, per-chunk workflow and summary

    A shallow embedding of [backend/services/chunking.py], of the three
    service wrappers ([language.py], [translation.py], [sentiment.py]) and of
    the batch workflow of [backend/app.py] ([upload_file] from the request
    to the reply, [generate_summary]), followed by the properties of these
    functions.

    Conventions.
    - A Python [str] is a list of Unicode code points ([pystr := list N]);
      [len] counts code points, as Python does.
    - Python [int]s are [Z]; [//] on a positive divisor is [Z.div] (floor).
    - Python [float]s are the doubles of IEEE 754 (binary64).  A float is
      written as its exact rational value in [Q], and every operation on
      floats rounds its exact result to the nearest double, ties to the
      even significand ([double]); [round(x, n)] rounds the exact value of
      [x] half-to-even to [n] decimals and returns the nearest double.
      Infinities and NaN are not modelled: no operation below overflows.
    - A call that may raise returns [Exc A]; [try ... except Exception] is
      [try_except]. *)

From Stdlib Require Import List ZArith NArith QArith Qround Qabs Qpower.
From Stdlib Require Import Bool Lia Lqa.
From Stdlib Require Import Ascii String.
Import ListNotations.

Open Scope Z_scope.

(* ================================================================== *)
(** ** Python strings *)

Module Py.

Definition pystr : Type := list N.

(** A literal: the code points of an ASCII string. *)
Definition str (s : string) : pystr :=
  map N_of_ascii (list_ascii_of_string s).

Definition len {A} (l : list A) : Z := Z.of_nat (List.length l).

(** [str.isspace] of one character, which is also the class [\s] of [re]
    on [str] patterns: the characters of bidirectional type WS, B or S and
    of category Zs. *)
Definition isspace (c : N) : bool :=
  ((9 <=? c) && (c <=? 13) || (28 <=? c) && (c <=? 32)
   || (c =? 133) || (c =? 160) || (c =? 5760)
   || (8192 <=? c) && (c <=? 8202)
   || (c =? 8232) || (c =? 8233) || (c =? 8239) || (c =? 8287)
   || (c =? 12288))%N.

Fixpoint lstrip (s : pystr) : pystr :=
  match s with
  | c :: r => if isspace c then lstrip r else s
  | [] => []
  end.

Definition rstrip (s : pystr) : pystr := rev (lstrip (rev s)).

(** [s.strip()] *)
Definition strip (s : pystr) : pystr := rstrip (lstrip s).

(** Truth value of a sequence: [bool(s)]. *)
Definition truthy {A} (l : list A) : bool :=
  match l with [] => false | _ :: _ => true end.

Fixpoint eqb (a b : pystr) : bool :=
  match a, b with
  | [], [] => true
  | x :: a', y :: b' => (x =? y)%N && eqb a' b'
  | _, _ => false
  end.

(** [sep.join(xs)] *)
Fixpoint join (sep : pystr) (xs : list pystr) : pystr :=
  match xs with
  | [] => []
  | x :: rest =>
      match rest with
      | [] => x
      | _ :: _ => x ++ sep ++ join sep rest
      end
  end.

Fixpoint startswith (s sub : pystr) : bool :=
  match sub, s with
  | [], _ => true
  | _ :: _, [] => false
  | a :: sub', b :: s' => (a =? b)%N && startswith s' sub'
  end.

Fixpoint find_from (s sub : pystr) (i : Z) : Z :=
  if startswith s sub then i
  else match s with
       | [] => -1
       | _ :: s' => find_from s' sub (i + 1)
       end.

(** [s.find(sub)]: lowest index of [sub] in [s], or [-1]. *)
Definition find (s sub : pystr) : Z := find_from s sub 0.

(** [l[k:]] for any integer [k]. *)
Definition slice_from {A} (k : Z) (l : list A) : list A :=
  if k <? 0 then skipn (Z.to_nat (Z.max 0 (len l + k))) l
  else skipn (Z.to_nat k) l.

(** [enumerate(l)] from [i]. *)
Fixpoint enumerate_from {A} (i : Z) (l : list A) : list (Z * A) :=
  match l with
  | [] => []
  | x :: r => (i, x) :: enumerate_from (i + 1) r
  end.

Definition enumerate {A} (l : list A) : list (Z * A) := enumerate_from 0 l.

(** [s.lower()], with the case tables of Unicode 14.0 (CPython 3.11).
    Every character has one lower-case character, except U+0130, which has
    two, and the capital sigma U+03A3, whose lower case depends on its
    place in the word. *)

(** The simple lower-case mapping, in runs [(first, last, step, target)]:
    the code points [first], [first + step], ..., [last] map to [target],
    [target + step], ... *)
Definition lower_runs : list (N * N * N * N) :=
  [(65, 90, 1, 97); (192, 214, 1, 224); (216, 222, 1, 248);
   (256, 302, 2, 257); (306, 310, 2, 307); (313, 327, 2, 314);
   (330, 374, 2, 331); (376, 376, 1, 255); (377, 381, 2, 378);
   (385, 385, 1, 595); (386, 388, 2, 387); (390, 390, 1, 596);
   (391, 391, 1, 392); (393, 394, 1, 598); (395, 395, 1, 396);
   (398, 398, 1, 477); (399, 399, 1, 601); (400, 400, 1, 603);
   (401, 401, 1, 402); (403, 403, 1, 608); (404, 404, 1, 611);
   (406, 406, 1, 617); (407, 407, 1, 616); (408, 408, 1, 409);
   (412, 412, 1, 623); (413, 413, 1, 626); (415, 415, 1, 629);
   (416, 420, 2, 417); (422, 422, 1, 640); (423, 423, 1, 424);
   (425, 425, 1, 643); (428, 428, 1, 429); (430, 430, 1, 648);
   (431, 431, 1, 432); (433, 434, 1, 650); (435, 437, 2, 436);
   (439, 439, 1, 658); (440, 440, 1, 441); (444, 444, 1, 445);
   (452, 452, 1, 454); (453, 453, 1, 454); (455, 455, 1, 457);
   (456, 456, 1, 457); (458, 458, 1, 460); (459, 475, 2, 460);
   (478, 494, 2, 479); (497, 497, 1, 499); (498, 500, 2, 499);
   (502, 502, 1, 405); (503, 503, 1, 447); (504, 542, 2, 505);
   (544, 544, 1, 414); (546, 562, 2, 547); (570, 570, 1, 11365);
   (571, 571, 1, 572); (573, 573, 1, 410); (574, 574, 1, 11366);
   (577, 577, 1, 578); (579, 579, 1, 384); (580, 580, 1, 649);
   (581, 581, 1, 652); (582, 590, 2, 583); (880, 882, 2, 881);
   (886, 886, 1, 887); (895, 895, 1, 1011); (902, 902, 1, 940);
   (904, 906, 1, 941); (908, 908, 1, 972); (910, 911, 1, 973);
   (913, 929, 1, 945); (932, 939, 1, 964); (975, 975, 1, 983);
   (984, 1006, 2, 985); (1012, 1012, 1, 952); (1015, 1015, 1, 1016);
   (1017, 1017, 1, 1010); (1018, 1018, 1, 1019); (1021, 1023, 1, 891);
   (1024, 1039, 1, 1104); (1040, 1071, 1, 1072); (1120, 1152, 2, 1121);
   (1162, 1214, 2, 1163); (1216, 1216, 1, 1231); (1217, 1229, 2, 1218);
   (1232, 1326, 2, 1233); (1329, 1366, 1, 1377); (4256, 4293, 1, 11520);
   (4295, 4295, 1, 11559); (4301, 4301, 1, 11565); (5024, 5103, 1, 43888);
   (5104, 5109, 1, 5112); (7312, 7354, 1, 4304); (7357, 7359, 1, 4349);
   (7680, 7828, 2, 7681); (7838, 7838, 1, 223); (7840, 7934, 2, 7841);
   (7944, 7951, 1, 7936); (7960, 7965, 1, 7952); (7976, 7983, 1, 7968);
   (7992, 7999, 1, 7984); (8008, 8013, 1, 8000); (8025, 8031, 2, 8017);
   (8040, 8047, 1, 8032); (8072, 8079, 1, 8064); (8088, 8095, 1, 8080);
   (8104, 8111, 1, 8096); (8120, 8121, 1, 8112); (8122, 8123, 1, 8048);
   (8124, 8124, 1, 8115); (8136, 8139, 1, 8050); (8140, 8140, 1, 8131);
   (8152, 8153, 1, 8144); (8154, 8155, 1, 8054); (8168, 8169, 1, 8160);
   (8170, 8171, 1, 8058); (8172, 8172, 1, 8165); (8184, 8185, 1, 8056);
   (8186, 8187, 1, 8060); (8188, 8188, 1, 8179); (8486, 8486, 1, 969);
   (8490, 8490, 1, 107); (8491, 8491, 1, 229); (8498, 8498, 1, 8526);
   (8544, 8559, 1, 8560); (8579, 8579, 1, 8580); (9398, 9423, 1, 9424);
   (11264, 11311, 1, 11312); (11360, 11360, 1, 11361);
   (11362, 11362, 1, 619); (11363, 11363, 1, 7549); (11364, 11364, 1, 637);
   (11367, 11371, 2, 11368); (11373, 11373, 1, 593); (11374, 11374, 1, 625);
   (11375, 11375, 1, 592); (11376, 11376, 1, 594); (11378, 11378, 1, 11379);
   (11381, 11381, 1, 11382); (11390, 11391, 1, 575);
   (11392, 11490, 2, 11393); (11499, 11501, 2, 11500);
   (11506, 11506, 1, 11507); (42560, 42604, 2, 42561);
   (42624, 42650, 2, 42625); (42786, 42798, 2, 42787);
   (42802, 42862, 2, 42803); (42873, 42875, 2, 42874);
   (42877, 42877, 1, 7545); (42878, 42886, 2, 42879);
   (42891, 42891, 1, 42892); (42893, 42893, 1, 613);
   (42896, 42898, 2, 42897); (42902, 42920, 2, 42903);
   (42922, 42922, 1, 614); (42923, 42923, 1, 604); (42924, 42924, 1, 609);
   (42925, 42925, 1, 620); (42926, 42926, 1, 618); (42928, 42928, 1, 670);
   (42929, 42929, 1, 647); (42930, 42930, 1, 669); (42931, 42931, 1, 43859);
   (42932, 42946, 2, 42933); (42948, 42948, 1, 42900);
   (42949, 42949, 1, 642); (42950, 42950, 1, 7566); (42951, 42953, 2, 42952);
   (42960, 42960, 1, 42961); (42966, 42968, 2, 42967);
   (42997, 42997, 1, 42998); (65313, 65338, 1, 65345);
   (66560, 66599, 1, 66600); (66736, 66771, 1, 66776);
   (66928, 66938, 1, 66967); (66940, 66954, 1, 66979);
   (66956, 66962, 1, 66995); (66964, 66965, 1, 67003);
   (68736, 68786, 1, 68800); (71840, 71871, 1, 71872);
   (93760, 93791, 1, 93792); (125184, 125217, 1, 125218)]%N.

(** The code points with the property Case_Ignorable, in ranges
    [(first, last)]. *)
Definition case_ignorable_ranges : list (N * N) :=
  [(39, 39); (46, 46); (58, 58); (94, 94); (96, 96); (168, 168); (173, 173);
   (175, 175); (180, 180); (183, 184); (688, 879); (884, 885); (890, 890);
   (900, 901); (903, 903); (1155, 1161); (1369, 1369); (1375, 1375);
   (1425, 1469); (1471, 1471); (1473, 1474); (1476, 1477); (1479, 1479);
   (1524, 1524); (1536, 1541); (1552, 1562); (1564, 1564); (1600, 1600);
   (1611, 1631); (1648, 1648); (1750, 1757); (1759, 1768); (1770, 1773);
   (1807, 1807); (1809, 1809); (1840, 1866); (1958, 1968); (2027, 2037);
   (2042, 2042); (2045, 2045); (2070, 2093); (2137, 2139); (2184, 2184);
   (2192, 2193); (2200, 2207); (2249, 2306); (2362, 2362); (2364, 2364);
   (2369, 2376); (2381, 2381); (2385, 2391); (2402, 2403); (2417, 2417);
   (2433, 2433); (2492, 2492); (2497, 2500); (2509, 2509); (2530, 2531);
   (2558, 2558); (2561, 2562); (2620, 2620); (2625, 2626); (2631, 2632);
   (2635, 2637); (2641, 2641); (2672, 2673); (2677, 2677); (2689, 2690);
   (2748, 2748); (2753, 2757); (2759, 2760); (2765, 2765); (2786, 2787);
   (2810, 2815); (2817, 2817); (2876, 2876); (2879, 2879); (2881, 2884);
   (2893, 2893); (2901, 2902); (2914, 2915); (2946, 2946); (3008, 3008);
   (3021, 3021); (3072, 3072); (3076, 3076); (3132, 3132); (3134, 3136);
   (3142, 3144); (3146, 3149); (3157, 3158); (3170, 3171); (3201, 3201);
   (3260, 3260); (3263, 3263); (3270, 3270); (3276, 3277); (3298, 3299);
   (3328, 3329); (3387, 3388); (3393, 3396); (3405, 3405); (3426, 3427);
   (3457, 3457); (3530, 3530); (3538, 3540); (3542, 3542); (3633, 3633);
   (3636, 3642); (3654, 3662); (3761, 3761); (3764, 3772); (3782, 3782);
   (3784, 3789); (3864, 3865); (3893, 3893); (3895, 3895); (3897, 3897);
   (3953, 3966); (3968, 3972); (3974, 3975); (3981, 3991); (3993, 4028);
   (4038, 4038); (4141, 4144); (4146, 4151); (4153, 4154); (4157, 4158);
   (4184, 4185); (4190, 4192); (4209, 4212); (4226, 4226); (4229, 4230);
   (4237, 4237); (4253, 4253); (4348, 4348); (4957, 4959); (5906, 5908);
   (5938, 5939); (5970, 5971); (6002, 6003); (6068, 6069); (6071, 6077);
   (6086, 6086); (6089, 6099); (6103, 6103); (6109, 6109); (6155, 6159);
   (6211, 6211); (6277, 6278); (6313, 6313); (6432, 6434); (6439, 6440);
   (6450, 6450); (6457, 6459); (6679, 6680); (6683, 6683); (6742, 6742);
   (6744, 6750); (6752, 6752); (6754, 6754); (6757, 6764); (6771, 6780);
   (6783, 6783); (6823, 6823); (6832, 6862); (6912, 6915); (6964, 6964);
   (6966, 6970); (6972, 6972); (6978, 6978); (7019, 7027); (7040, 7041);
   (7074, 7077); (7080, 7081); (7083, 7085); (7142, 7142); (7144, 7145);
   (7149, 7149); (7151, 7153); (7212, 7219); (7222, 7223); (7288, 7293);
   (7376, 7378); (7380, 7392); (7394, 7400); (7405, 7405); (7412, 7412);
   (7416, 7417); (7468, 7530); (7544, 7544); (7579, 7679); (8125, 8125);
   (8127, 8129); (8141, 8143); (8157, 8159); (8173, 8175); (8189, 8190);
   (8203, 8207); (8216, 8217); (8228, 8228); (8231, 8231); (8234, 8238);
   (8288, 8292); (8294, 8303); (8305, 8305); (8319, 8319); (8336, 8348);
   (8400, 8432); (11388, 11389); (11503, 11505); (11631, 11631);
   (11647, 11647); (11744, 11775); (11823, 11823); (12293, 12293);
   (12330, 12333); (12337, 12341); (12347, 12347); (12441, 12446);
   (12540, 12542); (40981, 40981); (42232, 42237); (42508, 42508);
   (42607, 42610); (42612, 42621); (42623, 42623); (42652, 42655);
   (42736, 42737); (42752, 42785); (42864, 42864); (42888, 42890);
   (42994, 42996); (43000, 43001); (43010, 43010); (43014, 43014);
   (43019, 43019); (43045, 43046); (43052, 43052); (43204, 43205);
   (43232, 43249); (43263, 43263); (43302, 43309); (43335, 43345);
   (43392, 43394); (43443, 43443); (43446, 43449); (43452, 43453);
   (43471, 43471); (43493, 43494); (43561, 43566); (43569, 43570);
   (43573, 43574); (43587, 43587); (43596, 43596); (43632, 43632);
   (43644, 43644); (43696, 43696); (43698, 43700); (43703, 43704);
   (43710, 43711); (43713, 43713); (43741, 43741); (43756, 43757);
   (43763, 43764); (43766, 43766); (43867, 43871); (43881, 43883);
   (44005, 44005); (44008, 44008); (44013, 44013); (64286, 64286);
   (64434, 64450); (65024, 65039); (65043, 65043); (65056, 65071);
   (65106, 65106); (65109, 65109); (65279, 65279); (65287, 65287);
   (65294, 65294); (65306, 65306); (65342, 65342); (65344, 65344);
   (65392, 65392); (65438, 65439); (65507, 65507); (65529, 65531);
   (66045, 66045); (66272, 66272); (66422, 66426); (67456, 67461);
   (67463, 67504); (67506, 67514); (68097, 68099); (68101, 68102);
   (68108, 68111); (68152, 68154); (68159, 68159); (68325, 68326);
   (68900, 68903); (69291, 69292); (69446, 69456); (69506, 69509);
   (69633, 69633); (69688, 69702); (69744, 69744); (69747, 69748);
   (69759, 69761); (69811, 69814); (69817, 69818); (69821, 69821);
   (69826, 69826); (69837, 69837); (69888, 69890); (69927, 69931);
   (69933, 69940); (70003, 70003); (70016, 70017); (70070, 70078);
   (70089, 70092); (70095, 70095); (70191, 70193); (70196, 70196);
   (70198, 70199); (70206, 70206); (70367, 70367); (70371, 70378);
   (70400, 70401); (70459, 70460); (70464, 70464); (70502, 70508);
   (70512, 70516); (70712, 70719); (70722, 70724); (70726, 70726);
   (70750, 70750); (70835, 70840); (70842, 70842); (70847, 70848);
   (70850, 70851); (71090, 71093); (71100, 71101); (71103, 71104);
   (71132, 71133); (71219, 71226); (71229, 71229); (71231, 71232);
   (71339, 71339); (71341, 71341); (71344, 71349); (71351, 71351);
   (71453, 71455); (71458, 71461); (71463, 71467); (71727, 71735);
   (71737, 71738); (71995, 71996); (71998, 71998); (72003, 72003);
   (72148, 72151); (72154, 72155); (72160, 72160); (72193, 72202);
   (72243, 72248); (72251, 72254); (72263, 72263); (72273, 72278);
   (72281, 72283); (72330, 72342); (72344, 72345); (72752, 72758);
   (72760, 72765); (72767, 72767); (72850, 72871); (72874, 72880);
   (72882, 72883); (72885, 72886); (73009, 73014); (73018, 73018);
   (73020, 73021); (73023, 73029); (73031, 73031); (73104, 73105);
   (73109, 73109); (73111, 73111); (73459, 73460); (78896, 78904);
   (92912, 92916); (92976, 92982); (92992, 92995); (94031, 94031);
   (94095, 94111); (94176, 94177); (94179, 94180); (110576, 110579);
   (110581, 110587); (110589, 110590); (113821, 113822); (113824, 113827);
   (118528, 118573); (118576, 118598); (119143, 119145); (119155, 119170);
   (119173, 119179); (119210, 119213); (119362, 119364); (121344, 121398);
   (121403, 121452); (121461, 121461); (121476, 121476); (121499, 121503);
   (121505, 121519); (122880, 122886); (122888, 122904); (122907, 122913);
   (122915, 122916); (122918, 122922); (123184, 123197); (123566, 123566);
   (123628, 123631); (125136, 125142); (125252, 125259); (127995, 127999);
   (917505, 917505); (917536, 917631); (917760, 917999)]%N.

(** The code points with the property Cased and without Case_Ignorable, in
    ranges [(first, last)]. *)
Definition cased_ranges : list (N * N) :=
  [(65, 90); (97, 122); (170, 170); (181, 181); (186, 186); (192, 214);
   (216, 246); (248, 442); (444, 447); (452, 659); (661, 687); (880, 883);
   (886, 887); (891, 893); (895, 895); (902, 902); (904, 906); (908, 908);
   (910, 929); (931, 1013); (1015, 1153); (1162, 1327); (1329, 1366);
   (1376, 1416); (4256, 4293); (4295, 4295); (4301, 4301); (4304, 4346);
   (4349, 4351); (5024, 5109); (5112, 5117); (7296, 7304); (7312, 7354);
   (7357, 7359); (7424, 7467); (7531, 7543); (7545, 7578); (7680, 7957);
   (7960, 7965); (7968, 8005); (8008, 8013); (8016, 8023); (8025, 8025);
   (8027, 8027); (8029, 8029); (8031, 8061); (8064, 8116); (8118, 8124);
   (8126, 8126); (8130, 8132); (8134, 8140); (8144, 8147); (8150, 8155);
   (8160, 8172); (8178, 8180); (8182, 8188); (8450, 8450); (8455, 8455);
   (8458, 8467); (8469, 8469); (8473, 8477); (8484, 8484); (8486, 8486);
   (8488, 8488); (8490, 8493); (8495, 8500); (8505, 8505); (8508, 8511);
   (8517, 8521); (8526, 8526); (8544, 8575); (8579, 8580); (9398, 9449);
   (11264, 11387); (11390, 11492); (11499, 11502); (11506, 11507);
   (11520, 11557); (11559, 11559); (11565, 11565); (42560, 42605);
   (42624, 42651); (42786, 42863); (42865, 42887); (42891, 42894);
   (42896, 42954); (42960, 42961); (42963, 42963); (42965, 42969);
   (42997, 42998); (43002, 43002); (43824, 43866); (43872, 43880);
   (43888, 43967); (64256, 64262); (64275, 64279); (65313, 65338);
   (65345, 65370); (66560, 66639); (66736, 66771); (66776, 66811);
   (66928, 66938); (66940, 66954); (66956, 66962); (66964, 66965);
   (66967, 66977); (66979, 66993); (66995, 67001); (67003, 67004);
   (68736, 68786); (68800, 68850); (71840, 71903); (93760, 93823);
   (119808, 119892); (119894, 119964); (119966, 119967); (119970, 119970);
   (119973, 119974); (119977, 119980); (119982, 119993); (119995, 119995);
   (119997, 120003); (120005, 120069); (120071, 120074); (120077, 120084);
   (120086, 120092); (120094, 120121); (120123, 120126); (120128, 120132);
   (120134, 120134); (120138, 120144); (120146, 120485); (120488, 120512);
   (120514, 120538); (120540, 120570); (120572, 120596); (120598, 120628);
   (120630, 120654); (120656, 120686); (120688, 120712); (120714, 120744);
   (120746, 120770); (120772, 120779); (122624, 122633); (122635, 122654);
   (125184, 125251); (127280, 127305); (127312, 127337); (127344, 127369)]%N.

Fixpoint lower_lookup (runs : list (N * N * N * N)) (c : N) : N :=
  match runs with
  | [] => c
  | (first, last, step, target) :: rest =>
      if ((first <=? c) && (c <=? last)
          && ((c - first) mod step =? 0))%N
      then (c - first + target)%N
      else lower_lookup rest c
  end.

Definition in_ranges (ranges : list (N * N)) (c : N) : bool :=
  existsb (fun r => ((fst r <=? c) && (c <=? snd r))%N) ranges.

Definition case_ignorable (c : N) : bool :=
  in_ranges case_ignorable_ranges c.

Definition cased (c : N) : bool := in_ranges cased_ranges c.

(** The lower case of one character other than the capital sigma. *)
Definition lower_char (c : N) : pystr :=
  if (c =? 304)%N then [105; 775]%N else [lower_lookup lower_runs c].

Fixpoint first_not_ignorable (s : pystr) : option N :=
  match s with
  | [] => None
  | c :: rest =>
      if case_ignorable c then first_not_ignorable rest else Some c
  end.

(** The capital sigma ends a word: a cased letter comes before it and
    none after it, characters to be ignored set aside.  [before] is the
    text before the sigma, last character first. *)
Definition final_sigma (before after : pystr) : bool :=
  match first_not_ignorable before with
  | Some c =>
      cased c
      && match first_not_ignorable after with
         | Some c' => negb (cased c')
         | None => true
         end
  | None => false
  end.

Fixpoint lower_from (before s : pystr) : pystr :=
  match s with
  | [] => []
  | c :: rest =>
      (if (c =? 931)%N
       then [if final_sigma before rest then 962%N else 963%N]
       else lower_char c)
      ++ lower_from (c :: before) rest
  end.

Definition lower (s : pystr) : pystr := lower_from [] s.

(** The string of one line feed. *)
Definition newline : pystr := [10%N].

(** The characters of the class [[.!?]]. *)
Definition is_terminator (c : N) : bool :=
  ((c =? 46) || (c =? 33) || (c =? 63))%N.

(** [re.split(r'(?<=[.!?])\s+', s)]: cut at every maximal run of white
    space that directly follows one of [. ! ?]; the run is dropped.
    [prev_term]: the previous character is a terminator; [in_sep]: a
    separator run is being consumed; [cur]: the piece read so far,
    reversed. *)
Fixpoint re_split_aux (prev_term in_sep : bool) (cur s : pystr)
  : list pystr :=
  match s with
  | [] => [rev cur]
  | c :: rest =>
      if isspace c then
        if in_sep then re_split_aux false true cur rest
        else if prev_term then rev cur :: re_split_aux false true [] rest
        else re_split_aux false false (c :: cur) rest
      else re_split_aux (is_terminator c) false (c :: cur) rest
  end.

Definition re_split_sentences (s : pystr) : list pystr :=
  re_split_aux false false [] s.

End Py.

Import Py.

(* ================================================================== *)
(** ** services/chunking.py *)

Module Chunking.

(** Position metadata: the keys that differ between the three producers. *)
Inductive Meta : Type :=
| Span (start end_ : Z)                        (* chunk_text *)
| Line (start end_ : Z) (line_number : Z)      (* process_text_file *)
| Rows (start_row end_row : Z) (headers : list pystr).
                                               (* process_csv_file *)

(** A chunk dictionary.  [language], [rating] and [date] are the keys the
    workflow reads with [chunk.get]; no producer below sets them. *)
Record Chunk : Type := mkChunk {
  text : pystr;
  chunk_id : Z;
  is_last : bool;
  meta : Meta;
  language : option pystr;
  rating : option pystr;
  date : option pystr
}.

Definition chunk (t : pystr) (id : Z) (last : bool) (m : Meta) : Chunk :=
  mkChunk t id last m None None None.

Definition set_is_last (b : bool) (c : Chunk) : Chunk :=
  mkChunk (text c) (chunk_id c) b (meta c) (language c) (rating c) (date c).

(** [chunks[-1]['is_last'] = True] *)
Fixpoint force_last (cs : list Chunk) : list Chunk :=
  match cs with
  | [] => []
  | c :: rest =>
      match rest with
      | [] => [set_is_last true c]
      | _ :: _ => c :: force_last rest
      end
  end.

(** *** chunk_text *)

Record SentState : Type := mkSent {
  s_chunks : list Chunk;
  s_current : list pystr;     (* current_chunk *)
  s_length : Z;               (* current_length *)
  s_id : Z                    (* chunk_id *)
}.

(** The dictionary appended when a running chunk is closed. *)
Definition span_chunk (source : pystr) (cur : list pystr) (id : Z)
    (last : bool) : Chunk :=
  let chunk_text := join (str " ") cur in
  chunk chunk_text id last
        (Span (find source chunk_text)
              (find source chunk_text + len chunk_text)).

(** [' '.join(current_chunk[-overlap//50:]
       if len(current_chunk) > overlap//50 else current_chunk)];
    the unary minus binds tighter than [//]. *)
Definition overlap_text (overlap : Z) (cur : list pystr) : pystr :=
  join (str " ")
       (if len cur >? overlap / 50
        then slice_from ((- overlap) / 50) cur
        else cur).

(** One iteration of [for sentence in sentences]. *)
Definition sent_step (source : pystr) (chunk_size overlap : Z)
    (st : SentState) (sentence0 : pystr) : SentState :=
  let sentence := strip sentence0 in
  if negb (truthy sentence) then st
  else if (s_length st + len sentence >? chunk_size)
          && truthy (s_current st) then
    let ov := overlap_text overlap (s_current st) in
    let cur' := if negb (eqb ov sentence) then [ov; sentence]
                else [sentence] in
    mkSent (s_chunks st ++ [span_chunk source (s_current st) (s_id st) false])
           cur'
           (len (join (str " ") cur'))
           (s_id st + 1)
  else
    mkSent (s_chunks st)
           (s_current st ++ [sentence])
           (s_length st + len sentence + 1)
           (s_id st).

Definition sent_init : SentState := mkSent [] [] 0 0.

Definition sent_loop (source : pystr) (chunk_size overlap : Z) : SentState :=
  fold_left (sent_step source chunk_size overlap)
            (re_split_sentences source) sent_init.

(** "Add the last chunk if it meets minimum size". *)
Definition sent_flush (source : pystr) (min_chunk_size : Z)
    (st : SentState) : list Chunk :=
  if truthy (s_current st) then
    if len (join (str " ") (s_current st)) >=? min_chunk_size
    then s_chunks st ++ [span_chunk source (s_current st) (s_id st) true]
    else s_chunks st
  else s_chunks st.

Definition chunk_text (text0 : pystr)
    (chunk_size overlap min_chunk_size : Z) : list Chunk :=
  if negb (truthy text0) || negb (truthy (strip text0)) then []
  else
    let text := strip text0 in
    if len text <=? chunk_size
    then [chunk text 0 true (Span 0 (len text))]
    else force_last
           (sent_flush text min_chunk_size (sent_loop text chunk_size overlap)).

(** *** process_text_file

    [lines] is what [f.readlines()] returned. *)
Definition line_chunk (n : Z) (il : Z * pystr) : list Chunk :=
  let (i, line0) := il in
  let line := strip line0 in
  if truthy line
  then [chunk line i (i =? n - 1) (Line 0 (len line) (i + 1))]
  else [].

Definition process_text_file (lines : list pystr) : list Chunk :=
  flat_map (line_chunk (len lines)) (enumerate lines).

(** [readlines] on the decoded contents (newlines already translated to
    ["\n"], code point 10): every line keeps its newline. *)
Fixpoint readlines_aux (cur s : pystr) : list pystr :=
  match s with
  | [] => match cur with [] => [] | _ :: _ => [rev cur] end
  | c :: rest =>
      if (c =? 10)%N then rev (c :: cur) :: readlines_aux [] rest
      else readlines_aux (c :: cur) rest
  end.

Definition readlines (contents : pystr) : list pystr :=
  readlines_aux [] contents.

(** *** process_csv_file

    A row is what [row.items()] yields for a [csv.DictReader] row, each key
    and value already formatted as by an f-string, in field order. *)
Definition Row : Type := list (pystr * pystr).

Definition row_text (row : Row) : pystr :=
  join (str ", ") (map (fun kv => fst kv ++ str ": " ++ snd kv) row).

Record CsvState : Type := mkCsv {
  c_chunks : list Chunk;
  c_current : list pystr;     (* current_chunk *)
  c_length : Z;               (* current_length *)
  c_id : Z;                   (* chunk_id *)
  c_i : option Z              (* the loop variable i, once bound *)
}.

(** [list(reader.fieldnames) if reader.fieldnames else []] *)
Definition headers_of (fieldnames : option (list pystr)) : list pystr :=
  match fieldnames with Some l => l | None => [] end.

Definition csv_step (fieldnames : option (list pystr)) (chunk_size : Z)
    (st : CsvState) (ir : Z * Row) : CsvState :=
  let (i, row) := ir in
  let rt := row_text row in
  if (c_length st + len rt >? chunk_size) && truthy (c_current st) then
    mkCsv (c_chunks st ++
             [chunk (join newline (c_current st))
                    (c_id st) false
                    (Rows (i - len (c_current st)) (i - 1)
                          (headers_of fieldnames))])
          [rt] (len rt) (c_id st + 1) (Some i)
  else
    mkCsv (c_chunks st) (c_current st ++ [rt])
          (c_length st + len rt + 1) (c_id st) (Some i).

Definition csv_init : CsvState := mkCsv [] [] 0 0 None.

Definition csv_loop (fieldnames : option (list pystr)) (rows : list Row)
    (chunk_size : Z) : CsvState :=
  fold_left (csv_step fieldnames chunk_size) (enumerate rows) csv_init.

(** "Add the last chunk if not empty". *)
Definition csv_flush (fieldnames : option (list pystr)) (st : CsvState)
  : list Chunk :=
  if truthy (c_current st) then
    c_chunks st ++
      [chunk (join newline (c_current st))
             (c_id st) true
             (Rows (match c_i st with
                    | Some i => (i + 1) - len (c_current st)
                    | None => 0
                    end)
                   (match c_i st with
                    | Some i => i
                    | None => len (c_current st) - 1
                    end)
                   (headers_of fieldnames))]
  else c_chunks st.

Definition process_csv_file (fieldnames : option (list pystr))
    (rows : list Row) (chunk_size : Z) : list Chunk :=
  csv_flush fieldnames (csv_loop fieldnames rows chunk_size).

(** *** process_json_file, process_file

    [text_content] is the flattened text of the parsed document. *)
Definition process_json_file (text_content : pystr) (chunk_size overlap : Z)
  : list Chunk :=
  chunk_text text_content chunk_size overlap 50.

Inductive FileInput : Type :=
| CsvFile (fieldnames : option (list pystr)) (rows : list Row)
| JsonFile (text_content : pystr)
| TextFile (lines : list pystr).

Definition process_file (f : FileInput) (chunk_size overlap : Z)
  : list Chunk :=
  match f with
  | CsvFile fn rows => process_csv_file fn rows chunk_size
  | JsonFile t => process_json_file t chunk_size overlap
  | TextFile lines => process_text_file lines
  end.

(** *** merge_chunks *)

(** [chunk.get('start')] and [chunk.get('end')]: the CSV chunks have no
    such keys. *)
Definition start_of (c : Chunk) : option Z :=
  match meta c with
  | Span s _ => Some s
  | Line s _ _ => Some s
  | Rows _ _ _ => None
  end.

Definition end_of (c : Chunk) : option Z :=
  match meta c with
  | Span _ e => Some e
  | Line _ e _ => Some e
  | Rows _ _ _ => None
  end.

(** [sorted(l, key=key)]: the sort is stable, so its result is the one of
    insertion sort that keeps equal keys in their order. *)
Fixpoint insert_by {A} (key : A -> Z) (x : A) (l : list A) : list A :=
  match l with
  | [] => [x]
  | y :: r => if key x <=? key y then x :: y :: r
              else y :: insert_by key x r
  end.

Fixpoint sorted_by {A} (key : A -> Z) (l : list A) : list A :=
  match l with
  | [] => []
  | x :: r => insert_by key x (sorted_by key r)
  end.

(** One iteration of the reconstruction loop: the pieces appended so far
    (latest first) and [last_end]. *)
Definition merge_step (st : list pystr * Z) (c : Chunk) : list pystr * Z :=
  let (result, last_end) := st in
  let start := match start_of c with Some s => s | None => last_end end in
  let result :=
    if start >? last_end
    then repeat 32%N (Z.to_nat (start - last_end)) :: result
    else result in
  (text c :: result,
   match end_of c with Some e => e | None => start + len (text c) end).

Definition merge_chunks (chunks : list Chunk) : pystr :=
  if negb (truthy chunks) then []
  else
    let sorted_chunks :=
      sorted_by (fun x => match start_of x with Some s => s | None => 0 end)
                chunks in
    match sorted_chunks with
    | [] => []
    | first :: _ =>
        match start_of first with
        | None => join (newline ++ newline) (map text sorted_chunks)
        | Some _ =>
            List.concat
              (rev (fst (fold_left merge_step sorted_chunks ([], 0))))
        end
    end.

End Chunking.

Import Chunking.

(* ================================================================== *)
(** ** Exceptions *)

Module Exn.

(** The outcome of a call: a value, or an exception with its message. *)
Inductive Exc (A : Type) : Type :=
| Ok (a : A)
| Raise (e : pystr).

Arguments Ok {A} a.
Arguments Raise {A} e.

Definition bind {A B} (m : Exc A) (k : A -> Exc B) : Exc B :=
  match m with
  | Ok a => k a
  | Raise e => Raise e
  end.

(** [try: body  except Exception as e: handler e] *)
Definition try_except {A} (body : Exc A) (handler : pystr -> Exc A)
  : Exc A :=
  match body with
  | Ok a => Ok a
  | Raise e => handler e
  end.

End Exn.

Import Exn.

Notation "x <- m ;; k" := (bind m (fun x => k))
  (at level 61, m at next level, right associativity).

(* ================================================================== *)
(** ** Numbers *)

Module Num.

(** Nearest integer, ties to the even one. *)
Definition round_half_even (q : Q) : Z :=
  let f := Qfloor q in
  match (q - inject_Z f ?= 1 # 2)%Q with
  | Lt => f
  | Gt => f + 1
  | Eq => if Z.even f then f else f + 1
  end.

(** *** Doubles

    A double is [m * 2^e] with [|m| < 2^53] and [-1074 <= e]; the doubles
    of magnitude below [2^-1022] (subnormal) all have [e = -1074]. *)

Definition pow2 (e : Z) : Q := (2 ^ e)%Q.

(** [floor(log2 x)] for a positive [x]: the quotient of the numerator by
    the denominator lies between [2^(l-1)] and [2^(l+1)], [l] being the
    difference of their bit lengths. *)
Definition ilog2 (x : Q) : Z :=
  let l := Z.log2 (Qnum x) - Z.log2 (Zpos (Qden x)) in
  if Qle_bool (pow2 l) x then l else l - 1.

(** The exponent of the doubles next to a positive [x]: the significand
    [x / 2^e] then has 53 bits, fewer below [2^-1022]. *)
Definition exponent (x : Q) : Z := Z.max (ilog2 x - 52) (-1074).

Definition double_pos (x : Q) : Q :=
  let e := exponent x in
  (inject_Z (round_half_even (x / pow2 e)) * pow2 e)%Q.

(** The double nearest to [x], ties to the even significand: the value of
    a Python float literal, of [float(x)], and of every arithmetic result
    whose exact value is [x]. *)
Definition double (x : Q) : Q :=
  match (x ?= 0)%Q with
  | Eq => 0%Q
  | Gt => double_pos x
  | Lt => (- double_pos (- x))%Q
  end.

(** [a + b], [a * b], [a / b] on floats. *)
Definition fadd (a b : Q) : Q := double (a + b).
Definition fmul (a b : Q) : Q := double (a * b).
Definition fdiv (a b : Q) : Q := double (a / b).

(** [float(n)], the conversion an [int] undergoes next to a float. *)
Definition float_of_int (n : Z) : Q := double (inject_Z n).

(** [a / b] on two [int]s: the double nearest to the exact quotient. *)
Definition int_truediv (a b : Z) : Q := double (inject_Z a / inject_Z b).

(** [round(x, ndigits)] on a float, for [ndigits >= 0]: the exact value
    of [x] is rounded half-to-even to [ndigits] decimals, and the decimal
    obtained is read back as a double. *)
Definition py_round (x : Q) (ndigits : nat) : Q :=
  let scale := inject_Z (10 ^ Z.of_nat ndigits) in
  double (inject_Z (round_half_even (x * scale)) / scale).

(** [sum(xs)] on floats: from the integer 0, the items are added from
    left to right, each addition rounding.  (From CPython 3.12 on, [sum]
    also carries the rounding errors along and adds them at the end.) *)
Definition fsum (xs : list Q) : Q := fold_left fadd xs 0%Q.

(** [a > b] on numbers *)
Definition Qgtb (a b : Q) : bool := negb (Qle_bool a b).

End Num.

Import Num.

(* ================================================================== *)
(** ** The external libraries

    What the services call outside this repository.  Each call may return
    or raise; nothing else is assumed about them.  [clean_text] belongs to
    [language.py]; it only applies regular-expression substitutions, which
    are kept abstract here. *)

Record Libs : Type := mkLibs {
  (** [clean_text(text)] *)
  clean_text : pystr -> Exc pystr;
  (** [langdetect.detect(text)] *)
  langdetect_detect : pystr -> Exc pystr;
  (** [GoogleTranslator(source, target).translate(text)]; [None] is
      Python's [None] *)
  google_translate : pystr -> pystr -> pystr -> Exc (option pystr);
  (** [TextBlob(text).sentiment]: polarity and subjectivity, two floats *)
  textblob_sentiment : pystr -> Exc (Q * Q)
}.

(* ================================================================== *)
(** ** services/language.py, translation.py, sentiment.py *)

Module Services.

(** [x or d] on strings *)
Definition or_else (x : option pystr) (d : pystr) : pystr :=
  match x with
  | Some s => if truthy s then s else d
  | None => d
  end.

Definition detect_language (L : Libs) (text default : pystr) : Exc pystr :=
  if negb (truthy text) || negb (truthy (strip text)) then Ok default
  else
    try_except
      (cleaned_text <- clean_text L text ;;
       if negb (truthy (strip cleaned_text)) then Ok default
       else
         detected_lang <- langdetect_detect L cleaned_text ;;
         Ok (lower detected_lang))
      (fun _ => Ok default).

Record TranslationResult : Type := mkTranslation {
  tr_error : option pystr;          (* the key 'error', when present *)
  tr_original_text : pystr;
  tr_translated_text : pystr;
  tr_source_lang : pystr;
  tr_target_lang : pystr;
  tr_confidence : option Q
}.

Definition translate_text (L : Libs) (text target_lang : pystr)
    (source_lang : option pystr) : Exc TranslationResult :=
  if negb (truthy text) || negb (truthy (strip text)) then
    Ok (mkTranslation (Some (str "Text cannot be empty")) text text
                      (or_else source_lang (str "unknown")) target_lang None)
  else
    try_except
      (let source :=
         match source_lang with
         | Some s => if truthy s && negb (eqb s (str "auto")) then s
                     else str "auto"
         | None => str "auto"
         end in
       r <- google_translate L source target_lang text ;;
       let translated_text :=
         match r with
         | Some t => if truthy t then t else text
         | None => text
         end in
       Ok (mkTranslation None text translated_text
                         (or_else source_lang (str "auto")) target_lang
                         (Some (double (85 # 100)))))
      (fun e =>
         Ok (mkTranslation (Some (str "Translation failed: " ++ e)) text text
                           (or_else source_lang (str "unknown")) target_lang
                           None)).

Record SentimentResult : Type := mkSentiment {
  sr_sentiment : pystr;
  sr_score : Q;
  sr_polarity : Q;
  sr_subjectivity : Q;
  sr_language : pystr;
  sr_counts : option (Z * Z);       (* word_count, char_count *)
  sr_error : option pystr
}.

(** [len(text.split())]: the number of maximal runs of non-space. *)
Fixpoint word_count_aux (in_word : bool) (s : pystr) : Z :=
  match s with
  | [] => 0
  | c :: r =>
      if isspace c then word_count_aux false r
      else (if in_word then 0 else 1) + word_count_aux true r
  end.

Definition word_count (s : pystr) : Z := word_count_aux false s.

Definition analyze_sentiment (L : Libs) (text language : pystr)
  : Exc SentimentResult :=
  (* the inner try with its bare except: it always binds [language] *)
  let language :=
    if negb (truthy language) || eqb language (str "auto") then
      match (if truthy (strip text) then langdetect_detect L text
             else Ok (str "en")) with
      | Ok l => l
      | Raise _ => str "en"
      end
    else language in
  try_except
    (ps <- textblob_sentiment L text ;;
     let polarity := fst ps in
     let subjectivity := snd ps in
     let sentiment :=
       if Qgtb polarity (double (1 # 10)) then str "positive"
       else if Qgtb (- double (1 # 10)) polarity then str "negative"
       else str "neutral" in
     let score := fdiv (fadd polarity 1) 2 in
     Ok (mkSentiment sentiment (py_round score 4) (py_round polarity 4)
                     (py_round subjectivity 4) language
                     (Some (word_count text, len text)) None))
    (fun e =>
       Ok (mkSentiment (str "neutral") (1 # 2) 0 (1 # 2)
                       (or_else (Some language) (str "en")) None (Some e))).

(** [LANGUAGE_NAMES] of language.py: the codes, in the order of the
    source, with their names. *)
Definition LANGUAGE_NAMES : list (pystr * pystr) :=
  [(str "en", str "English"); (str "es", str "Spanish");
   (str "fr", str "French"); (str "de", str "German");
   (str "it", str "Italian"); (str "pt", str "Portuguese");
   (str "ru", str "Russian"); (str "zh", str "Chinese");
   (str "ja", str "Japanese"); (str "ko", str "Korean");
   (str "ar", str "Arabic"); (str "hi", str "Hindi");
   (str "bn", str "Bengali"); (str "pa", str "Punjabi");
   (str "ta", str "Tamil"); (str "te", str "Telugu");
   (str "mr", str "Marathi"); (str "gu", str "Gujarati");
   (str "kn", str "Kannada"); (str "ml", str "Malayalam");
   (str "or", str "Odia"); (str "as", str "Assamese")].

(** [get_supported_languages()] of translation.py *)
Definition get_supported_languages : list (pystr * pystr) :=
  [(str "en", str "English"); (str "es", str "Spanish");
   (str "fr", str "French"); (str "de", str "German");
   (str "it", str "Italian"); (str "pt", str "Portuguese");
   (str "ru", str "Russian"); (str "zh", str "Chinese");
   (str "ja", str "Japanese"); (str "ko", str "Korean");
   (str "ar", str "Arabic"); (str "hi", str "Hindi")].

(** [d.get(k)] on a dictionary written as its items *)
Fixpoint dict_get (d : list (pystr * pystr)) (k : pystr) : option pystr :=
  match d with
  | [] => None
  | (k', v) :: r => if eqb k k' then Some v else dict_get r k
  end.

(** [k in d] *)
Definition dict_has (d : list (pystr * pystr)) (k : pystr) : bool :=
  match dict_get d k with Some _ => true | None => false end.

Definition is_supported_language (lang_code : pystr) : bool :=
  dict_has LANGUAGE_NAMES (lower lang_code).

Definition is_language_supported (lang_code : pystr) : bool :=
  dict_has get_supported_languages (lower lang_code).

End Services.

Import Services.

(* ================================================================== *)
(** ** app.py: the batch workflow *)

Module App.

(** The dictionary [chunk_result]. *)
Record ChunkResult : Type := mkResult {
  cr_chunk_id : Z;
  original_text : pystr;
  processed_text : pystr;
  detected_language : pystr;
  was_translated : bool;
  sentiment : pystr;
  sentiment_score : Q;
  polarity : Q;
  subjectivity : Q;
  confidence : option Q;         (* sentiment_result.get('confidence') *)
  cr_rating : option pystr;
  cr_date : option pystr;
  analysis : SentimentResult
}.

Record Counts : Type := mkCounts { positive : Z; neutral : Z; negative : Z }.

Record Percentages : Type :=
  mkPercentages { pct_positive : Q; pct_neutral : Q; pct_negative : Q }.

(** The summary dictionary.  [key_insights], [ollama_insights] and
    [workflow_steps_completed] are display text built from the fields
    below and from the optional Ollama call; they are left out.  The key
    'sentiment_percentages' is absent from the summary of an empty batch. *)
Record Summary : Type := mkSummary {
  total_reviews_analyzed : Z;
  average_sentiment_score : Q;
  sentiment_distribution : Counts;
  sentiment_percentages : option Percentages;
  common_topics : list pystr;
  languages_detected : list pystr;
  translations_performed : Z
}.

Definition pystr_eq_dec : forall a b : pystr, {a = b} + {a <> b} :=
  list_eq_dec N.eq_dec.

(** [list(set(xs))]: the distinct elements; Python fixes no order. *)
Definition list_set (xs : list pystr) : list pystr := nodup pystr_eq_dec xs.

(** [sum(1 for r in rs if p r)] *)
Definition count_if {A} (p : A -> bool) (rs : list A) : Z :=
  len (filter p rs).

(** One iteration of "Count sentiment categories". *)
Definition count_step (c : Counts) (r : ChunkResult) : Counts :=
  let s := lower (sentiment r) in
  if eqb s (str "positive")
  then mkCounts (positive c + 1) (neutral c) (negative c)
  else if eqb s (str "neutral")
  then mkCounts (positive c) (neutral c + 1) (negative c)
  else if eqb s (str "negative")
  then mkCounts (positive c) (neutral c) (negative c + 1)
  else c.

Definition sentiment_counts (rs : list ChunkResult) : Counts :=
  fold_left count_step rs (mkCounts 0 0 0).

(** [round((count / total_chunks) * 100, 1) if total_chunks > 0 else 0] *)
Definition percentage (count total_chunks : Z) : Q :=
  if total_chunks >? 0
  then py_round (fmul (int_truediv count total_chunks) 100) 1
  else 0%Q.

Definition generate_summary (analysis_results : list ChunkResult)
  : Summary :=
  let total_chunks := len analysis_results in
  if total_chunks =? 0 then
    mkSummary 0 0 (mkCounts 0 0 0) None [] [] 0
  else
    let sentiment_scores := map sentiment_score analysis_results in
    let avg_sentiment :=
      fdiv (fsum sentiment_scores)
           (float_of_int (len sentiment_scores)) in
    let counts := sentiment_counts analysis_results in
    mkSummary total_chunks
              (py_round avg_sentiment 3)
              counts
              (Some (mkPercentages
                       (percentage (positive counts) total_chunks)
                       (percentage (neutral counts) total_chunks)
                       (percentage (negative counts) total_chunks)))
              []   (* no result carries a 'topics' list *)
              (list_set (map detected_language analysis_results))
              (count_if was_translated analysis_results).

(** The dictionary [response_data], without its constant entries
    ('status', 'workflow_completed'). *)
Record ResponseData : Type := mkResponse {
  filename : pystr;
  total_chunks : Z;
  analysis_results : list ChunkResult;
  summary : Summary;
  top_languages_detected : list pystr;
  top_translations_performed : Z
}.

Definition response_data (fname : pystr) (results : list ChunkResult)
  : ResponseData :=
  mkResponse fname (len results) results (generate_summary results)
             (list_set (map detected_language results))
             (count_if was_translated results).

Inductive Response : Type :=
| Http200 (data : ResponseData)
| Http400 (error : pystr)
| Http500 (error : pystr).

(** The loop of [upload_file] over the three collaborators it imports.
    A collaborator is any callable; whatever it raises outside the one
    [try] of step 4 reaches the handler of the whole request. *)
Section Workflow.

Variable detect_language : pystr -> Exc pystr.
Variable translate_text :
  pystr -> pystr -> option pystr -> Exc TranslationResult.
Variable analyze_sentiment : pystr -> pystr -> Exc SentimentResult.

(** STEP 3: the language of the chunk. *)
Definition resolve_language (c : Chunk) : Exc pystr :=
  let detected_language :=
    lower (match language c with Some l => l | None => [] end) in
  if negb (truthy detected_language) || eqb detected_language (str "auto")
  then detect_language (text c)
  else Ok detected_language.

(** STEP 4: [(translated_text, was_translated)]. *)
Definition translate_step (chunk_text detected_language : pystr)
  : Exc (pystr * bool) :=
  if negb (eqb detected_language (str "en")) then
    try_except
      (translation_result <-
         translate_text chunk_text (str "en") (Some detected_language) ;;
       match tr_error translation_result with
       | None => Ok (tr_translated_text translation_result, true)
       | Some _ => Ok (chunk_text, false)
       end)
      (fun _ => Ok (chunk_text, false))
  else Ok (chunk_text, false).

(** The body of the loop for one chunk: [None] when the chunk is skipped. *)
Definition process_chunk (c : Chunk) : Exc (option ChunkResult) :=
  let chunk_text := text c in
  if negb (truthy (strip chunk_text)) then Ok None
  else
    detected_language <- resolve_language c ;;
    tw <- translate_step chunk_text detected_language ;;
    let translated_text := fst tw in
    let was_translated := snd tw in
    sentiment_result <- analyze_sentiment translated_text (str "en") ;;
    Ok (Some (mkResult (chunk_id c) chunk_text translated_text
                       detected_language was_translated
                       (sr_sentiment sentiment_result)
                       (sr_score sentiment_result)
                       (sr_polarity sentiment_result)
                       (sr_subjectivity sentiment_result)
                       None (rating c) (date c) sentiment_result)).

Fixpoint process_chunks (chunks : list Chunk) : Exc (list ChunkResult) :=
  match chunks with
  | [] => Ok []
  | c :: rest =>
      r <- process_chunk c ;;
      rs <- process_chunks rest ;;
      Ok (match r with Some x => x :: rs | None => rs end)
  end.

(** [upload_file] from the chunk list on. *)
Definition upload_chunks (fname : pystr) (chunks : list Chunk) : Response :=
  match process_chunks chunks with
  | Ok results => Http200 (response_data fname results)
  | Raise e => Http500 (str "Failed to process file: " ++ e)
  end.

End Workflow.

(** [allowed_file]. *)

(** [s.rsplit(sep, 1)] for a separator of one character: the parts before
    and after its last occurrence, or [s] alone. *)
Fixpoint rsplit1_aux (sep : N) (s : pystr) : option (pystr * pystr) :=
  match s with
  | [] => None
  | x :: r =>
      match rsplit1_aux sep r with
      | Some (a, b) => Some (x :: a, b)
      | None => if (x =? sep)%N then Some ([], r) else None
      end
  end.

Definition rsplit1 (sep : N) (s : pystr) : list pystr :=
  match rsplit1_aux sep s with
  | Some (a, b) => [a; b]
  | None => [s]
  end.

(** [app.config['ALLOWED_EXTENSIONS']] *)
Definition ALLOWED_EXTENSIONS : list pystr := [str "csv"; str "txt"].

(** ['.' in filename and
     filename.rsplit('.', 1)[1].lower() in ALLOWED_EXTENSIONS];
    46 is the full stop. *)
Definition allowed_file (filename : pystr) : bool :=
  existsb (N.eqb 46) filename
  && match nth_error (rsplit1 46 filename) 1 with
     | Some ext => existsb (eqb (lower ext)) ALLOWED_EXTENSIONS
     | None => false
     end.

(** The sample of reviews [generate_summary] sends to Ollama. *)

(** [range(0, stop, step)] for a positive [step] *)
Definition range_step (stop step : Z) : list Z :=
  map (fun k => Z.of_nat k * step)
      (seq 0 (Z.to_nat ((stop + step - 1) / step))).

(** One iteration of the sampling loop; [None] is the [IndexError] of
    [analysis_results[i]]. *)
Definition sample_step (analysis_results : list ChunkResult)
    (acc : option (list pystr)) (i : Z) : option (list pystr) :=
  match acc with
  | None => None
  | Some sample_reviews =>
      if len sample_reviews <? 10 then
        match nth_error analysis_results (Z.to_nat i) with
        | Some r => Some (sample_reviews ++ [firstn 200 (processed_text r)])
        | None => None
        end
      else Some sample_reviews
  end.

Definition sample_reviews (analysis_results : list ChunkResult)
  : option (list pystr) :=
  let total_chunks := len analysis_results in
  let step := Z.max 1 (total_chunks / 10) in
  fold_left (sample_step analysis_results)
            (range_step total_chunks step) (Some []).

(** [translate_text_endpoint], on the parsed JSON body of the request:
    an object whose entries 'text', 'target_lang' and 'source_lang' are
    strings when they are present. *)
Record TranslateRequest : Type := mkTranslateRequest {
  rq_text : option pystr;
  rq_target_lang : option pystr;
  rq_source_lang : option pystr
}.

(** The body of the reply: the dictionary of [translate_text], the entries
    'sentiment' and 'sentiment_score' when they were added, and the entry
    'confidence'. *)
Record TranslateBody : Type := mkTranslateBody {
  tb_translation : TranslationResult;
  tb_sentiment : option (pystr * Q);
  tb_confidence : option Q
}.

Inductive EndpointReply : Type :=
| Reply200 (body : TranslateBody)
| Reply400 (error : pystr)
| Reply500 (error : pystr).

Section Endpoint.

Variable translate_text :
  pystr -> pystr -> option pystr -> Exc TranslationResult.
Variable analyze_sentiment : pystr -> pystr -> Exc SentimentResult.

Definition translate_text_endpoint (data : TranslateRequest)
  : EndpointReply :=
  let text := strip (match rq_text data with Some t => t | None => [] end) in
  let target_lang :=
    match rq_target_lang data with Some t => t | None => str "en" end in
  let source_lang := rq_source_lang data in
  if negb (truthy text) then Reply400 (str "No text provided")
  else
    match
      (translation_result <- translate_text text target_lang source_lang ;;
       let unchanged :=
         mkTranslateBody translation_result None
                         (tr_confidence translation_result) in
       match tr_error translation_result with
       | None =>
           try_except
             (sentiment_result <-
                analyze_sentiment (tr_translated_text translation_result)
                                  target_lang ;;
              Ok (mkTranslateBody translation_result
                    (Some (sr_sentiment sentiment_result,
                           sr_score sentiment_result))
                    (Some (sr_score sentiment_result))))
             (fun _ => Ok unchanged)
       | Some _ => Ok unchanged
       end)
    with
    | Ok body => Reply200 body
    | Raise _ => Reply500 (str "Failed to translate text")
    end.

End Endpoint.

(** The collaborators [upload_file] imports from the services. *)
Definition detect (L : Libs) : pystr -> Exc pystr :=
  fun t => Services.detect_language L t (str "en").

Definition translate (L : Libs)
  : pystr -> pystr -> option pystr -> Exc TranslationResult :=
  Services.translate_text L.

Definition score (L : Libs) : pystr -> pystr -> Exc SentimentResult :=
  Services.analyze_sentiment L.

(** [upload_file] from the chunk list on (the loop, the summary and the
    reply of status 200 or 500), with the services of this repository. *)
Definition upload_file (L : Libs) (fname : pystr) (chunks : list Chunk)
  : Response :=
  upload_chunks (detect L) (translate L) (score L) fname chunks.

(** *** The request of upload_file *)

(** The entry 'file' of [request.files]: the name the client sent, what
    [file.save] does for a secured name, and what the saved copy gives
    under each reader of chunking.py: [f.readlines()] on the text decoded
    as UTF-8, [csv.DictReader(f)] with its field names and rows, and the
    text that [process_json_file] flattens the parsed document to.  Any of
    them may raise. *)
Record UploadedFile : Type := mkUpload {
  up_filename : pystr;
  up_save : pystr -> Exc unit;
  up_lines : Exc (list pystr);
  up_csv : Exc (option (list pystr) * list Row);
  up_json : Exc pystr
}.

(** [s.split(sep)] for a separator of one character. *)
Fixpoint split_aux (sep : N) (cur s : pystr) : list pystr :=
  match s with
  | [] => [rev cur]
  | c :: rest =>
      if (c =? sep)%N then rev cur :: split_aux sep [] rest
      else split_aux sep (c :: cur) rest
  end.

Definition split_on (sep : N) (s : pystr) : list pystr :=
  split_aux sep [] s.

(** [PurePath.suffix] of a name: from its last full stop on, unless the
    full stop is the first or the last character. *)
Definition suffix (name : pystr) : pystr :=
  match rsplit1_aux 46 name with
  | Some (a, b) => if truthy a && truthy b then 46%N :: b else []
  | None => []
  end.

(** [Path(os.path.join(UPLOAD_FOLDER, filename)).suffix] where the path
    separator is the slash (47): the suffix of the last component of
    [filename] that is neither empty nor '.'.  When there is none, the
    name is that of the upload folder, or empty, and has no suffix. *)
Definition path_suffix (filename : pystr) : pystr :=
  suffix (last (filter (fun c => truthy c && negb (eqb c (str ".")))
                       (split_on 47 filename))
               []).

(** The choice of [process_file] by the suffix of the saved path, and the
    reading of the file that follows it. *)
Definition read_file (filename : pystr) (file : UploadedFile)
  : Exc FileInput :=
  let ext := lower (path_suffix filename) in
  if eqb ext (str ".csv") then
    r <- up_csv file ;; Ok (CsvFile (fst r) (snd r))
  else if eqb ext (str ".json") then
    t <- up_json file ;; Ok (JsonFile t)
  else
    ls <- up_lines file ;; Ok (TextFile ls).

Section Upload.

(** [werkzeug.utils.secure_filename] *)
Variable secure_filename : pystr -> pystr.

(** [upload_file] on a request.  [files] is what reading [request.files]
    gives: it may raise (a body over [MAX_CONTENT_LENGTH]), hold no entry
    'file', or hold the uploaded file.  [process_file] is called with its
    default sizes. *)
Definition upload_file_endpoint (L : Libs)
    (files : Exc (option UploadedFile)) : Response :=
  match files with
  | Raise _ => Http500 (str "Internal server error")
  | Ok None => Http400 (str "No file part in the request")
  | Ok (Some file) =>
      if eqb (up_filename file) [] then Http400 (str "No selected file")
      else if truthy (up_filename file) && allowed_file (up_filename file)
      then
        let filename := secure_filename (up_filename file) in
        match up_save file filename with
        | Raise _ => Http500 (str "Internal server error")
        | Ok _ =>
            match read_file filename file with
            | Raise e => Http500 (str "Failed to process file: " ++ e)
            | Ok input => upload_file L filename (process_file input 1000 100)
            end
        end
      else
        Http400
          (str "File type not allowed. Please upload CSV or TXT files.")
  end.

End Upload.

End App.

Import App.

(* ================================================================== *)
(** * Vocabulary of the properties *)

(** The string is empty or holds white space only. *)
Definition blank (s : pystr) : bool := forallb isspace s.

(** The k-th chunk (from 0) carries the identifier k. *)
Definition gapless (cs : list Chunk) : Prop :=
  forall k c, nth_error cs k = Some c -> chunk_id c = Z.of_nat k.

(** Identifiers grow strictly along the list. *)
Fixpoint increasing_from (lo : Z) (cs : list Chunk) : Prop :=
  match cs with
  | [] => True
  | c :: rest => lo <= chunk_id c /\ increasing_from (chunk_id c + 1) rest
  end.

(** The last chunk, and no other, is marked [is_last]. *)
Definition only_last_marked (cs : list Chunk) : Prop :=
  forall k c, nth_error cs k = Some c ->
              is_last c = Nat.eqb (S k) (List.length cs).

(** Number of chunks marked [is_last]. *)
Definition marked (cs : list Chunk) : nat := List.length (filter is_last cs).

(** The row range of a CSV chunk. *)
Definition row_range (c : Chunk) : option (Z * Z) :=
  match meta c with
  | Rows s e _ => Some (s, e)
  | _ => None
  end.

(** The inclusive ranges [rs], in order, tile the rows [a, a+1, ..., b-1]:
    the first starts at [a], none is empty, each next one starts right
    after the previous one ends, and the last ends at [b - 1]. *)
Fixpoint tiles (a : Z) (rs : list (Z * Z)) (b : Z) : Prop :=
  match rs with
  | [] => a = b
  | (s, e) :: rest => s = a /\ s <= e /\ tiles (e + 1) rest b
  end.

(** Row [r] lies in the inclusive range. *)
Definition covers (r : Z) (se : Z * Z) : bool :=
  (fst se <=? r) && (r <=? snd se).

(** The translator call failed: it raised, or its result has the key
    'error'. *)
Definition translation_failed (out : Exc TranslationResult) : Prop :=
  match out with
  | Raise _ => True
  | Ok r => tr_error r <> None
  end.

(** What every iteration of the sentence loop keeps: the counter is the
    number of closed chunks, they are numbered from 0, and none of them is
    marked. *)
Definition sent_inv (st : SentState) : Prop :=
  s_id st = len (s_chunks st)
  /\ gapless (s_chunks st)
  /\ Forall (fun c => is_last c = false) (s_chunks st).

(** What every iteration of the row loop keeps, after [i] rows. *)
Definition csv_inv (i : Z) (st : CsvState) : Prop :=
  c_id st = len (c_chunks st)
  /\ gapless (c_chunks st)
  /\ Forall (fun c => is_last c = false) (c_chunks st)
  /\ (exists ranges,
        map row_range (c_chunks st) = map Some ranges
        /\ tiles 0 ranges (i - len (c_current st)))
  /\ c_i st = (if i =? 0 then None else Some (i - 1))
  /\ (0 < i -> c_current st <> [])
  /\ 0 <= i.

(** The sentiment label is one the summary counts. *)
Definition recognised (label : pystr) : bool :=
  eqb (lower label) (str "positive") || eqb (lower label) (str "neutral")
  || eqb (lower label) (str "negative").

(** The dictionary [analyze_sentiment] returns from its handler. *)
Definition neutral_default (s : SentimentResult) (e : pystr) : Prop :=
  sr_sentiment s = str "neutral" /\ sr_score s = 1 # 2
  /\ sr_polarity s = 0%Q /\ sr_subjectivity s = 1 # 2
  /\ sr_error s = Some e.

(** How the result [r] of the chunk [c] reflects what the libraries did:
    it belongs to [c]; a chunk that was not translated keeps its text; a
    failed translation leaves it untranslated; a sentiment library that
    raises on the processed text leaves the neutral default; and when the
    chunk has no language hint and detection gives nothing, the language
    is ['en']. *)
Definition chunk_outcome (L : Libs) (c : Chunk) (r : ChunkResult) : Prop :=
  cr_chunk_id r = chunk_id c
  /\ original_text r = text c
  /\ (was_translated r = false -> processed_text r = text c)
  /\ (translation_failed
        (Services.translate_text L (text c) (str "en")
                                 (Some (detected_language r))) ->
      was_translated r = false)
  /\ (forall e, textblob_sentiment L (processed_text r) = Raise e ->
                sentiment r = str "neutral"
                /\ neutral_default (analysis r) e)
  /\ (language c = None ->
      (forall cleaned, clean_text L (text c) = Ok cleaned ->
                       exists e, langdetect_detect L cleaned = Raise e) ->
      detected_language r = str "en")
  /\ recognised (sentiment r) = true.

(** The sum of the three counters. *)
Definition counted (c : Counts) : Z := positive c + neutral c + negative c.

(** The sum of the three percentages, taken exactly. *)
Definition percent_total (p : Percentages) : Q :=
  (pct_positive p + pct_neutral p + pct_negative p)%Q.

(** The sum of the three percentages as Python adds them:
    [positive + neutral + negative] on floats. *)
Definition percent_total_float (p : Percentages) : Q :=
  fadd (fadd (pct_positive p) (pct_neutral p)) (pct_negative p).

(** The sum [total] is within 0.1 of 100 up to rounding errors, which stay
    below 1e-13. *)
Definition near_100 (total : Q) : Prop :=
  (Qabs (total - 100) <= (1 # 10) + (1 # 10000000000000))%Q.

(** The three percentages are the doubles nearest to three whole numbers
    of tenths that add up to 99.9, 100.0 or 100.1. *)
Definition tenths_total (p : Percentages) : Prop :=
  exists ka kb kc : Z,
    pct_positive p = double (inject_Z ka / 10)
    /\ pct_neutral p = double (inject_Z kb / 10)
    /\ pct_negative p = double (inject_Z kc / 10)
    /\ 999 <= ka + kb + kc <= 1001.

(** Libraries for the examples: detection answers 'es', the translator is
    unreachable, the sentiment library finds mild approval. *)
Definition offline_libs : Libs :=
  mkLibs (fun t => Ok t)
         (fun _ => Ok (str "es"))
         (fun _ _ _ => Raise (str "network unreachable"))
         (fun _ => Ok (1 # 2, 1 # 2)%Q).

(** One review in Spanish, as [process_text_file] gives it. *)
Definition hola : Chunk := chunk (str "hola") 0 true (Line 0 4 1).

(** Libraries for a batch in English: detection answers 'en', and the
    sentiment library likes 'good', dislikes 'bad' and is indifferent to
    the rest. *)
Definition plain_libs : Libs :=
  mkLibs (fun t => Ok t)
         (fun _ => Ok (str "en"))
         (fun _ _ t => Ok (Some t))
         (fun t => if eqb t (str "good") then Ok (1 # 2, 1 # 2)%Q
                   else if eqb t (str "bad") then Ok (- (1 # 2), 1 # 2)%Q
                   else Ok (0, 0)%Q).

(** Three reviews, one of each kind, as [process_text_file] gives them. *)
Definition one_of_each : list Chunk :=
  [chunk (str "good") 0 false (Line 0 4 1);
   chunk (str "fine") 1 false (Line 0 4 2);
   chunk (str "bad") 2 true (Line 0 3 3)].

(** [sub] occurs in [source] at index [i]: [source[i:i+len(sub)] == sub]. *)
Definition occurs_at (source sub : pystr) (i : nat) : Prop :=
  firstn (List.length sub) (skipn i source) = sub.

(** The position of a chunk of [chunk_text] in the trimmed source:
    [end = start + len(text)], and [start] is the index of the first
    occurrence of the text, or [-1] when the text does not occur. *)
Definition positioned (source : pystr) (c : Chunk) : Prop :=
  exists s,
    meta c = Span s (s + len (text c))
    /\ ((s = -1 /\ forall i, ~ occurs_at source (text c) i)
        \/ (0 <= s
            /\ occurs_at source (text c) (Z.to_nat s)
            /\ forall i, (i < Z.to_nat s)%nat ->
                         ~ occurs_at source (text c) i)).

(** What every iteration of the sentence loop keeps about the texts: the
    running chunk, when not empty, ends with a sentence that is not blank;
    the closed chunks are not blank and carry their position. *)
Definition sent_texts_inv (source : pystr) (st : SentState) : Prop :=
  (s_current st = []
   \/ exists init last, s_current st = init ++ [last] /\ blank last = false)
  /\ Forall (fun c => blank (text c) = false /\ positioned source c)
            (s_chunks st).

(** The texts of the closed chunks, then the running chunk. *)
Definition csv_texts (st : CsvState) : list pystr :=
  map text (c_chunks st)
  ++ match c_current st with
     | [] => []
     | _ :: _ => [join newline (c_current st)]
     end.

(** What every iteration of the row loop keeps about texts and sizes,
    [done] being the rendered rows read so far. *)
Definition csv_texts_inv (chunk_size : Z) (done : list pystr)
    (st : CsvState) : Prop :=
  join newline (csv_texts st) = join newline done
  /\ (done = [] <-> c_current st = [])
  /\ (c_current st = [] -> c_chunks st = [] /\ c_length st = 0)
  /\ (c_current st <> [] -> len (join newline (c_current st)) <= c_length st)
  /\ (2 <= len (c_current st) ->
      len (join newline (c_current st)) <= chunk_size + 1)
  /\ Forall (fun c => forall s e, row_range c = Some (s, e) -> s < e ->
                                  len (text c) <= chunk_size + 1)
            (c_chunks st).

(** What TextBlob documents of its result on [text]: a polarity between
    -1 and 1, a subjectivity between 0 and 1. *)
Definition textblob_in_range (L : Libs) (text : pystr) : Prop :=
  forall p sub,
    textblob_sentiment L text = Ok (p, sub) ->
    (- (1) <= p)%Q /\ (p <= 1)%Q /\ (0 <= sub)%Q /\ (sub <= 1)%Q.

(** The numbers of a sentiment result are in their documented ranges. *)
Definition sentiment_in_range (s : SentimentResult) : Prop :=
  (0 <= sr_score s)%Q /\ (sr_score s <= 1)%Q
  /\ (- (1) <= sr_polarity s)%Q /\ (sr_polarity s <= 1)%Q
  /\ (0 <= sr_subjectivity s)%Q /\ (sr_subjectivity s <= 1)%Q.

(** The score of a polarity: [round((polarity + 1) / 2, 4)]. *)
Definition score_of (p : Q) : Q := py_round (fdiv (fadd p 1) 2) 4.

(** The label of a sentiment result agrees with its score and polarity,
    at the thresholds 0.1 of polarity, that is 0.45 and 0.55 of score.
    The thresholds are the floats that Python reads these literals as, so
    that each line is what [score >= 0.55], [polarity <= -0.1] and the
    like evaluate to. *)
Definition label_agrees (s : SentimentResult) : Prop :=
  (sr_sentiment s = str "positive"
   /\ (double (55 # 100) <= sr_score s)%Q
   /\ (double (1 # 10) <= sr_polarity s)%Q)
  \/ (sr_sentiment s = str "negative"
      /\ (sr_score s <= double (45 # 100))%Q
      /\ (sr_polarity s <= - double (1 # 10))%Q)
  \/ (sr_sentiment s = str "neutral"
      /\ (double (45 # 100) <= sr_score s)%Q
      /\ (sr_score s <= double (55 # 100))%Q
      /\ (- double (1 # 10) <= sr_polarity s)%Q
      /\ (sr_polarity s <= double (1 # 10))%Q).

(** Libraries that answer within the documented ranges. *)
Definition steady_libs : Libs :=
  mkLibs (fun t => Ok t)
         (fun _ => Ok (str "FR"))
         (fun _ _ t => Ok (Some (str "good")))
         (fun _ => Ok (3 # 4, 1 # 4)%Q).

(** What holds of every chunk result, whatever the collaborators are: the
    original text is not blank; a result that was not translated keeps its
    text; only a language other than 'en' is ever translated. *)
Definition result_consistent (r : ChunkResult) : Prop :=
  blank (original_text r) = false
  /\ (was_translated r = false -> processed_text r = original_text r)
  /\ (was_translated r = true -> detected_language r <> str "en").

(** The excerpt of the result at index [i], as the sampling loop takes
    it. *)
Definition excerpt_at (rs : list ChunkResult) (i : Z) : option pystr :=
  option_map (fun r => firstn 200 (processed_text r))
             (nth_error rs (Z.to_nat i)).

(** The CSV rows have at least one field each, as the rows of a
    [csv.DictReader] have. *)
Definition rows_have_fields (f : FileInput) : Prop :=
  match f with
  | CsvFile _ rows => Forall (fun row => row <> []) rows
  | _ => True
  end.

(** The uploaded file gets through to chunking: its name is allowed, the
    copy is saved under the secured name, and the reader that
    [process_file] selects gives [input]. *)
Definition accepted (secure_filename : pystr -> pystr) (file : UploadedFile)
    (input : FileInput) : Prop :=
  allowed_file (up_filename file) = true
  /\ up_save file (secure_filename (up_filename file)) = Ok tt
  /\ read_file (secure_filename (up_filename file)) file = Ok input.

(** An upload of three lines of text, the second one empty. *)
Definition reviews_txt : UploadedFile :=
  mkUpload (str "reviews.txt") (fun _ => Ok tt)
           (Ok [str "good" ++ newline; newline; str "bad"])
           (Raise (str "not read"))
           (Raise (str "not read")).

(** An upload of a CSV file with one review and a language column. *)
Definition ratings_csv : UploadedFile :=
  mkUpload (str "ratings.CSV") (fun _ => Ok tt)
           (Raise (str "not read"))
           (Ok (Some [str "review"; str "language"; str "rating"],
                [[(str "review", str "muy bien");
                  (str "language", str "fr");
                  (str "rating", str "5")]]))
           (Raise (str "not read")).

(** The chunk has none of the keys 'language', 'rating', 'date'. *)
Definition no_carried_fields (c : Chunk) : Prop :=
  language c = None /\ rating c = None /\ date c = None.

(** [sub] is a part of [s]: [sub in s]. *)
Definition substring (sub s : pystr) : Prop :=
  exists pre post, s = pre ++ sub ++ post.

(** What every iteration of the sentence loop keeps about the sentences
    read so far ([done]): each is in the text of a closed chunk or in the
    running chunk. *)
Definition sent_kept_inv (done : list pystr) (st : SentState) : Prop :=
  forall s, In s done ->
    (exists c, In c (s_chunks st) /\ substring s (text c))
    \/ In s (s_current st).

(* ================================================================== *)
(** * Properties *)

(** ** Blank strings and [strip] *)

Lemma lstrip_nil_iff (s : pystr) : lstrip s = [] <-> blank s = true.
Proof.
  unfold blank. induction s as [|c r IH]; simpl.
  - tauto.
  - destruct (isspace c) eqn:E; simpl.
    + exact IH.
    + split; discriminate.
Qed.

Lemma lstrip_head (s : pystr) :
  match lstrip s with
  | [] => True
  | c :: _ => isspace c = false
  end.
Proof.
  induction s as [|c r IH]; simpl; [exact I|].
  destruct (isspace c) eqn:E; [exact IH | exact E].
Qed.

Lemma blank_rev (s : pystr) : blank (rev s) = blank s.
Proof.
  unfold blank. induction s as [|c r IH]; simpl; [reflexivity|].
  rewrite forallb_app, IH. simpl. rewrite andb_true_r. apply andb_comm.
Qed.

Lemma rev_nil_inv {A} (l : list A) : rev l = [] -> l = [].
Proof.
  intro H. rewrite <- (rev_involutive l), H. reflexivity.
Qed.

Lemma strip_nil_iff (s : pystr) : strip s = [] <-> blank s = true.
Proof.
  unfold strip, rstrip. split.
  - intro H. apply rev_nil_inv in H. apply lstrip_nil_iff in H.
    rewrite blank_rev in H.
    apply lstrip_nil_iff.
    pose proof (lstrip_head s) as Hh.
    destruct (lstrip s) as [|c r]; [reflexivity|].
    unfold blank in H. simpl in H. rewrite Hh in H. discriminate.
  - intro H. apply lstrip_nil_iff in H. rewrite H. reflexivity.
Qed.

Lemma truthy_false_iff {A} (l : list A) : truthy l = false <-> l = [].
Proof. destruct l; simpl; split; congruence. Qed.

Lemma truthy_strip (s : pystr) : truthy (strip s) = negb (blank s).
Proof.
  destruct (blank s) eqn:B.
  - apply strip_nil_iff in B. rewrite B. reflexivity.
  - destruct (strip s) eqn:E; [|reflexivity].
    apply strip_nil_iff in E. congruence.
Qed.

(** The guard of [chunk_text], of [detect_language] and of
    [translate_text]: [not text or not text.strip()]. *)
Lemma empty_guard (s : pystr) :
  negb (truthy s) || negb (truthy (strip s)) = blank s.
Proof.
  rewrite truthy_strip, negb_involutive.
  destruct s; simpl; [reflexivity|]. reflexivity.
Qed.

(** ** chunk_text on short and blank inputs *)

Lemma chunk_text_blank (text0 : pystr) (chunk_size overlap min_chunk_size : Z) :
  blank text0 = true ->
  chunk_text text0 chunk_size overlap min_chunk_size = [].
Proof.
  intro B. unfold chunk_text. rewrite empty_guard, B. reflexivity.
Qed.

Lemma chunk_text_short (text0 : pystr) (chunk_size overlap min_chunk_size : Z) :
  blank text0 = false ->
  len (strip text0) <= chunk_size ->
  chunk_text text0 chunk_size overlap min_chunk_size =
    [chunk (strip text0) 0 true (Span 0 (len (strip text0)))].
Proof.
  intros B L. unfold chunk_text. rewrite empty_guard, B.
  apply Z.leb_le in L. rewrite L. reflexivity.
Qed.

Lemma chunk_text_long (text0 : pystr) (chunk_size overlap min_chunk_size : Z) :
  blank text0 = false ->
  chunk_size < len (strip text0) ->
  chunk_text text0 chunk_size overlap min_chunk_size =
    force_last (sent_flush (strip text0) min_chunk_size
                           (sent_loop (strip text0) chunk_size overlap)).
Proof.
  intros B L. unfold chunk_text. rewrite empty_guard, B.
  apply Z.leb_gt in L. rewrite L. reflexivity.
Qed.

(** ** Loops as folds *)

Lemma fold_left_invariant {S A} (P : S -> Prop) (f : S -> A -> S) :
  (forall st a, P st -> P (f st a)) ->
  forall l st, P st -> P (fold_left f l st).
Proof.
  intros Hstep l. induction l as [|a l IH]; simpl; intros st H.
  - exact H.
  - apply IH, Hstep, H.
Qed.

Lemma only_last_marked_snoc (cs : list Chunk) (c : Chunk) :
  Forall (fun x => is_last x = false) cs ->
  is_last c = true ->
  only_last_marked (cs ++ [c]).
Proof.
  intros Hf Hc k x E. rewrite length_app.
  change (List.length [c]) with 1%nat.
  destruct (Nat.lt_ge_cases k (List.length cs)) as [Hk|Hk].
  - rewrite nth_error_app1 in E by exact Hk.
    apply nth_error_In in E. rewrite Forall_forall in Hf.
    rewrite (Hf _ E).
    destruct (Nat.eqb_spec (S k) (List.length cs + 1)); [lia|reflexivity].
  - rewrite nth_error_app2 in E by exact Hk.
    destruct (k - List.length cs)%nat as [|j] eqn:D; simpl in E.
    + injection E as <-. rewrite Hc.
      destruct (Nat.eqb_spec (S k) (List.length cs + 1)); [reflexivity|lia].
    + destruct j; discriminate.
Qed.

Lemma force_last_snoc (cs : list Chunk) (c : Chunk) :
  force_last (cs ++ [c]) = cs ++ [set_is_last true c].
Proof.
  induction cs as [|a cs IH]; simpl; [reflexivity|].
  rewrite IH. destruct cs; reflexivity.
Qed.

Lemma snoc_cases {A} (l : list A) : l = [] \/ exists l' x, l = l' ++ [x].
Proof.
  destruct l as [|a l]; [left; reflexivity|right].
  destruct (@exists_last _ (a :: l)) as [l' [x E]]; [discriminate|].
  exists l', x. exact E.
Qed.

Lemma gapless_snoc (cs : list Chunk) (c : Chunk) :
  gapless cs -> chunk_id c = len cs -> gapless (cs ++ [c]).
Proof.
  intros G Hc k x E.
  destruct (Nat.lt_ge_cases k (List.length cs)) as [Hk|Hk].
  - rewrite nth_error_app1 in E by exact Hk. apply G, E.
  - rewrite nth_error_app2 in E by exact Hk.
    destruct (k - List.length cs)%nat as [|j] eqn:D; simpl in E.
    + injection E as <-. rewrite Hc. unfold len. f_equal. lia.
    + destruct j; discriminate.
Qed.

Lemma gapless_init (cs : list Chunk) (c : Chunk) :
  gapless (cs ++ [c]) -> gapless cs.
Proof.
  intros G k x E. apply G. rewrite nth_error_app1; [exact E|].
  apply nth_error_Some. congruence.
Qed.

Lemma gapless_force_last (cs : list Chunk) :
  gapless cs -> gapless (force_last cs).
Proof.
  destruct (snoc_cases cs) as [->|[l [x ->]]]; [trivial|].
  intro G. rewrite force_last_snoc.
  apply gapless_snoc.
  - apply (gapless_init _ _ G).
  - simpl. apply (G (List.length l)).
    rewrite nth_error_app2, Nat.sub_diag by lia. reflexivity.
Qed.

Lemma only_last_marked_force_last (cs : list Chunk) :
  Forall (fun x => is_last x = false) cs ->
  only_last_marked (force_last cs).
Proof.
  destruct (snoc_cases cs) as [->|[l [x ->]]].
  - intros _ k c E. destruct k; discriminate.
  - intro F. rewrite force_last_snoc.
    apply Forall_app in F as [F _].
    apply only_last_marked_snoc; [exact F|reflexivity].
Qed.

(** ** The sentence loop of chunk_text *)

Lemma sent_init_inv : sent_inv sent_init.
Proof.
  repeat split; simpl.
  - intros k c E. destruct k; discriminate.
  - constructor.
Qed.

Lemma len_snoc {A} (l : list A) (x : A) : len (l ++ [x]) = len l + 1.
Proof. unfold len. rewrite length_app. simpl. lia. Qed.

Lemma sent_step_inv (source : pystr) (chunk_size overlap : Z)
    (st : SentState) (sentence : pystr) :
  sent_inv st -> sent_inv (sent_step source chunk_size overlap st sentence).
Proof.
  intros (Hid & Hg & Hf). unfold sent_step.
  destruct (negb (truthy (strip sentence))); [repeat split; assumption|].
  destruct ((s_length st + len (strip sentence) >? chunk_size)
            && truthy (s_current st));
    [|repeat split; assumption].
  repeat split; simpl.
  - rewrite len_snoc. lia.
  - apply gapless_snoc; [exact Hg | exact Hid].
  - apply Forall_app. split; [exact Hf|]. repeat constructor.
Qed.

Lemma sent_loop_inv (source : pystr) (chunk_size overlap : Z) :
  sent_inv (sent_loop source chunk_size overlap).
Proof.
  unfold sent_loop. apply fold_left_invariant.
  - intros st a. apply sent_step_inv.
  - apply sent_init_inv.
Qed.

(** The flushed list before [chunks[-1]['is_last'] = True]: numbered from
    0; either it ends with the marked final chunk or nothing is marked. *)
Lemma sent_flush_shape (source : pystr) (min_chunk_size : Z) (st : SentState) :
  sent_inv st ->
  let out := sent_flush source min_chunk_size st in
  gapless out
  /\ ((truthy (s_current st)
       && (len (join (str " ") (s_current st)) >=? min_chunk_size) = true
       /\ out = s_chunks st
                ++ [span_chunk source (s_current st) (s_id st) true])
      \/ (truthy (s_current st)
          && (len (join (str " ") (s_current st)) >=? min_chunk_size) = false
          /\ out = s_chunks st)).
Proof.
  intros (Hid & Hg & Hf). unfold sent_flush.
  destruct (truthy (s_current st)); simpl.
  - destruct (len (join (str " ") (s_current st)) >=? min_chunk_size).
    + split; [|left; split; reflexivity].
      apply gapless_snoc; [exact Hg | exact Hid].
    + split; [exact Hg|right; split; reflexivity].
  - split; [exact Hg|right; split; reflexivity].
Qed.

Lemma chunk_text_gapless (text0 : pystr)
    (chunk_size overlap min_chunk_size : Z) :
  gapless (chunk_text text0 chunk_size overlap min_chunk_size).
Proof.
  unfold chunk_text.
  destruct (negb (truthy text0) || negb (truthy (strip text0))).
  - intros k c E. destruct k; discriminate.
  - destruct (len (strip text0) <=? chunk_size).
    + intros k c E. destruct k as [|k]; simpl in E.
      * injection E as <-. reflexivity.
      * destruct k; discriminate.
    + apply gapless_force_last.
      apply (sent_flush_shape _ _ _ (sent_loop_inv _ _ _)).
Qed.

Lemma chunk_text_only_last_marked (text0 : pystr)
    (chunk_size overlap min_chunk_size : Z) :
  only_last_marked (chunk_text text0 chunk_size overlap min_chunk_size).
Proof.
  unfold chunk_text.
  destruct (negb (truthy text0) || negb (truthy (strip text0))).
  - intros k c E. destruct k; discriminate.
  - destruct (len (strip text0) <=? chunk_size).
    + apply (only_last_marked_snoc []); [constructor|reflexivity].
    + pose proof (sent_loop_inv (strip text0) chunk_size overlap) as I.
      destruct (sent_flush_shape (strip text0) min_chunk_size _ I)
        as (_ & [[_ E]|[_ E]]); rewrite E.
      * rewrite force_last_snoc.
        apply only_last_marked_snoc; [apply I|reflexivity].
      * apply only_last_marked_force_last, I.
Qed.

(** ** chunk_text: short inputs, blank inputs, the final chunk *)

(** C10.  A blank input (empty, or white space only) yields the empty list
    whatever [chunk_size], [overlap] and [min_chunk_size] are; and when the
    trimmed input fits in [chunk_size], a blank input is the only one for
    which the result is empty. *)
Theorem chunk_text_empty_iff_blank (text0 : pystr)
    (chunk_size overlap min_chunk_size : Z) :
  (blank text0 = true ->
   chunk_text text0 chunk_size overlap min_chunk_size = [])
  /\ (len (strip text0) <= chunk_size ->
      (chunk_text text0 chunk_size overlap min_chunk_size = []
       <-> blank text0 = true)).
Proof.
  split.
  - apply chunk_text_blank.
  - intro L. split.
    + intro E. destruct (blank text0) eqn:B; [reflexivity|].
      rewrite (chunk_text_short _ _ _ _ B L) in E. discriminate.
    + apply chunk_text_blank.
Qed.

Lemma chunk_text_empty_iff_blank_witness :
  chunk_text (str "  ") 1000 100 50 = []
  /\ (chunk_text (str "ok") 1000 100 50 = [] <-> blank (str "ok") = true).
Proof.
  split.
  - apply (proj1 (chunk_text_empty_iff_blank (str "  ") 1000 100 50)).
    reflexivity.
  - apply (proj2 (chunk_text_empty_iff_blank (str "ok") 1000 100 50)).
    vm_compute. discriminate.
Defined.

(** C5, as the code has it.  An input that is not blank and whose trimmed
    text fits in [chunk_size] yields exactly one chunk: identifier 0,
    marked last, holding the trimmed text, with [start = 0] and [end] the
    length of the trimmed text.  It spans the whole input when the input
    has no white space at either end. *)
Theorem chunk_text_short_single (text0 : pystr)
    (chunk_size overlap min_chunk_size : Z) :
  blank text0 = false ->
  len (strip text0) <= chunk_size ->
  chunk_text text0 chunk_size overlap min_chunk_size
    = [chunk (strip text0) 0 true (Span 0 (len (strip text0)))]
  /\ (strip text0 = text0 ->
      chunk_text text0 chunk_size overlap min_chunk_size
        = [chunk text0 0 true (Span 0 (len text0))]).
Proof.
  intros B L. pose proof (chunk_text_short _ _ overlap min_chunk_size B L) as E.
  split; [exact E|]. intro S. rewrite S in E. exact E.
Qed.

Lemma chunk_text_short_single_witness :
  chunk_text (str " Great product! ") 1000 100 50
    = [chunk (str "Great product!") 0 true (Span 0 14)].
Proof.
  apply (proj1 (chunk_text_short_single (str " Great product! ") 1000 100 50
                  ltac:(reflexivity) ltac:(vm_compute; discriminate))).
Defined.

(** C5, as stated, fails: an input of 4 characters, shorter than the
    limit, gives a chunk that holds 2 of them and ends at 2; and a blank
    input gives no chunk at all. *)
Lemma chunk_text_short_counterexample :
  len (str " hi ") = 4
  /\ chunk_text (str " hi ") 1000 100 50
       = [chunk (str "hi") 0 true (Span 0 2)]
  /\ chunk_text (str " hi ") 1000 100 50
       <> [chunk (str " hi ") 0 true (Span 0 (len (str " hi ")))]
  /\ chunk_text (str "   ") 1000 100 50 = [].
Proof.
  repeat split; try reflexivity. vm_compute. discriminate.
Qed.

(** C4, as the code has it.  On an input longer than [chunk_size], the
    running chunk left by the loop is appended only if it is not empty and
    its text has at least [min_chunk_size] characters; otherwise it is
    dropped and the chunks closed by the loop are the result.  Either way
    the last chunk of the result, and no other, is marked [is_last]. *)
Theorem chunk_text_final_flush (text0 : pystr)
    (chunk_size overlap min_chunk_size : Z) :
  blank text0 = false ->
  chunk_size < len (strip text0) ->
  let source := strip text0 in
  let st := sent_loop source chunk_size overlap in
  let out := chunk_text text0 chunk_size overlap min_chunk_size in
  out = (if truthy (s_current st)
            && (len (join (str " ") (s_current st)) >=? min_chunk_size)
         then s_chunks st ++ [span_chunk source (s_current st) (s_id st) true]
         else force_last (s_chunks st))
  /\ only_last_marked out.
Proof.
  intros B L source st out. split.
  - unfold out. rewrite (chunk_text_long _ _ _ _ B L).
    fold source. fold st.
    destruct (sent_flush_shape source min_chunk_size st
                (sent_loop_inv _ _ _)) as (_ & [[C E]|[C E]]);
      rewrite C, E; [|reflexivity].
    rewrite force_last_snoc. reflexivity.
  - apply chunk_text_only_last_marked.
Qed.

Lemma chunk_text_final_flush_witness :
  only_last_marked
    (chunk_text (str "First sentence is here. Second one. Tiny.") 30 100 5).
Proof.
  apply (proj2 (chunk_text_final_flush
                  (str "First sentence is here. Second one. Tiny.") 30 100 5
                  ltac:(reflexivity) ltac:(reflexivity))).
Defined.

(** C4, as stated, fails: with the default [overlap] and [min_chunk_size]
    and [chunk_size = 30], the loop leaves a running chunk of 41
    characters ending in "Tiny."; it is below 50, so it is not flushed,
    and the result is the two chunks closed earlier. *)
Lemma chunk_text_final_flush_counterexample :
  let source := str "First sentence is here. Second one. Tiny." in
  s_current (sent_loop source 30 100)
    = [str "First sentence is here. Second one."; str "Tiny."]
  /\ chunk_text source 30 100 50
     = [chunk (str "First sentence is here.") 0 false (Span 0 23);
        chunk (str "First sentence is here. Second one.") 1 true (Span 0 35)].
Proof.
  split; reflexivity.
Qed.

(** ** process_csv_file *)

Lemma tiles_snoc (a b e : Z) (rs : list (Z * Z)) :
  tiles a rs b -> b <= e -> tiles a (rs ++ [(b, e)]) (e + 1).
Proof.
  revert a. induction rs as [|[s e'] rs IH]; simpl; intros a T Hbe.
  - subst. auto.
  - destruct T as (-> & Hle & T). repeat split; auto.
Qed.

Lemma tiles_bounds (a b : Z) (rs : list (Z * Z)) : tiles a rs b -> a <= b.
Proof.
  revert a. induction rs as [|[s e] rs IH]; simpl; intros a T.
  - lia.
  - destruct T as (-> & Hle & T). apply IH in T. lia.
Qed.

(** Ranges that tile [a .. b-1] hold each row of it once, and no other. *)
Lemma tiles_covers (a b r : Z) (rs : list (Z * Z)) :
  tiles a rs b ->
  count_if (covers r) rs = if (a <=? r) && (r <? b) then 1 else 0.
Proof.
  unfold count_if, len.
  revert a. induction rs as [|[s e] rs IH]; intros a T.
  - simpl in T. subst. simpl.
    destruct (Z.leb_spec b r), (Z.ltb_spec r b); simpl; lia.
  - destruct T as (-> & Hle & T).
    pose proof (tiles_bounds _ _ _ T) as Hb.
    specialize (IH _ T). simpl filter. unfold covers at 1. simpl fst; simpl snd.
    destruct (Z.leb_spec a r), (Z.leb_spec r e), (Z.ltb_spec r b),
             (Z.leb_spec (e + 1) r);
      simpl in *; try lia.
Qed.

Lemma csv_init_inv : csv_inv 0 csv_init.
Proof.
  unfold csv_inv, csv_init; simpl. repeat split; try lia.
  - intros k c E. destruct k; discriminate.
  - constructor.
  - exists []. split; reflexivity.
Qed.

Lemma truthy_len {A} (l : list A) : truthy l = true -> 1 <= len l.
Proof. destruct l; simpl; [discriminate|]. unfold len. simpl. lia. Qed.

Lemma csv_step_inv (fieldnames : option (list pystr)) (chunk_size i : Z)
    (st : CsvState) (row : Row) :
  csv_inv i st -> csv_inv (i + 1) (csv_step fieldnames chunk_size st (i, row)).
Proof.
  intros (Hid & Hg & Hf & (ranges & Hr & Ht) & Hi & Hne & H0).
  assert (Hnext : (if i + 1 =? 0 then None else Some (i + 1 - 1)) = Some i).
  { destruct (Z.eqb_spec (i + 1) 0); [lia|]. f_equal. lia. }
  unfold csv_step.
  destruct ((c_length st + len (row_text row) >? chunk_size)
            && truthy (c_current st)) eqn:C.
  - apply andb_true_iff in C as [_ C]. apply truthy_len in C.
    unfold csv_inv; simpl. rewrite len_snoc.
    repeat split; try lia; try congruence.
    + apply gapless_snoc; [exact Hg|exact Hid].
    + apply Forall_app. split; [exact Hf|]. repeat constructor.
    + exists (ranges ++ [(i - len (c_current st), i - 1)]).
      rewrite !map_app, Hr. split; [reflexivity|].
      unfold len at 2. simpl.
      replace (i + 1 - 1) with (i - 1 + 1) by lia.
      apply tiles_snoc; [exact Ht|lia].
  - unfold csv_inv; simpl. rewrite len_snoc.
    repeat split; try lia; try assumption.
    + exists ranges. split; [exact Hr|].
      replace (i + 1 - (len (c_current st) + 1)) with (i - len (c_current st))
        by lia.
      exact Ht.
    + congruence.
    + intros _. destruct (c_current st); discriminate.
Qed.

Lemma csv_fold_inv (fieldnames : option (list pystr)) (chunk_size : Z)
    (rows : list Row) :
  forall i st,
    csv_inv i st ->
    csv_inv (i + len rows)
            (fold_left (csv_step fieldnames chunk_size)
                       (enumerate_from i rows) st).
Proof.
  induction rows as [|row rows IH]; intros i st I; simpl.
  - unfold len; simpl. rewrite Z.add_0_r. exact I.
  - replace (i + len (row :: rows)) with (i + 1 + len rows)
      by (unfold len; simpl List.length; lia).
    apply IH, csv_step_inv, I.
Qed.

Lemma csv_loop_inv (fieldnames : option (list pystr)) (rows : list Row)
    (chunk_size : Z) :
  csv_inv (len rows) (csv_loop fieldnames rows chunk_size).
Proof.
  unfold csv_loop, enumerate.
  apply (csv_fold_inv fieldnames chunk_size rows 0 csv_init csv_init_inv).
Qed.

(** The result of [process_csv_file]: numbered from 0, only a final chunk
    marked, the ranges tiling all the rows. *)
Lemma process_csv_file_shape (fieldnames : option (list pystr))
    (rows : list Row) (chunk_size : Z) :
  let cs := process_csv_file fieldnames rows chunk_size in
  gapless cs
  /\ only_last_marked cs
  /\ (exists ranges,
        map row_range cs = map Some ranges /\ tiles 0 ranges (len rows))
  /\ (rows <> [] -> cs <> []).
Proof.
  unfold process_csv_file, csv_flush.
  destruct (csv_loop_inv fieldnames rows chunk_size)
    as (Hid & Hg & Hf & (ranges & Hr & Ht) & Hi & Hne & H0).
  set (st := csv_loop fieldnames rows chunk_size) in *.
  destruct (truthy (c_current st)) eqn:C; simpl.
  - pose proof (truthy_len _ C) as Hlen.
    assert (Hpos : 0 < len rows).
    { pose proof (tiles_bounds _ _ _ Ht). lia. }
    destruct (Z.eqb_spec (len rows) 0) as [|_]; [lia|]. rewrite Hi.
    repeat split.
    + apply gapless_snoc; [exact Hg|exact Hid].
    + apply only_last_marked_snoc; [exact Hf|reflexivity].
    + exists (ranges ++ [(len rows - len (c_current st), len rows - 1)]).
      rewrite !map_app, Hr. split.
      * unfold row_range, chunk. simpl. repeat f_equal. lia.
      * replace (len rows) with (len rows - 1 + 1) at 3 by lia.
        apply tiles_snoc; [exact Ht|lia].
    + intros _ E. destruct (c_chunks st); discriminate.
  - apply truthy_false_iff in C.
    assert (Hz : len rows = 0).
    { destruct (Z.eq_dec (len rows) 0) as [E|E]; [exact E|].
      exfalso. apply Hne; [lia|exact C]. }
    repeat split.
    + exact Hg.
    + intros k c E.
      pose proof (tiles_bounds _ _ _ Ht) as Hb.
      rewrite C in Ht. unfold len at 2 in Ht. simpl in Ht.
      destruct ranges as [|[s e] ranges].
      * destruct (c_chunks st); [destruct k|]; discriminate.
      * simpl in Ht. destruct Ht as (-> & Hle & T).
        apply tiles_bounds in T. lia.
    + exists ranges. split; [exact Hr|].
      rewrite C in Ht. unfold len at 2 in Ht. simpl in Ht.
      rewrite Z.sub_0_r in Ht. exact Ht.
    + intros Hrows. destruct rows; [congruence|]. unfold len in Hz.
      simpl in Hz. lia.
Qed.

(** C6.  The inclusive [(start_row, end_row)] ranges of the chunks of a CSV
    input, in chunk order, tile the data rows [0 .. n-1]: the first starts
    at row 0, each next one starts right after the previous one ends, none
    is empty, the last ends at the last row; so every data row lies in
    exactly one range.  With at least one data row there is at least one
    chunk. *)
Theorem csv_row_ranges_partition (fieldnames : option (list pystr))
    (rows : list Row) (chunk_size : Z) :
  let cs := process_csv_file fieldnames rows chunk_size in
  exists ranges,
    map row_range cs = map Some ranges
    /\ tiles 0 ranges (len rows)
    /\ (forall r, 0 <= r < len rows -> count_if (covers r) ranges = 1)
    /\ (rows <> [] -> cs <> []).
Proof.
  destruct (process_csv_file_shape fieldnames rows chunk_size)
    as (_ & _ & (ranges & Hr & Ht) & Hne).
  exists ranges. repeat split; try assumption.
  intros r Hrange. rewrite (tiles_covers _ _ r _ Ht).
  destruct (Z.leb_spec 0 r), (Z.ltb_spec r (len rows)); simpl; lia.
Qed.

(** ** process_text_file *)

Lemma enumerate_from_app {A} (a b : list A) (i : Z) :
  enumerate_from i (a ++ b)
  = enumerate_from i a ++ enumerate_from (i + len a) b.
Proof.
  revert i. induction a as [|x a IH]; intro i; simpl.
  - unfold len; simpl. rewrite Z.add_0_r. reflexivity.
  - rewrite IH.
    replace (i + 1 + len a) with (i + len (x :: a)); [reflexivity|].
    unfold len; simpl List.length; lia.
Qed.

(** Every chunk of the lines numbered from [i] carries the number of its
    line, and is marked only if that number is [n - 1]. *)
Lemma line_chunks_ids (n : Z) (lines : list pystr) :
  forall i c,
    In c (flat_map (line_chunk n) (enumerate_from i lines)) ->
    i <= chunk_id c < i + len lines
    /\ is_last c = (chunk_id c =? n - 1).
Proof.
  induction lines as [|l lines IH]; intros i c H; simpl in H; [tauto|].
  replace (len (l :: lines)) with (1 + len lines)
    by (unfold len; simpl List.length; lia).
  apply in_app_or in H as [H|H].
  - destruct (truthy (strip l)); simpl in H; [|tauto].
    destruct H as [<-|[]]. cbn [chunk_id is_last chunk].
    split; [unfold len; lia|reflexivity].
  - apply IH in H. split; [lia|tauto].
Qed.

Lemma line_chunks_increasing (n : Z) (lines : list pystr) :
  forall i,
    increasing_from i (flat_map (line_chunk n) (enumerate_from i lines)).
Proof.
  assert (Hw : forall cs lo lo', lo' <= lo ->
                 increasing_from lo cs -> increasing_from lo' cs).
  { intros [|c cs] lo lo' Hle; simpl; [trivial|]. intros [H1 H2].
    split; [lia|exact H2]. }
  induction lines as [|l lines IH]; intro i; simpl; [exact I|].
  destruct (truthy (strip l)); simpl.
  - split; [lia|apply IH].
  - apply (Hw _ (i + 1)); [lia|apply IH].
Qed.

(** Without blank lines the identifiers are the positions. *)
Lemma line_chunks_gapless (n : Z) (lines : list pystr) :
  Forall (fun l => blank l = false) lines ->
  forall i k c,
    nth_error (flat_map (line_chunk n) (enumerate_from i lines)) k = Some c ->
    chunk_id c = i + Z.of_nat k.
Proof.
  induction 1 as [|l lines Hl Hf IH]; intros i k c E; simpl in E.
  - destruct k; discriminate.
  - rewrite truthy_strip, Hl in E. simpl in E.
    destruct k as [|k]; simpl in E.
    + injection E as <-. simpl. lia.
    + apply IH in E. lia.
Qed.

(** X4.  A file whose last line is not blank: the chunk of that line, and
    no other, is marked. *)
Theorem process_text_file_last_line (init : list pystr) (l : pystr) :
  blank l = false ->
  only_last_marked (process_text_file (init ++ [l])).
Proof.
  intro B. unfold process_text_file, enumerate.
  rewrite enumerate_from_app, flat_map_app. simpl.
  rewrite truthy_strip, B. simpl. rewrite len_snoc.
  apply only_last_marked_snoc.
  - apply Forall_forall. intros c Hc.
    apply line_chunks_ids in Hc as [Hr Hm]. rewrite Hm.
    apply Z.eqb_neq. lia.
  - simpl. apply Z.eqb_eq. lia.
Qed.

(** X5.  A file whose last line is blank: no chunk is marked. *)
Theorem process_text_file_blank_last_line (init : list pystr) (l : pystr) :
  blank l = true ->
  marked (process_text_file (init ++ [l])) = 0%nat.
Proof.
  intro B. unfold marked, process_text_file, enumerate.
  rewrite enumerate_from_app, flat_map_app. simpl.
  rewrite truthy_strip, B. simpl. rewrite app_nil_r, len_snoc.
  assert (E : forall cs : list Chunk,
             Forall (fun c => is_last c = false) cs -> filter is_last cs = []).
  { induction 1 as [|c cs Hc _ IH]; simpl; [reflexivity|].
    rewrite Hc. exact IH. }
  rewrite E; [reflexivity|].
  apply Forall_forall. intros c Hc.
  apply line_chunks_ids in Hc as [Hr Hm]. rewrite Hm.
  apply Z.eqb_neq. lia.
Qed.

(** C2, at a file of three lines whose second line is blank
    (["good\n\nbad\n"]): the two chunks carry the identifiers 0 and 2, so
    the blank line has used up the identifier 1. *)
Theorem process_text_file_blank_line_takes_id :
  map chunk_id
      (process_text_file [str "good" ++ newline; newline; str "bad" ++ newline])
  = [0; 2].
Proof. reflexivity. Qed.

(** C3, at a file that ends with a blank line (["good\n\n"]): the one
    chunk produced is not marked, so no chunk of the batch has
    [is_last]. *)
Theorem process_text_file_trailing_blank_unmarked :
  map is_last (process_text_file [str "good" ++ newline; newline]) = [false].
Proof. reflexivity. Qed.

(** ** The services never raise *)

Lemma eqb_eq (a b : pystr) : eqb a b = true <-> a = b.
Proof.
  revert b. induction a as [|x a IH]; destruct b as [|y b]; simpl;
    try (split; [discriminate|congruence]); [tauto|].
  rewrite andb_true_iff, N.eqb_eq, IH. split.
  - intros [-> ->]. reflexivity.
  - intro E. injection E as -> ->. auto.
Qed.

Lemma eqb_neq (a b : pystr) : eqb a b = false <-> a <> b.
Proof.
  rewrite <- eqb_eq. destruct (eqb a b); split; congruence.
Qed.

Lemma detect_language_returns (L : Libs) (text default : pystr) :
  exists l, Services.detect_language L text default = Ok l.
Proof.
  unfold Services.detect_language.
  destruct (negb (truthy text) || negb (truthy (strip text))); [eauto|].
  destruct (clean_text L text) as [cleaned|e]; simpl; [|eauto].
  destruct (negb (truthy (strip cleaned))); simpl; [eauto|].
  destruct (langdetect_detect L cleaned); simpl; eauto.
Qed.

(** Detection that gives nothing falls back to the default. *)
Lemma detect_language_default (L : Libs) (text default : pystr) :
  (forall cleaned, clean_text L text = Ok cleaned ->
                   exists e, langdetect_detect L cleaned = Raise e) ->
  Services.detect_language L text default = Ok default.
Proof.
  intro H. unfold Services.detect_language.
  destruct (negb (truthy text) || negb (truthy (strip text))); [reflexivity|].
  destruct (clean_text L text) as [cleaned|e] eqn:C; simpl; [|reflexivity].
  destruct (negb (truthy (strip cleaned))); simpl; [reflexivity|].
  destruct (H _ eq_refl) as [e ->]. reflexivity.
Qed.

Lemma translate_text_returns (L : Libs) (text target : pystr)
    (source : option pystr) :
  exists r, Services.translate_text L text target source = Ok r.
Proof.
  unfold Services.translate_text.
  destruct (negb (truthy text) || negb (truthy (strip text))); [eauto|].
  match goal with
  | |- context [google_translate L ?s ?t ?x] =>
      destruct (google_translate L s t x); simpl; eauto
  end.
Qed.

Lemma analyze_sentiment_returns (L : Libs) (text lang : pystr) :
  exists s,
    Services.analyze_sentiment L text lang = Ok s
    /\ recognised (sr_sentiment s) = true
    /\ (forall e, textblob_sentiment L text = Raise e -> neutral_default s e).
Proof.
  unfold Services.analyze_sentiment.
  destruct (textblob_sentiment L text) as [[pol subj]|e]; simpl.
  - eexists. split; [reflexivity|]. split; [|discriminate].
    simpl. destruct (Qgtb pol _); [reflexivity|].
    destruct (Qgtb _ pol); reflexivity.
  - eexists. split; [reflexivity|]. split; [reflexivity|].
    intros e' E. injection E as <-. repeat split.
Qed.

(** ** The loop of upload_file *)

Section AnyCollaborators.

Variable detect_language : pystr -> Exc pystr.
Variable translate_text :
  pystr -> pystr -> option pystr -> Exc TranslationResult.
Variable analyze_sentiment : pystr -> pystr -> Exc SentimentResult.

(** STEP 4 never raises, whatever the translator does. *)
Lemma translate_step_returns (chunk_text lang : pystr) :
  exists t w, translate_step translate_text chunk_text lang = Ok (t, w)
              /\ (w = false -> t = chunk_text)
              /\ (translation_failed
                    (translate_text chunk_text (str "en") (Some lang)) ->
                  w = false).
Proof.
  unfold translate_step.
  destruct (negb (eqb lang (str "en"))).
  - destruct (translate_text chunk_text (str "en") (Some lang)) as [r|e];
      simpl.
    + destruct (tr_error r) eqn:E.
      * exists chunk_text, false. auto.
      * exists (tr_translated_text r), true. repeat split; congruence.
    + exists chunk_text, false. auto.
  - exists chunk_text, false. auto.
Qed.

Lemma translate_step_failed (chunk_text lang : pystr) :
  lang <> str "en" ->
  translation_failed (translate_text chunk_text (str "en") (Some lang)) ->
  translate_step translate_text chunk_text lang = Ok (chunk_text, false).
Proof.
  intros Hl Hf. unfold translate_step.
  apply eqb_neq in Hl. rewrite Hl. simpl.
  destruct (translate_text chunk_text (str "en") (Some lang)) as [r|e];
    simpl in *; [|reflexivity].
  destruct (tr_error r); [reflexivity|congruence].
Qed.

(** C7.  A chunk that is not blank, whose resolved language is not 'en'
    and whose translation fails (the translator raises, or returns a
    result with the key 'error') goes on to sentiment scoring with its
    original text: its result is the one built from the score of the
    original text, with [processed_text] equal to [original_text] and
    [was_translated = false]. *)
Theorem translation_failure_keeps_original (c : Chunk) (lang : pystr) :
  blank (text c) = false ->
  resolve_language detect_language c = Ok lang ->
  lang <> str "en" ->
  translation_failed (translate_text (text c) (str "en") (Some lang)) ->
  process_chunk detect_language translate_text analyze_sentiment c =
    (s <- analyze_sentiment (text c) (str "en") ;;
     Ok (Some (mkResult (chunk_id c) (text c) (text c) lang false
                        (sr_sentiment s) (sr_score s) (sr_polarity s)
                        (sr_subjectivity s) None (rating c) (date c) s))).
Proof.
  intros B R Hl Hf. unfold process_chunk.
  rewrite truthy_strip, B. simpl.
  rewrite R. simpl.
  rewrite (translate_step_failed _ _ Hl Hf). reflexivity.
Qed.

(** The reply's own counters are those of the summary. *)
Lemma response_data_agrees (fname : pystr) (results : list ChunkResult) :
  let d := response_data fname results in
  total_chunks d = total_reviews_analyzed (summary d)
  /\ top_translations_performed d = translations_performed (summary d)
  /\ (forall l, In l (top_languages_detected d)
                <-> In l (languages_detected (summary d))).
Proof.
  unfold response_data, generate_summary. simpl.
  destruct results as [|r rs]; [simpl; tauto|].
  replace (len (r :: rs) =? 0) with false; [simpl; tauto|].
  symmetry. apply Z.eqb_neq. unfold len. simpl List.length. lia.
Qed.

(** C9.  In the reply of a batch that completed, [total_chunks] is the
    summary's [total_reviews_analyzed], [translations_performed] is the
    summary's, and [languages_detected] holds the same languages as the
    summary's list. *)
Theorem upload_totals_agree (fname : pystr) (chunks : list Chunk)
    (d : ResponseData) :
  upload_chunks detect_language translate_text analyze_sentiment fname chunks
    = Http200 d ->
  total_chunks d = total_reviews_analyzed (summary d)
  /\ top_translations_performed d = translations_performed (summary d)
  /\ (forall l, In l (top_languages_detected d)
                <-> In l (languages_detected (summary d))).
Proof.
  unfold upload_chunks.
  destruct (process_chunks _ _ _ chunks) as [results|e]; [|discriminate].
  intro E. injection E as <-. apply response_data_agrees.
Qed.

End AnyCollaborators.

(** ** The workflow with the services of the repository *)

Section RepositoryServices.

Variable L : Libs.

Lemma resolve_language_returns (c : Chunk) :
  exists lang,
    resolve_language (detect L) c = Ok lang
    /\ (language c = None ->
        (forall cleaned, clean_text L (text c) = Ok cleaned ->
                         exists e, langdetect_detect L cleaned = Raise e) ->
        lang = str "en").
Proof.
  unfold resolve_language.
  destruct (language c) as [hint|]; simpl.
  - destruct (negb (truthy (lower hint)) || eqb (lower hint) (str "auto")).
    + destruct (detect_language_returns L (text c) (str "en")) as [l E].
      exists l. split; [exact E|discriminate].
    + eexists. split; [reflexivity|discriminate].
  - destruct (detect_language_returns L (text c) (str "en")) as [l E].
    exists l. split; [exact E|]. intros _ H.
    unfold detect in E. rewrite (detect_language_default _ _ _ H) in E.
    congruence.
Qed.

(** One chunk: skipped when blank, otherwise one result, never an
    exception. *)
Lemma process_chunk_returns (c : Chunk) :
  let run := process_chunk (detect L) (translate L) (score L) in
  (blank (text c) = true /\ run c = Ok None)
  \/ (blank (text c) = false
      /\ exists r, run c = Ok (Some r) /\ chunk_outcome L c r).
Proof.
  cbv zeta. unfold process_chunk. rewrite truthy_strip, negb_involutive.
  destruct (blank (text c)) eqn:B; [left; auto|right].
  split; [reflexivity|].
  destruct (resolve_language_returns c) as (lang & -> & Hlang). simpl.
  destruct (translate_step_returns (translate L) (text c) lang)
    as (t & w & -> & Hkeep & Hfail). simpl.
  destruct (analyze_sentiment_returns L t (str "en")) as (s & Hs & Hrec & Hdef).
  unfold score. rewrite Hs. simpl.
  eexists. split; [reflexivity|].
  unfold chunk_outcome; simpl.
  split; [reflexivity|]. split; [reflexivity|].
  split; [exact Hkeep|]. split; [exact Hfail|].
  split; [|split; [exact Hlang|exact Hrec]].
  intros e E. split; [|exact (Hdef e E)].
  destruct (Hdef e E) as (-> & _). reflexivity.
Qed.

Lemma process_chunks_returns (chunks : list Chunk) :
  exists results,
    process_chunks (detect L) (translate L) (score L) chunks = Ok results
    /\ Forall2 (chunk_outcome L)
               (filter (fun c => negb (blank (text c))) chunks) results.
Proof.
  induction chunks as [|c chunks (rs & E & F)]; simpl.
  - exists []. split; [reflexivity|constructor].
  - destruct (process_chunk_returns c) as [[B ->]|(B & r & -> & O)];
      simpl; rewrite E, B; simpl.
    + exists rs. auto.
    + exists (r :: rs). split; [reflexivity|]. constructor; assumption.
Qed.

End RepositoryServices.

(** C1.  Whatever the language detector, the translator and the sentiment
    library do on any chunk (return or raise), the batch is answered with
    status 200, and the results of the reply are one for each chunk that
    is not blank, in order; blank chunks are skipped, and [total_chunks]
    counts the chunks that are not blank.  The result of a chunk records
    the failure: no translation and the original text when translation
    failed, the neutral default when the sentiment library raised,
    language 'en' when detection gave nothing.  The exceptions are caught
    inside [detect_language] and [analyze_sentiment] and around the call
    of [translate_text]. *)
Theorem upload_file_isolates_chunk_failures (L : Libs) (fname : pystr)
    (chunks : list Chunk) :
  exists d,
    upload_file L fname chunks = Http200 d
    /\ d = response_data fname (analysis_results d)
    /\ Forall2 (chunk_outcome L)
               (filter (fun c => negb (blank (text c))) chunks)
               (analysis_results d)
    /\ len (analysis_results d)
       = count_if (fun c => negb (blank (text c))) chunks
    /\ total_chunks d = count_if (fun c => negb (blank (text c))) chunks.
Proof.
  destruct (process_chunks_returns L chunks) as (results & E & F).
  exists (response_data fname results).
  assert (Hn : len results
               = count_if (fun c => negb (blank (text c))) chunks).
  { unfold count_if, len. f_equal. symmetry. apply (Forall2_length F). }
  repeat split.
  - unfold upload_file, upload_chunks. rewrite E. reflexivity.
  - exact F.
  - exact Hn.
  - exact Hn.
Qed.

(** ** Doubles *)

(** *** Powers of two *)

Lemma pow2_pos (e : Z) : (0 < pow2 e)%Q.
Proof. apply Qpower_0_lt. reflexivity. Qed.

Lemma pow2_add (a b : Z) : (pow2 (a + b) == pow2 a * pow2 b)%Q.
Proof. apply Qpower_plus. discriminate. Qed.

Lemma pow2_le (a b : Z) : a <= b -> (pow2 a <= pow2 b)%Q.
Proof.
  intro H. apply Qpower_le_compat_l; [exact H|]. unfold Qle; simpl; lia.
Qed.

Lemma pow2_lt (a b : Z) : a < b -> (pow2 a < pow2 b)%Q.
Proof. intro H. apply Qpower_lt_compat_l; [exact H|]. reflexivity. Qed.

Lemma pow2_lt_inv (a b : Z) : (pow2 a < pow2 b)%Q -> a < b.
Proof. intro H. apply (Qpower_lt_compat_l_inv 2); [exact H|reflexivity]. Qed.

Lemma pow2_int (k : Z) : 0 <= k -> (pow2 k == inject_Z (2 ^ k))%Q.
Proof. intro H. unfold pow2. rewrite Zpower_Qpower by exact H. reflexivity. Qed.


(** *** Rounding to an integer *)

Lemma round_half_even_close (q : Q) :
  (Qabs (inject_Z (round_half_even q) - q) <= 1 # 2)%Q.
Proof.
  unfold round_half_even.
  pose proof (Qfloor_le q) as Hlo.
  pose proof (Qlt_floor q) as Hhi.
  rewrite inject_Z_plus in Hhi. change (inject_Z 1) with 1%Q in Hhi.
  apply Qabs_Qle_condition.
  destruct (Qcompare_spec (q - inject_Z (Qfloor q)) (1 # 2)) as [E|E|E];
    [destruct (Z.even (Qfloor q))| |];
    rewrite ?inject_Z_plus; change (inject_Z 1) with 1%Q; split; lra.
Qed.

Lemma round_half_even_mono (x y : Q) :
  (x <= y)%Q -> round_half_even x <= round_half_even y.
Proof.
  intro H. unfold round_half_even.
  pose proof (Qfloor_resp_le _ _ H) as Hf.
  pose proof (Qfloor_le x) as Hx. pose proof (Qlt_floor x) as Hx'.
  pose proof (Qfloor_le y) as Hy. pose proof (Qlt_floor y) as Hy'.
  rewrite inject_Z_plus in Hx', Hy'. change (inject_Z 1) with 1%Q in Hx', Hy'.
  destruct (Z.eq_dec (Qfloor x) (Qfloor y)) as [E|E].
  - rewrite <- E in *.
    destruct (Qcompare_spec (x - inject_Z (Qfloor x)) (1 # 2)) as [A|A|A];
    destruct (Qcompare_spec (y - inject_Z (Qfloor x)) (1 # 2)) as [B|B|B];
    try destruct (Z.even (Qfloor x)); try lia; exfalso; lra.
  - assert (Qfloor x + 1 <= Qfloor y) by lia.
    destruct (Qcompare_spec (x - inject_Z (Qfloor x)) (1 # 2)) as [A|A|A];
    destruct (Qcompare_spec (y - inject_Z (Qfloor y)) (1 # 2)) as [B|B|B];
    try destruct (Z.even (Qfloor x)); try destruct (Z.even (Qfloor y)); lia.
Qed.

Lemma round_half_even_int (k : Z) : round_half_even (inject_Z k) = k.
Proof.
  unfold round_half_even. rewrite Qfloor_Z.
  destruct (Qcompare_spec (inject_Z k - inject_Z k) (1 # 2)) as [A|A|A];
    try reflexivity; exfalso; lra.
Qed.

Lemma round_half_even_comp (x y : Q) :
  (x == y)%Q -> round_half_even x = round_half_even y.
Proof.
  intro E.
  apply Z.le_antisymm; apply round_half_even_mono; rewrite E;
    apply Qle_refl.
Qed.

(** *** The binary logarithm and the exponent *)

Lemma Q_as_fraction (x : Q) :
  (x == inject_Z (Qnum x) / inject_Z (Zpos (Qden x)))%Q.
Proof.
  destruct x as [n d]. simpl.
  unfold Qeq, Qdiv, Qmult, Qinv, inject_Z. simpl. lia.
Qed.

Lemma ilog2_spec (x : Q) :
  (0 < x)%Q -> (pow2 (ilog2 x) <= x)%Q /\ (x < pow2 (ilog2 x + 1))%Q.
Proof.
  intro Hx.
  assert (Hn : 0 < Qnum x).
  { unfold Qlt in Hx. simpl in Hx. lia. }
  set (n := Qnum x) in *. set (d := Zpos (Qden x)).
  assert (Hd : 0 < d) by reflexivity.
  destruct (Z.log2_spec n Hn) as [Hn1 Hn2].
  destruct (Z.log2_spec d Hd) as [Hd1 Hd2].
  pose proof (Z.log2_nonneg n) as Ha. pose proof (Z.log2_nonneg d) as Hb.
  set (a := Z.log2 n) in *. set (b := Z.log2 d) in *.
  assert (Ex : (x == inject_Z n / inject_Z d)%Q) by apply Q_as_fraction.
  assert (Hdq : (0 < inject_Z d)%Q).
  { change 0%Q with (inject_Z 0). rewrite <- Zlt_Qlt. exact Hd. }
  (* bounds on numerator and denominator *)
  assert (N1 : (pow2 a <= inject_Z n)%Q).
  { rewrite pow2_int by exact Ha. rewrite <- Zle_Qle. exact Hn1. }
  assert (N2 : (inject_Z n < pow2 (a + 1))%Q).
  { rewrite pow2_int by lia. rewrite <- Zlt_Qlt. exact Hn2. }
  assert (D1 : (pow2 b <= inject_Z d)%Q).
  { rewrite pow2_int by exact Hb. rewrite <- Zle_Qle. exact Hd1. }
  assert (D2 : (inject_Z d < pow2 (b + 1))%Q).
  { rewrite pow2_int by lia. rewrite <- Zlt_Qlt. exact Hd2. }
  (* the quotient lies strictly between 2^(a-b-1) and 2^(a-b+1) *)
  assert (Lo : (pow2 (a - b - 1) < x)%Q).
  { rewrite Ex. apply Qlt_shift_div_l; [exact Hdq|].
    apply Qlt_le_trans with (pow2 (a - b - 1) * pow2 (b + 1))%Q.
    - apply Qmult_lt_l; [apply pow2_pos|exact D2].
    - rewrite <- pow2_add. replace (a - b - 1 + (b + 1)) with a by lia.
      exact N1. }
  assert (Hi : (x < pow2 (a - b + 1))%Q).
  { rewrite Ex. apply Qlt_shift_div_r; [exact Hdq|].
    apply Qlt_le_trans with (pow2 (a + 1)); [exact N2|].
    replace (a + 1) with (a - b + 1 + b) by lia. rewrite pow2_add.
    apply Qmult_le_l; [apply pow2_pos|exact D1]. }
  unfold ilog2. fold n d a b.
  destruct (Qle_bool (pow2 (a - b)) x) eqn:T.
  - apply Qle_bool_iff in T. split; [exact T|exact Hi].
  - assert (T' : (x < pow2 (a - b))%Q).
    { apply Qnot_le_lt. intro C. apply Qle_bool_iff in C. congruence. }
    split; [apply Qlt_le_weak; exact Lo|].
    replace (a - b - 1 + 1) with (a - b) by lia. exact T'.
Qed.

Lemma ilog2_mono (x y : Q) : (0 < x)%Q -> (x <= y)%Q -> ilog2 x <= ilog2 y.
Proof.
  intros Hx Hxy.
  destruct (ilog2_spec x Hx) as [A _].
  destruct (ilog2_spec y (Qlt_le_trans _ _ _ Hx Hxy)) as [_ B].
  assert (H : ilog2 x < ilog2 y + 1); [|lia].
  apply pow2_lt_inv. apply Qle_lt_trans with x; [exact A|].
  apply Qle_lt_trans with y; assumption.
Qed.

Lemma ilog2_lt (x : Q) (k : Z) : (0 < x)%Q -> (x < pow2 k)%Q -> ilog2 x < k.
Proof.
  intros Hx H. destruct (ilog2_spec x Hx) as [A _].
  apply pow2_lt_inv. apply Qle_lt_trans with x; assumption.
Qed.

Lemma ilog2_ge (x : Q) (k : Z) : (pow2 k <= x)%Q -> k <= ilog2 x.
Proof.
  intro H.
  assert (Hx : (0 < x)%Q)
    by (apply Qlt_le_trans with (pow2 k); [apply pow2_pos|exact H]).
  destruct (ilog2_spec x Hx) as [_ B].
  assert (k < ilog2 x + 1); [|lia].
  apply pow2_lt_inv. apply Qle_lt_trans with x; assumption.
Qed.

Lemma exponent_mono (x y : Q) :
  (0 < x)%Q -> (x <= y)%Q -> exponent x <= exponent y.
Proof.
  intros Hx Hxy. unfold exponent. pose proof (ilog2_mono x y Hx Hxy). lia.
Qed.

(** *** Rounding to a double *)

Lemma pow2_sub_int (j e : Z) :
  e <= j -> (pow2 j / pow2 e == inject_Z (2 ^ (j - e)))%Q.
Proof.
  intro H. rewrite <- pow2_int by lia.
  replace j with ((j - e) + e) at 1 by lia. rewrite pow2_add.
  field. pose proof (pow2_pos e). lra.
Qed.

Lemma on_grid (N j e : Z) :
  e <= j ->
  (inject_Z N * pow2 j / pow2 e == inject_Z (N * 2 ^ (j - e)))%Q.
Proof.
  intro H. rewrite inject_Z_mult, <- (pow2_sub_int j e H).
  field. pose proof (pow2_pos e). lra.
Qed.

Lemma Qdiv_le_pos (a b c : Q) : (0 < c)%Q -> (a <= b)%Q -> (a / c <= b / c)%Q.
Proof.
  intros Hc H. apply Qle_shift_div_l; [exact Hc|].
  setoid_replace (a / c * c)%Q with a by (field; lra). exact H.
Qed.

Lemma double_pos_le_grid (x : Q) (N j : Z) :
  (x <= inject_Z N * pow2 j)%Q -> exponent x <= j ->
  (double_pos x <= inject_Z N * pow2 j)%Q.
Proof.
  intros H He. unfold double_pos.
  set (e := exponent x) in *. pose proof (pow2_pos e) as Hp.
  assert (R : round_half_even (x / pow2 e) <= N * 2 ^ (j - e)).
  { rewrite <- (round_half_even_int (N * 2 ^ (j - e))).
    apply round_half_even_mono. rewrite <- (on_grid N j e He).
    apply Qdiv_le_pos; assumption. }
  rewrite Zle_Qle in R. rewrite <- (on_grid N j e He) in R.
  apply Qle_trans with (inject_Z N * pow2 j / pow2 e * pow2 e)%Q.
  - apply Qmult_le_compat_r; [exact R|lra].
  - setoid_replace (inject_Z N * pow2 j / pow2 e * pow2 e)%Q
      with (inject_Z N * pow2 j)%Q by (field; lra).
    apply Qle_refl.
Qed.

Lemma double_pos_ge_grid (x : Q) (N j : Z) :
  (inject_Z N * pow2 j <= x)%Q -> exponent x <= j ->
  (inject_Z N * pow2 j <= double_pos x)%Q.
Proof.
  intros H He. unfold double_pos.
  set (e := exponent x) in *. pose proof (pow2_pos e) as Hp.
  assert (R : N * 2 ^ (j - e) <= round_half_even (x / pow2 e)).
  { rewrite <- (round_half_even_int (N * 2 ^ (j - e))).
    apply round_half_even_mono. rewrite <- (on_grid N j e He).
    apply Qdiv_le_pos; assumption. }
  rewrite Zle_Qle in R. rewrite <- (on_grid N j e He) in R.
  apply Qle_trans with (inject_Z N * pow2 j / pow2 e * pow2 e)%Q.
  - setoid_replace (inject_Z N * pow2 j / pow2 e * pow2 e)%Q
      with (inject_Z N * pow2 j)%Q by (field; lra).
    apply Qle_refl.
  - apply Qmult_le_compat_r; [exact R|lra].
Qed.

Lemma double_pos_mono (x y : Q) :
  (0 < x)%Q -> (x <= y)%Q -> (double_pos x <= double_pos y)%Q.
Proof.
  intros Hx Hxy.
  assert (Hy : (0 < y)%Q) by (apply Qlt_le_trans with x; assumption).
  pose proof (exponent_mono x y Hx Hxy) as He.
  destruct (Z.eq_dec (exponent x) (exponent y)) as [E|E].
  - unfold double_pos. rewrite E. pose proof (pow2_pos (exponent y)) as Hp.
    apply Qmult_le_compat_r; [|lra].
    rewrite <- Zle_Qle. apply round_half_even_mono.
    apply Qdiv_le_pos; assumption.
  - assert (Hlt : exponent x < exponent y) by lia.
    set (L := ilog2 y).
    assert (Ey : exponent y = L - 52) by (unfold exponent in *; fold L; lia).
    assert (Lx : ilog2 x < L) by (unfold exponent in *; fold L in Hlt; lia).
    destruct (ilog2_spec x Hx) as [_ X]. destruct (ilog2_spec y Hy) as [Y _].
    fold L in Y.
    assert (X' : (x <= inject_Z 1 * pow2 L)%Q).
    { change (inject_Z 1) with 1%Q. rewrite Qmult_1_l.
      apply Qlt_le_weak. apply Qlt_le_trans with (pow2 (ilog2 x + 1));
        [exact X|apply pow2_le; lia]. }
    assert (Y' : (inject_Z 1 * pow2 L <= y)%Q).
    { change (inject_Z 1) with 1%Q. rewrite Qmult_1_l. exact Y. }
    apply Qle_trans with (inject_Z 1 * pow2 L)%Q.
    + apply double_pos_le_grid; [exact X'|lia].
    + apply double_pos_ge_grid; [exact Y'|lia].
Qed.

Lemma double_pos_nonneg (x : Q) : (0 < x)%Q -> (0 <= double_pos x)%Q.
Proof.
  intro Hx. unfold double_pos. pose proof (pow2_pos (exponent x)) as Hp.
  apply Qmult_le_0_compat; [|lra].
  change 0%Q with (inject_Z 0). rewrite <- Zle_Qle.
  rewrite <- (round_half_even_int 0). apply round_half_even_mono.
  change (inject_Z 0) with 0%Q. apply Qle_shift_div_l; [exact Hp|]. lra.
Qed.

(** Rounding to the nearest double is monotone. *)
Lemma double_mono (x y : Q) : (x <= y)%Q -> (double x <= double y)%Q.
Proof.
  intro H. unfold double.
  destruct (Qcompare_spec x 0) as [X|X|X];
    destruct (Qcompare_spec y 0) as [Y|Y|Y]; try (exfalso; lra).
  - apply Qle_refl.
  - apply double_pos_nonneg. exact Y.
  - pose proof (double_pos_nonneg (- x) ltac:(lra)). lra.
  - assert (G : (double_pos (- y) <= double_pos (- x))%Q)
      by (apply double_pos_mono; lra).
    lra.
  - pose proof (double_pos_nonneg (- x) ltac:(lra)).
    pose proof (double_pos_nonneg y ltac:(lra)). lra.
  - apply double_pos_mono; assumption.
Qed.

Lemma double_comp (x y : Q) : (x == y)%Q -> (double x == double y)%Q.
Proof.
  intro E. apply Qle_antisym; apply double_mono; rewrite E; apply Qle_refl.
Qed.

#[global] Instance double_proper : Proper (Qeq ==> Qeq) double.
Proof. intros x y E. apply double_comp, E. Qed.

Lemma double_opp (x : Q) : (double (- x) == - double x)%Q.
Proof.
  unfold double.
  destruct (Qcompare_spec x 0) as [X|X|X];
    destruct (Qcompare_spec (- x) 0) as [Y|Y|Y]; try (exfalso; lra).
  - reflexivity.
  - lra.
  - assert (E : (double_pos (- - x) == double_pos x)%Q).
    { apply Qle_antisym; apply double_pos_mono; lra. }
    rewrite E. reflexivity.
Qed.

(** The rounding error is at most half a unit in the last place. *)
Lemma double_pos_close (x : Q) :
  (Qabs (double_pos x - x) <= pow2 (exponent x - 1))%Q.
Proof.
  unfold double_pos. set (e := exponent x). pose proof (pow2_pos e) as Hp.
  pose proof (round_half_even_close (x / pow2 e)) as H.
  set (m := inject_Z (round_half_even (x / pow2 e))) in *.
  assert (E1 : (m * pow2 e - x == (m - x / pow2 e) * pow2 e)%Q) by (field; lra).
  assert (E2 : (pow2 (e - 1) == (1 # 2) * pow2 e)%Q).
  { unfold Z.sub. rewrite Z.add_comm, pow2_add. reflexivity. }
  rewrite E1, E2, Qabs_Qmult, (Qabs_pos (pow2 e)) by lra.
  apply Qmult_le_compat_r; [exact H|lra].
Qed.

Lemma exponent_below (x : Q) (k : Z) :
  (0 < x)%Q -> (x < pow2 k)%Q -> -1021 <= k -> exponent x <= k - 53.
Proof.
  intros Hx H Hk. pose proof (ilog2_lt x k Hx H). unfold exponent. lia.
Qed.

Lemma double_close (x : Q) (k : Z) :
  (Qabs x < pow2 k)%Q -> -1021 <= k ->
  (Qabs (double x - x) <= pow2 (k - 54))%Q.
Proof.
  intros H Hk. unfold double.
  destruct (Qcompare_spec x 0) as [X|X|X].
  - setoid_replace (0 - x)%Q with 0%Q by lra. simpl.
    apply Qlt_le_weak, pow2_pos.
  - rewrite (Qabs_neg x) in H by lra.
    setoid_replace (- double_pos (- x) - x)%Q
      with (- (double_pos (- x) - - x))%Q by ring.
    rewrite Qabs_opp.
    apply Qle_trans with (pow2 (exponent (- x) - 1));
      [apply double_pos_close|].
    apply pow2_le. pose proof (exponent_below (- x) k ltac:(lra) H Hk). lia.
  - rewrite (Qabs_pos x) in H by lra.
    apply Qle_trans with (pow2 (exponent x - 1));
      [apply double_pos_close|].
    apply pow2_le. pose proof (exponent_below x k X H Hk). lia.
Qed.

(** Integers up to 2^53 are doubles. *)
Lemma double_int (m : Z) :
  0 <= m <= 2 ^ 53 -> (double (inject_Z m) == inject_Z m)%Q.
Proof.
  intros [H0 H1].
  destruct (Z.eq_dec m 0) as [->|Hz]; [reflexivity|].
  destruct (Z.eq_dec m (2 ^ 53)) as [->|Hm]; [vm_compute; reflexivity|].
  assert (Hx : (0 < inject_Z m)%Q).
  { change 0%Q with (inject_Z 0). rewrite <- Zlt_Qlt. lia. }
  unfold double. destruct (Qcompare_spec (inject_Z m) 0) as [X|X|X];
    try (exfalso; lra).
  assert (He : exponent (inject_Z m) <= 0).
  { assert (B : (inject_Z m < pow2 53)%Q).
    { rewrite pow2_int by lia. rewrite <- Zlt_Qlt. lia. }
    pose proof (exponent_below _ 53 Hx B ltac:(lia)). lia. }
  assert (G : (inject_Z m == inject_Z m * pow2 0)%Q).
  { change (pow2 0) with 1%Q. ring. }
  apply Qle_antisym.
  - rewrite G at 2.
    apply double_pos_le_grid; [rewrite <- G; apply Qle_refl|exact He].
  - rewrite G at 1.
    apply double_pos_ge_grid; [rewrite <- G; apply Qle_refl|exact He].
Qed.


(** ** Rounding and the percentages of the summary *)

(** The doubles between 0 and 100 are within [2^-47] of what they round. *)
Lemma double_close_100 (x : Q) :
  (0 <= x)%Q -> (x <= 100)%Q ->
  (Qabs (double x - x) <= 1 # 140737488355328)%Q.
Proof.
  intros H0 H1. change (1 # 140737488355328)%Q with (pow2 (7 - 54)).
  apply double_close; [|lia].
  rewrite Qabs_pos by exact H0. change (pow2 7) with 128%Q. lra.
Qed.

Lemma double_0 : double 0 = 0%Q.
Proof. reflexivity. Qed.

Lemma double_between (lo hi x : Q) :
  (double lo == lo)%Q -> (double hi == hi)%Q ->
  (lo <= x)%Q -> (x <= hi)%Q -> (lo <= double x)%Q /\ (double x <= hi)%Q.
Proof.
  intros El Eh Hl Hh. rewrite <- El, <- Eh.
  split; apply double_mono; assumption.
Qed.

Lemma double_100 : (double 100 == 100)%Q.
Proof. vm_compute. reflexivity. Qed.

Lemma double_1 : (double 1 == 1)%Q.
Proof. vm_compute. reflexivity. Qed.

Lemma share_in_range (c t : Z) :
  0 <= c <= t -> 0 < t ->
  (0 <= inject_Z c / inject_Z t)%Q /\ (inject_Z c / inject_Z t <= 1)%Q.
Proof.
  intros [H0 H1] Ht.
  assert (Tq : (0 < inject_Z t)%Q)
    by (change 0%Q with (inject_Z 0); rewrite <- Zlt_Qlt; exact Ht).
  assert (C0 : (0 <= inject_Z c)%Q)
    by (change 0%Q with (inject_Z 0); rewrite <- Zle_Qle; exact H0).
  assert (C1 : (inject_Z c <= inject_Z t)%Q) by (rewrite <- Zle_Qle; exact H1).
  split.
  - apply Qle_shift_div_l; [exact Tq|]. lra.
  - apply Qle_shift_div_r; [exact Tq|]. lra.
Qed.

(** One percentage: the double nearest to a whole number [k] of tenths,
    [k] being within a half, and a rounding error, of the exact share in
    tenths of a percent. *)
Lemma percentage_tenths (c t : Z) :
  0 <= c <= t -> 0 < t ->
  exists k : Z,
    percentage c t = double (inject_Z k / 10)
    /\ 0 <= k <= 1000
    /\ (Qabs (inject_Z k - inject_Z c / inject_Z t * 1000)
        <= (1 # 2) + (1 # 100000000000))%Q.
Proof.
  intros Hc Ht. unfold percentage. apply Z.gtb_lt in Ht as Ht'. rewrite Ht'.
  destruct (share_in_range c t Hc Ht) as [Q0 Q1].
  set (q := (inject_Z c / inject_Z t)%Q) in *.
  unfold int_truediv. fold q.
  destruct (double_between 0 1 q eq_refl double_1 Q0 Q1) as [D0 D1].
  pose proof (double_close_100 q Q0 ltac:(lra)) as Dc.
  set (dq := double q) in *.
  unfold fmul.
  assert (P0 : (0 <= dq * 100)%Q) by lra.
  assert (P1 : (dq * 100 <= 100)%Q) by lra.
  destruct (double_between 0 100 (dq * 100) eq_refl double_100 P0 P1)
    as [V0 V1].
  pose proof (double_close_100 (dq * 100) P0 P1) as Vc.
  set (v := double (dq * 100)) in *.
  unfold py_round. change (inject_Z (10 ^ Z.of_nat 1)) with 10%Q.
  pose proof (round_half_even_close (v * 10)) as Kc.
  assert (K0 : 0 <= round_half_even (v * 10)).
  { rewrite <- (round_half_even_int 0). apply round_half_even_mono.
    change (inject_Z 0) with 0%Q. lra. }
  assert (K1 : round_half_even (v * 10) <= 1000).
  { rewrite <- (round_half_even_int 1000). apply round_half_even_mono.
    change (inject_Z 1000) with 1000%Q. lra. }
  set (k := round_half_even (v * 10)) in *.
  exists k. split; [reflexivity|]. split; [lia|].
  apply Qabs_Qle_condition in Dc, Vc, Kc. apply Qabs_Qle_condition.
  split; lra.
Qed.

(** The doubles between 0 and 400 are within [2^-45] of what they
    round. *)
Lemma double_close_400 (x : Q) :
  (0 <= x)%Q -> (x <= 400)%Q ->
  (Qabs (double x - x) <= 1 # 35184372088832)%Q.
Proof.
  intros H0 H1. change (1 # 35184372088832)%Q with (pow2 (9 - 54)).
  apply double_close; [|lia].
  rewrite Qabs_pos by exact H0. change (pow2 9) with 512%Q. lra.
Qed.

Lemma tenths_in_range (k : Z) :
  0 <= k <= 1000 -> (0 <= inject_Z k / 10)%Q /\ (inject_Z k / 10 <= 100)%Q.
Proof.
  intros [H0 H1].
  assert (A0 : (inject_Z 0 <= inject_Z k)%Q) by (rewrite <- Zle_Qle; lia).
  assert (A1 : (inject_Z k <= inject_Z 1000)%Q) by (rewrite <- Zle_Qle; lia).
  change (inject_Z 0) with 0%Q in A0.
  change (inject_Z 1000) with 1000%Q in A1.
  split; [apply Qle_shift_div_l|apply Qle_shift_div_r]; lra.
Qed.

(** Three counts that add up to the total: the percentages are the
    doubles nearest to three numbers of tenths that add up to 99.9, 100.0
    or 100.1; their sum, exact or as Python adds them, is within 0.1 of
    100 up to the rounding errors. *)
Lemma percentages_close (a b c t : Z) :
  0 < t -> 0 <= a -> 0 <= b -> 0 <= c -> a + b + c = t ->
  exists ka kb kc : Z,
    percentage a t = double (inject_Z ka / 10)
    /\ percentage b t = double (inject_Z kb / 10)
    /\ percentage c t = double (inject_Z kc / 10)
    /\ 999 <= ka + kb + kc <= 1001
    /\ (Qabs (percentage a t + percentage b t + percentage c t - 100)
        <= (1 # 10) + (1 # 10000000000000))%Q
    /\ (Qabs (fadd (fadd (percentage a t) (percentage b t))
                   (percentage c t) - 100)
        <= (1 # 10) + (1 # 10000000000000))%Q.
Proof.
  intros Ht Ha Hb Hc Hsum.
  destruct (percentage_tenths a t ltac:(lia) Ht) as (ka & Ea & Ra & Ka).
  destruct (percentage_tenths b t ltac:(lia) Ht) as (kb & Eb & Rb & Kb).
  destruct (percentage_tenths c t ltac:(lia) Ht) as (kc & Ec & Rc & Kc).
  exists ka, kb, kc. rewrite Ea, Eb, Ec.
  split; [reflexivity|]. split; [reflexivity|]. split; [reflexivity|].
  assert (Hne : ~ (inject_Z t == 0)%Q).
  { intro E. unfold Qeq in E. simpl in E. lia. }
  assert (Hs : (inject_Z a + inject_Z b + inject_Z c == inject_Z t)%Q).
  { rewrite <- !inject_Z_plus, Hsum. reflexivity. }
  assert (Hq : (inject_Z a / inject_Z t * 1000
                + inject_Z b / inject_Z t * 1000
                + inject_Z c / inject_Z t * 1000 == 1000)%Q).
  { setoid_replace (inject_Z a / inject_Z t * 1000
                    + inject_Z b / inject_Z t * 1000
                    + inject_Z c / inject_Z t * 1000)%Q
      with ((inject_Z a + inject_Z b + inject_Z c) / inject_Z t * 1000)%Q
      by (field; exact Hne).
    rewrite Hs. field. exact Hne. }
  apply Qabs_Qle_condition in Ka, Kb, Kc.
  assert (Hk : 999 <= ka + kb + kc <= 1001).
  { assert (H1 : (inject_Z (ka + kb + kc) - 1000 <= 16 # 10)%Q)
      by (rewrite !inject_Z_plus; lra).
    assert (H2 : (- (16 # 10) <= inject_Z (ka + kb + kc) - 1000)%Q)
      by (rewrite !inject_Z_plus; lra).
    unfold Qle in H1, H2. simpl in H1, H2. lia. }
  split; [exact Hk|].
  destruct (tenths_in_range ka Ra) as [Ta0 Ta1].
  destruct (tenths_in_range kb Rb) as [Tb0 Tb1].
  destruct (tenths_in_range kc Rc) as [Tc0 Tc1].
  pose proof (double_close_100 _ Ta0 Ta1) as Da.
  pose proof (double_close_100 _ Tb0 Tb1) as Db.
  pose proof (double_close_100 _ Tc0 Tc1) as Dc.
  destruct (double_between 0 100 _ eq_refl double_100 Ta0 Ta1) as [Pa0 Pa1].
  destruct (double_between 0 100 _ eq_refl double_100 Tb0 Tb1) as [Pb0 Pb1].
  destruct (double_between 0 100 _ eq_refl double_100 Tc0 Tc1) as [Pc0 Pc1].
  apply Qabs_Qle_condition in Da, Db, Dc.
  assert (H3 : (inject_Z 999 <= inject_Z ka + inject_Z kb + inject_Z kc)%Q)
    by (rewrite <- !inject_Z_plus, <- Zle_Qle; lia).
  assert (H4 : (inject_Z ka + inject_Z kb + inject_Z kc <= inject_Z 1001)%Q)
    by (rewrite <- !inject_Z_plus, <- Zle_Qle; lia).
  change (inject_Z 999) with 999%Q in H3.
  change (inject_Z 1001) with 1001%Q in H4.
  assert (Sa : (inject_Z ka / 10 == inject_Z ka * (1 # 10))%Q) by field.
  assert (Sb : (inject_Z kb / 10 == inject_Z kb * (1 # 10))%Q) by field.
  assert (Sc : (inject_Z kc / 10 == inject_Z kc * (1 # 10))%Q) by field.
  set (pa := double (inject_Z ka / 10)) in *.
  set (pb := double (inject_Z kb / 10)) in *.
  set (pc := double (inject_Z kc / 10)) in *.
  rewrite Sa in Da. rewrite Sb in Db. rewrite Sc in Dc.
  split; [apply Qabs_Qle_condition; split; lra|].
  unfold fadd.
  pose proof (double_close_400 (pa + pb) ltac:(lra) ltac:(lra)) as D2.
  assert (S2 : (0 <= double (pa + pb))%Q /\ (double (pa + pb) <= 200)%Q).
  { apply double_between; [reflexivity|vm_compute; reflexivity|lra|lra]. }
  destruct S2 as [S20 S21].
  set (s2 := double (pa + pb)) in *.
  pose proof (double_close_400 (s2 + pc) ltac:(lra) ltac:(lra)) as D3.
  apply Qabs_Qle_condition in D2, D3.
  apply Qabs_Qle_condition. split; lra.
Qed.

Lemma count_step_counted (c : Counts) (r : ChunkResult) :
  counted (count_step c r)
  = counted c + (if recognised (sentiment r) then 1 else 0).
Proof.
  unfold count_step, recognised, counted.
  destruct (eqb (lower (sentiment r)) (str "positive")); simpl; [lia|].
  destruct (eqb (lower (sentiment r)) (str "neutral")); simpl; [lia|].
  destruct (eqb (lower (sentiment r)) (str "negative")); simpl; lia.
Qed.

Lemma sentiment_counts_counted (rs : list ChunkResult) :
  counted (sentiment_counts rs)
  = count_if (fun r => recognised (sentiment r)) rs.
Proof.
  unfold sentiment_counts.
  assert (G : forall c, counted (fold_left count_step rs c)
                        = counted c
                          + count_if (fun r => recognised (sentiment r)) rs).
  { induction rs as [|r rs IH]; intro c; simpl.
    - unfold count_if, len. simpl. lia.
    - rewrite IH, count_step_counted. unfold count_if, len. simpl.
      destruct (recognised (sentiment r)); simpl List.length; lia. }
  rewrite G. reflexivity.
Qed.

Lemma count_if_all {A} (p : A -> bool) (l : list A) :
  Forall (fun x => p x = true) l -> count_if p l = len l.
Proof.
  unfold count_if, len. induction 1 as [|x l Hx _ IH]; simpl; [reflexivity|].
  rewrite Hx. simpl. lia.
Qed.

Lemma count_step_nonneg (c : Counts) (r : ChunkResult) :
  0 <= positive c /\ 0 <= neutral c /\ 0 <= negative c ->
  0 <= positive (count_step c r) /\ 0 <= neutral (count_step c r)
  /\ 0 <= negative (count_step c r).
Proof.
  unfold count_step. intros (H1 & H2 & H3).
  destruct (eqb _ (str "positive")); simpl; [lia|].
  destruct (eqb _ (str "neutral")); simpl; [lia|].
  destruct (eqb _ (str "negative")); simpl; lia.
Qed.

Lemma sentiment_counts_nonneg (rs : list ChunkResult) :
  let c := sentiment_counts rs in
  0 <= positive c /\ 0 <= neutral c /\ 0 <= negative c.
Proof.
  unfold sentiment_counts.
  apply (fold_left_invariant
           (fun c => 0 <= positive c /\ 0 <= neutral c /\ 0 <= negative c)).
  - intros st a. apply count_step_nonneg.
  - simpl. lia.
Qed.

(** The summary of results whose labels are all among positive, neutral
    and negative (in any case): the percentages are three numbers of
    tenths that add up to 99.9, 100.0 or 100.1, read as doubles. *)
Lemma generate_summary_percentages (rs : list ChunkResult) :
  rs <> [] ->
  Forall (fun r => recognised (sentiment r) = true) rs ->
  exists p,
    sentiment_percentages (generate_summary rs) = Some p
    /\ tenths_total p
    /\ near_100 (percent_total p)
    /\ near_100 (percent_total_float p).
Proof.
  intros Hne Hrec. unfold generate_summary.
  assert (Hpos : 0 < len rs).
  { destruct rs; [congruence|]. unfold len. simpl List.length. lia. }
  destruct (Z.eqb_spec (len rs) 0) as [|_]; [lia|].
  eexists. split; [reflexivity|].
  unfold near_100, percent_total, percent_total_float, tenths_total.
  cbn [sentiment_percentages pct_positive pct_neutral pct_negative].
  destruct (sentiment_counts_nonneg rs) as (H1 & H2 & H3).
  destruct (percentages_close _ _ _ (len rs) Hpos H1 H2 H3)
    as (ka & kb & kc & Ea & Eb & Ec & Hk & Hsum & Hfsum).
  { change (counted (sentiment_counts rs) = len rs).
    rewrite sentiment_counts_counted.
    apply (count_if_all (fun r => recognised (sentiment r))), Hrec. }
  split; [|split; assumption].
  exists ka, kb, kc. auto.
Qed.

Lemma chunk_outcomes_recognised (L : Libs) (cs : list Chunk)
    (rs : list ChunkResult) :
  Forall2 (chunk_outcome L) cs rs ->
  Forall (fun r => recognised (sentiment r) = true) rs.
Proof.
  induction 1 as [|c r cs rs O _ IH]; constructor; [apply O|exact IH].
Qed.

(** C8, as the code has it.  In the reply to any batch with a chunk that
    is not blank, there are results, and the three percentages of the
    summary are the doubles nearest to three whole numbers of tenths that
    add up to 99.9, 100.0 or 100.1; their sum, taken exactly or as Python
    adds the three floats, is within 0.1 of 100 up to rounding errors,
    which stay below 1e-13. *)
Theorem upload_percentages_sum (L : Libs) (fname : pystr)
    (chunks : list Chunk) :
  Exists (fun c => blank (text c) = false) chunks ->
  exists d p,
    upload_file L fname chunks = Http200 d
    /\ analysis_results d <> []
    /\ sentiment_percentages (summary d) = Some p
    /\ tenths_total p
    /\ near_100 (percent_total p)
    /\ near_100 (percent_total_float p).
Proof.
  intro Hex.
  destruct (process_chunks_returns L chunks) as (results & Er & F).
  assert (Hne : results <> []).
  { intros ->. inversion F as [Hnil|]. clear F.
    apply Exists_exists in Hex as (c & Hc & Hb).
    assert (Hin : In c (filter (fun c => negb (blank (text c))) chunks)).
    { apply filter_In. rewrite Hb. auto. }
    rewrite <- Hnil in Hin. exact Hin. }
  destruct (generate_summary_percentages results Hne
              (chunk_outcomes_recognised _ _ _ F))
    as (p & Hp & Ht & Hs & Hf).
  exists (response_data fname results), p.
  split; [unfold upload_file, upload_chunks; rewrite Er; reflexivity|].
  split; [exact Hne|]. split; [exact Hp|]. split; [exact Ht|].
  split; assumption.
Qed.

Lemma upload_percentages_sum_witness :
  exists d p,
    upload_file offline_libs (str "reviews.txt") [hola; hola; hola] = Http200 d
    /\ analysis_results d <> []
    /\ sentiment_percentages (summary d) = Some p
    /\ tenths_total p
    /\ near_100 (percent_total p)
    /\ near_100 (percent_total_float p).
Proof.
  apply (upload_percentages_sum offline_libs (str "reviews.txt")
           [hola; hola; hola]).
  constructor. reflexivity.
Defined.

(** C8, as stated, fails on a batch with one review of each kind: each
    percentage is the double 33.3, which lies below 33.3, and the three
    add up to 99.89999999999999147, more than 0.1 below 100, whether the
    sum and the comparison are exact or those of Python. *)
Lemma upload_percentages_sum_counterexample :
  exists d p,
    upload_file plain_libs (str "reviews.txt") one_of_each = Http200 d
    /\ map sentiment (analysis_results d)
       = [str "positive"; str "neutral"; str "negative"]
    /\ sentiment_percentages (summary d) = Some p
    /\ pct_positive p = double (333 # 10)
    /\ ~ (Qabs (percent_total p - 100) <= 1 # 10)%Q
    /\ Qle_bool (Qabs (double (percent_total_float p - 100)))
                (double (1 # 10)) = false.
Proof.
  eexists. eexists. split; [reflexivity|]. split; [reflexivity|].
  split; [reflexivity|]. split; [vm_compute; reflexivity|].
  split; [|vm_compute; reflexivity].
  vm_compute. intro H. apply H. reflexivity.
Qed.

Lemma translation_failure_keeps_original_witness :
  process_chunk (detect offline_libs) (translate offline_libs)
                (score offline_libs) hola
  = (s <- score offline_libs (str "hola") (str "en") ;;
     Ok (Some (mkResult 0 (str "hola") (str "hola") (str "es") false
                        (sr_sentiment s) (sr_score s) (sr_polarity s)
                        (sr_subjectivity s) None None None s))).
Proof.
  apply (translation_failure_keeps_original
           (detect offline_libs) (translate offline_libs)
           (score offline_libs) hola (str "es")).
  - reflexivity.
  - reflexivity.
  - discriminate.
  - simpl. discriminate.
Defined.

Lemma upload_totals_agree_witness :
  exists d,
    upload_file offline_libs (str "reviews.txt") [hola] = Http200 d
    /\ total_chunks d = total_reviews_analyzed (summary d)
    /\ top_translations_performed d = translations_performed (summary d)
    /\ (forall l, In l (top_languages_detected d)
                  <-> In l (languages_detected (summary d))).
Proof.
  eexists. split; [reflexivity|].
  apply (upload_totals_agree (detect offline_libs) (translate offline_libs)
           (score offline_libs) (str "reviews.txt") [hola]).
  reflexivity.
Defined.

(** ** The string functions on examples *)

Example re_split_example :
  re_split_sentences (str "a.  b! c?d. ")
  = [str "a."; str "b!"; str "c?d."; str ""].
Proof. reflexivity. Qed.

Example re_split_no_terminator :
  re_split_sentences (str " a") = [str " a"].
Proof. reflexivity. Qed.

Example re_split_mixed_space :
  re_split_sentences (str ". " ++ newline ++ str " x ." ++ [9%N])
  = [str "."; str "x ."; str ""].
Proof. reflexivity. Qed.

Example slice_from_examples :
  slice_from (-100 / 50) [1; 2; 3] = [2; 3]
  /\ slice_from (-10 / 50) [1; 2; 3] = [3]
  /\ slice_from (-0 / 50) [1; 2; 3] = [1; 2; 3]
  /\ slice_from (-5) [1; 2; 3] = [1; 2; 3]
  /\ slice_from 5 [1; 2; 3] = [].
Proof. repeat split. Qed.

Example find_examples :
  find (str "ab") (str "") = 0 /\ find (str "ab") (str "c") = -1
  /\ find (str "abab") (str "ba") = 1.
Proof. repeat split. Qed.

(** [0.1] is not a tenth; [round] reads the exact value of its argument,
    so that [round(2.675, 2)] is [2.67] and [round(23 / 80 * 100, 1)] is
    [28.7], where 23 / 80 * 100 is 28.749999999999996; an exact tie goes
    to the even digit. *)
(** Lower case beyond ASCII: the Kelvin sign gives 'k'; the capital
    sigma gives the final form at the end of a word only; U+0130 gives two
    characters. *)
Example lower_examples :
  lower (str "Reviews.CSV") = str "reviews.csv"
  /\ lower [8490%N] = str "k"
  /\ lower [927; 931]%N = [959; 962]%N
  /\ lower [931; 927]%N = [963; 959]%N
  /\ lower [927; 931; 46]%N = [959; 962; 46]%N
  /\ lower [304%N] = [105; 775]%N.
Proof. vm_compute. repeat split. Qed.

Example double_examples :
  (double (1 # 2) == 1 # 2)%Q
  /\ (double (1 # 10) == 3602879701896397 # 36028797018963968)%Q
  /\ (fadd (double (1 # 10)) (double (2 # 10))
      == double (3 # 10) + pow2 (-54))%Q.
Proof. vm_compute. repeat split. Qed.

(** The reader is chosen by the suffix of the secured name, not by the
    name the client sent: an upload whose secured name is ["csv"] (as a
    name of non-ASCII letters followed by [".csv"] becomes) has no suffix
    and is read line by line. *)
Example path_suffix_examples :
  path_suffix (str "reviews.csv") = str ".csv"
  /\ path_suffix (str "a.b.CSV") = str ".CSV"
  /\ path_suffix (str "csv") = str ""
  /\ path_suffix (str ".csv") = str ""
  /\ path_suffix (str "reviews.") = str ""
  /\ path_suffix (str "old/reviews.json") = str ".json"
  /\ read_file (str "csv") ratings_csv = Raise (str "not read")
  /\ read_file (str "ratings.CSV") ratings_csv
     = (r <- up_csv ratings_csv ;; Ok (CsvFile (fst r) (snd r))).
Proof. vm_compute. repeat split. Qed.

(** The doubles of the thresholds of [analyze_sentiment] lie just above
    the decimals they are written as. *)
Example threshold_doubles :
  (1 # 10 < double (1 # 10))%Q /\ (double (1 # 10) < (1 # 10) + pow2 (-57))%Q
  /\ (45 # 100 < double (45 # 100))%Q /\ (55 # 100 < double (55 # 100))%Q.
Proof. vm_compute. repeat split. Qed.

Example py_round_examples :
  (py_round (625 # 100) 1 == double (62 # 10))%Q
  /\ (py_round (double (2675 # 1000)) 2 == double (267 # 100))%Q
  /\ (py_round (125 # 1000) 2 == double (12 # 100))%Q
  /\ (fmul (int_truediv 23 80) 100 == (2875 # 100) - pow2 (-48))%Q
  /\ (percentage 23 80 == double (287 # 10))%Q
  /\ (percentage 1 3 == double (333 # 10))%Q.
Proof. vm_compute. repeat split. Qed.

Example readlines_example :
  readlines (str "good" ++ newline ++ newline ++ str "bad" ++ newline)
  = [str "good" ++ newline; newline; str "bad" ++ newline].
Proof. reflexivity. Qed.

(** ** Identifiers and the last-chunk mark, mode by mode *)

(** X1.  CSV and JSON inputs: the k-th chunk (from 0) carries the
    identifier k. *)
Theorem process_file_ids_gapless (chunk_size overlap : Z) :
  (forall fieldnames rows,
      gapless (process_file (CsvFile fieldnames rows) chunk_size overlap))
  /\ (forall text_content,
         gapless (process_file (JsonFile text_content) chunk_size overlap)).
Proof.
  split; intros; simpl.
  - apply process_csv_file_shape.
  - unfold process_json_file. apply chunk_text_gapless.
Qed.

(** X2.  Text files: the identifiers grow strictly from 0 on, and each
    one is the index of a line of the file. *)
Theorem process_text_file_ids_increasing (lines : list pystr) :
  increasing_from 0 (process_text_file lines)
  /\ Forall (fun c => 0 <= chunk_id c < len lines) (process_text_file lines).
Proof.
  unfold process_text_file, enumerate. split.
  - apply line_chunks_increasing.
  - apply Forall_forall. intros c Hc.
    apply line_chunks_ids in Hc. lia.
Qed.

(** X3.  CSV and JSON inputs: the last chunk, and no other, has
    [is_last]. *)
Theorem process_file_only_last_marked (chunk_size overlap : Z) :
  (forall fieldnames rows,
      only_last_marked
        (process_file (CsvFile fieldnames rows) chunk_size overlap))
  /\ (forall text_content,
         only_last_marked
           (process_file (JsonFile text_content) chunk_size overlap)).
Proof.
  split; intros; simpl.
  - apply process_csv_file_shape.
  - unfold process_json_file. apply chunk_text_only_last_marked.
Qed.

(** X6.  Text files: one chunk for each line that is not blank, in the
    order of the lines, holding the trimmed line. *)
Theorem process_text_file_one_chunk_per_line (lines : list pystr) :
  map text (process_text_file lines)
  = map strip (filter (fun l => negb (blank l)) lines).
Proof.
  unfold process_text_file, enumerate. generalize 0 as i.
  generalize (len lines) as n.
  induction lines as [|l lines IH]; intros n i; simpl; [reflexivity|].
  rewrite map_app, IH, truthy_strip.
  destruct (blank l); reflexivity.
Qed.

Lemma process_text_file_last_line_witness :
  only_last_marked
    (process_text_file ([str "good" ++ newline; newline] ++ [str "bad"])).
Proof.
  apply (process_text_file_last_line [str "good" ++ newline; newline]
           (str "bad")).
  reflexivity.
Defined.

Lemma process_text_file_blank_last_line_witness :
  marked (process_text_file ([str "good" ++ newline] ++ [newline])) = 0%nat.
Proof.
  apply (process_text_file_blank_last_line [str "good" ++ newline] newline).
  reflexivity.
Defined.

(** X7.  Text files without blank lines: the k-th chunk (from 0) carries
    the identifier k. *)
Theorem process_text_file_gapless_without_blank_lines (lines : list pystr) :
  Forall (fun l => blank l = false) lines ->
  gapless (process_text_file lines).
Proof.
  intros F k c E. unfold process_text_file, enumerate in E.
  apply (line_chunks_gapless _ _ F) in E. lia.
Qed.

Lemma process_text_file_gapless_without_blank_lines_witness :
  gapless (process_text_file [str "good" ++ newline; str "bad" ++ newline]).
Proof.
  apply process_text_file_gapless_without_blank_lines.
  repeat constructor.
Defined.

(** ** Where the guarantees stop *)

(** The loop itself has a handler around the translator only: a scorer
    that raised would end the request with status 500.  The batch is safe
    because [analyze_sentiment] and [detect_language] never raise. *)
Example upload_chunks_propagates :
  upload_chunks (detect offline_libs) (translate offline_libs)
                (fun _ _ => Raise (str "boom")) (str "reviews.txt") [hola]
  = Http500 (str "Failed to process file: boom").
Proof. reflexivity. Qed.

(** [generate_summary] counts the three labels only: a result with any
    other label, which the workflow never builds, is in the total but in
    no percentage. *)
Example generate_summary_unrecognised_label :
  let s := mkSentiment (str "mixed") (1 # 2) 0 (1 # 2) (str "en") None None in
  let r := mkResult 0 (str "so so") (str "so so") (str "en") false
                    (sr_sentiment s) (sr_score s) (sr_polarity s)
                    (sr_subjectivity s) None None None s in
  match sentiment_percentages (generate_summary [r]) with
  | Some p => (percent_total p == 0)%Q
  | None => False
  end.
Proof. reflexivity. Qed.

(* ================================================================== *)
(** * Further properties of chunking.py *)

(** ** Texts that are not blank *)

Lemma blank_app (a b : pystr) : blank (a ++ b) = blank a && blank b.
Proof. apply forallb_app. Qed.

Lemma strip_not_blank (s : pystr) : strip s <> [] -> blank (strip s) = false.
Proof.
  unfold strip, rstrip. intro H.
  pose proof (lstrip_head (rev (lstrip s))) as Hh.
  destruct (lstrip (rev (lstrip s))) as [|c r]; [contradiction H; reflexivity|].
  rewrite blank_rev. unfold blank. simpl. rewrite Hh. reflexivity.
Qed.

Lemma join_snoc (sep : pystr) (l : list pystr) (x : pystr) :
  join sep (l ++ [x])
  = match l with
    | [] => x
    | _ :: _ => join sep l ++ sep ++ x
    end.
Proof.
  induction l as [|a l IH]; [reflexivity|].
  change ((a :: l) ++ [x]) with (a :: (l ++ [x])).
  destruct l as [|b l]; [reflexivity|].
  change (join sep (a :: (b :: l) ++ [x]))
    with (a ++ sep ++ join sep ((b :: l) ++ [x])).
  rewrite IH.
  change (join sep (a :: b :: l)) with (a ++ sep ++ join sep (b :: l)).
  rewrite <- !app_assoc. reflexivity.
Qed.

Lemma blank_join_last (sep : pystr) (l : list pystr) (x : pystr) :
  blank x = false -> blank (join sep (l ++ [x])) = false.
Proof.
  intro B. rewrite join_snoc. destruct l; [exact B|].
  rewrite !blank_app, B, !andb_false_r. reflexivity.
Qed.

Lemma force_last_Forall (P : Chunk -> Prop) (cs : list Chunk) :
  (forall c, P c -> P (set_is_last true c)) ->
  Forall P cs -> Forall P (force_last cs).
Proof.
  intros HP F. destruct (snoc_cases cs) as [->|[l [x ->]]]; [constructor|].
  rewrite force_last_snoc. apply Forall_app in F as [F1 F2].
  apply Forall_app. split; [exact F1|].
  inversion F2; subst. constructor; [apply HP; assumption|constructor].
Qed.

(** ** [find] *)

Lemma startswith_iff (s sub : pystr) :
  startswith s sub = true <-> firstn (List.length sub) s = sub.
Proof.
  revert s. induction sub as [|a sub IH]; intro s.
  - destruct s; simpl; tauto.
  - destruct s as [|b s]; simpl; [split; discriminate|].
    rewrite andb_true_iff, N.eqb_eq, IH. split.
    + intros [-> ->]. reflexivity.
    + intro E. injection E as -> E. auto.
Qed.

Lemma find_from_spec (sub : pystr) :
  forall s i,
    0 <= i ->
    (find_from s sub i = -1 /\ forall j, ~ occurs_at s sub j)
    \/ (exists k : nat,
          find_from s sub i = i + Z.of_nat k
          /\ occurs_at s sub k
          /\ forall j, (j < k)%nat -> ~ occurs_at s sub j).
Proof.
  unfold occurs_at.
  induction s as [|c s IH]; intros i Hi; cbn [find_from].
  - destruct (startswith [] sub) eqn:E.
    + right. exists 0%nat. rewrite Z.add_0_r. split; [reflexivity|].
      split; [apply startswith_iff, E|]. intros j Hj. lia.
    + left. split; [reflexivity|]. intros j H.
      rewrite skipn_nil in H. apply startswith_iff in H. congruence.
  - destruct (startswith (c :: s) sub) eqn:E.
    + right. exists 0%nat. rewrite Z.add_0_r. split; [reflexivity|].
      split; [apply startswith_iff, E|]. intros j Hj. lia.
    + destruct (IH (i + 1) ltac:(lia)) as [[E1 N1]|(k & E1 & O1 & N1)].
      * left. split; [exact E1|]. intros [|j] H.
        -- cbn [skipn] in H. apply startswith_iff in H. congruence.
        -- apply (N1 j). exact H.
      * right. exists (S k). split; [rewrite E1; lia|].
        split; [exact O1|]. intros [|j] Hj H.
        -- cbn [skipn] in H. apply startswith_iff in H. congruence.
        -- apply (N1 j); [lia|exact H].
Qed.

Lemma span_chunk_positioned (source : pystr) (cur : list pystr) (id : Z)
    (last : bool) :
  positioned source (span_chunk source cur id last).
Proof.
  unfold positioned, span_chunk, chunk. simpl.
  exists (find source (join (str " ") cur)). split; [reflexivity|].
  unfold find.
  destruct (find_from_spec (join (str " ") cur) source 0 ltac:(lia))
    as [[E N]|(k & E & O & N)]; rewrite E.
  - left. auto.
  - right. simpl. rewrite Nat2Z.id. split; [lia|]. auto.
Qed.

(** ** The texts and positions of chunk_text *)

Lemma sent_texts_step (source : pystr) (chunk_size overlap : Z)
    (st : SentState) (sentence : pystr) :
  sent_texts_inv source st ->
  sent_texts_inv source (sent_step source chunk_size overlap st sentence).
Proof.
  intros (Hcur & Hf). unfold sent_step.
  destruct (truthy (strip sentence)) eqn:T; simpl; [|split; assumption].
  assert (B : blank (strip sentence) = false).
  { apply strip_not_blank. intro E. rewrite E in T. discriminate. }
  destruct ((s_length st + len (strip sentence) >? chunk_size)
            && truthy (s_current st)) eqn:C.
  - apply andb_true_iff in C as [_ C].
    destruct Hcur as [E|(init & last & E & Bl)];
      [rewrite E in C; discriminate|].
    split; simpl.
    + right. destruct (negb (eqb _ (strip sentence))).
      * exists [overlap_text overlap (s_current st)], (strip sentence). auto.
      * exists [], (strip sentence). auto.
    + apply Forall_app. split; [exact Hf|]. constructor; [|constructor].
      split; [|apply span_chunk_positioned].
      unfold span_chunk, chunk. simpl. rewrite E.
      apply blank_join_last, Bl.
  - split; simpl; [|exact Hf].
    right. exists (s_current st), (strip sentence). auto.
Qed.

Lemma sent_texts_loop (source : pystr) (chunk_size overlap : Z) :
  sent_texts_inv source (sent_loop source chunk_size overlap).
Proof.
  unfold sent_loop. apply fold_left_invariant.
  - intros st a. apply sent_texts_step.
  - split; [left; reflexivity|constructor].
Qed.

Lemma chunk_text_chunks_ok (text0 : pystr)
    (chunk_size overlap min_chunk_size : Z) :
  Forall (fun c => blank (text c) = false /\ positioned (strip text0) c)
         (chunk_text text0 chunk_size overlap min_chunk_size).
Proof.
  unfold chunk_text. rewrite empty_guard.
  destruct (blank text0) eqn:B; [constructor|].
  destruct (len (strip text0) <=? chunk_size).
  - constructor; [|constructor]. split; simpl.
    + apply strip_not_blank. intro E. apply strip_nil_iff in E. congruence.
    + exists 0. split; [reflexivity|]. right.
      split; [lia|]. split; [|intros i Hi; simpl in Hi; lia].
      unfold occurs_at. simpl. apply firstn_all.
  - apply force_last_Forall; [intros c H; exact H|].
    destruct (sent_texts_loop (strip text0) chunk_size overlap) as (Hcur & Hf).
    unfold sent_flush.
    destruct (truthy (s_current _)) eqn:T; [|exact Hf].
    destruct (len _ >=? min_chunk_size); [|exact Hf].
    apply Forall_app. split; [exact Hf|]. constructor; [|constructor].
    split; [|apply span_chunk_positioned].
    destruct Hcur as [E|(init & last & E & Bl)];
      [rewrite E in T; discriminate|].
    unfold span_chunk, chunk. simpl. rewrite E. apply blank_join_last, Bl.
Qed.

(** X8.  Every chunk of [chunk_text], for any input and any sizes, has a
    text that is not blank, [end = start + len(text)], and a [start] that
    is the index of the first occurrence of the text in the trimmed input,
    or [-1] when the text does not occur there. *)
Theorem chunk_text_texts_and_positions (text0 : pystr)
    (chunk_size overlap min_chunk_size : Z) (c : Chunk) :
  In c (chunk_text text0 chunk_size overlap min_chunk_size) ->
  blank (text c) = false /\ positioned (strip text0) c.
Proof.
  intro H.
  pose proof (chunk_text_chunks_ok text0 chunk_size overlap min_chunk_size)
    as F.
  rewrite Forall_forall in F. apply F, H.
Qed.

Lemma chunk_text_texts_and_positions_witness :
  let c := chunk (str "Great product!") 0 true (Span 0 14) in
  blank (text c) = false /\ positioned (str "Great product!") c.
Proof.
  apply (chunk_text_texts_and_positions (str " Great product! ") 1000 100 50).
  left. reflexivity.
Defined.

(** ** The texts and sizes of process_csv_file *)

Lemma len_app {A} (a b : list A) : len (a ++ b) = len a + len b.
Proof. unfold len. rewrite length_app. lia. Qed.

Lemma join_snoc_snoc (sep : pystr) (l : list pystr) (x y : pystr) :
  join sep (l ++ [x ++ sep ++ y]) = join sep (l ++ [x]) ++ sep ++ y.
Proof.
  rewrite !join_snoc. destruct l; [reflexivity|].
  rewrite <- !app_assoc. reflexivity.
Qed.

Lemma csv_texts_step (fieldnames : option (list pystr)) (chunk_size i : Z)
    (done : list pystr) (st : CsvState) (row : Row) :
  csv_texts_inv chunk_size done st ->
  csv_texts_inv chunk_size (done ++ [row_text row])
                (csv_step fieldnames chunk_size st (i, row)).
Proof.
  intros (Hj & Hd & He & Hl & Hb & Hf).
  unfold csv_step, csv_texts_inv, csv_texts in *.
  set (rt := row_text row) in *.
  destruct (c_current st) as [|r0 cur] eqn:Ecur.
  - (* the first row *)
    destruct (He eq_refl) as (Ech & Elen).
    rewrite andb_false_r. cbn [c_chunks c_current c_length app].
    rewrite Ech, Elen.
    assert (Ed : done = []) by (apply Hd; reflexivity). subst done.
    repeat split; try discriminate; try constructor.
    + intros _. cbn [join]. lia.
    + unfold len. simpl. lia.
  - assert (Hdone : exists d0 done', done = d0 :: done').
    { destruct done as [|d0 done']; [|eauto].
      assert (E : r0 :: cur = []) by (apply Hd; reflexivity). discriminate. }
    destruct Hdone as (d0 & done' & ->).
    specialize (Hl ltac:(discriminate)).
    set (J := join newline (r0 :: cur)) in *.
    rewrite andb_true_r.
    destruct (c_length st + len rt >? chunk_size) eqn:C;
      cbn [c_chunks c_current c_length app].
    + (* the running chunk is closed *)
      repeat split; try discriminate.
      * rewrite map_app. cbn [map text chunk].
        rewrite join_snoc.
        destruct (map text (c_chunks st) ++ [J]) eqn:E;
          [destruct (map text (c_chunks st)); discriminate|].
        cbv beta iota. rewrite Hj.
        change (d0 :: done' ++ [rt]) with ((d0 :: done') ++ [rt]).
        rewrite join_snoc. reflexivity.
      * intros _. reflexivity.
      * unfold len. simpl. lia.
      * apply Forall_app. split; [exact Hf|]. constructor; [|constructor].
        intros s e E Hlt. unfold row_range, chunk in E. cbn [meta] in E.
        injection E as <- <-. cbn [text chunk]. apply Hb. lia.
    + (* the row joins the running chunk *)
      rewrite Z.gtb_ltb in C. apply Z.ltb_ge in C.
      change (r0 :: cur ++ [rt]) with ((r0 :: cur) ++ [rt]).
      assert (Ejoin : join newline ((r0 :: cur) ++ [rt])
                      = J ++ newline ++ rt)
        by (rewrite join_snoc; reflexivity).
      assert (Elen : len (join newline ((r0 :: cur) ++ [rt]))
                     = len J + 1 + len rt).
      { rewrite Ejoin, !len_app. change (len newline) with 1. lia. }
      repeat split; try discriminate.
      * rewrite Ejoin, join_snoc_snoc, Hj.
        change (d0 :: done' ++ [rt]) with ((d0 :: done') ++ [rt]).
        rewrite join_snoc. reflexivity.
      * intros _. lia.
      * intros _. lia.
      * exact Hf.
Qed.

Lemma csv_texts_fold (fieldnames : option (list pystr)) (chunk_size : Z)
    (rows : list Row) :
  forall i done st,
    csv_texts_inv chunk_size done st ->
    csv_texts_inv chunk_size (done ++ map row_text rows)
                  (fold_left (csv_step fieldnames chunk_size)
                             (enumerate_from i rows) st).
Proof.
  induction rows as [|row rows IH]; intros i done st I; simpl.
  - rewrite app_nil_r. exact I.
  - change (row_text row :: map row_text rows)
      with ([row_text row] ++ map row_text rows).
    rewrite app_assoc. apply IH, csv_texts_step, I.
Qed.

Lemma csv_texts_loop (fieldnames : option (list pystr)) (rows : list Row)
    (chunk_size : Z) :
  csv_texts_inv chunk_size (map row_text rows)
                (csv_loop fieldnames rows chunk_size).
Proof.
  unfold csv_loop, enumerate.
  apply (csv_texts_fold fieldnames chunk_size rows 0 [] csv_init).
  unfold csv_texts_inv, csv_texts, csv_init. simpl.
  repeat split; auto; try discriminate; try constructor.
  intro H. contradiction H; reflexivity.
Qed.

Lemma csv_flush_texts (fieldnames : option (list pystr)) (st : CsvState) :
  map text (csv_flush fieldnames st) = csv_texts st.
Proof.
  unfold csv_flush, csv_texts.
  destruct (c_current st); simpl; [symmetry; apply app_nil_r|].
  rewrite map_app. reflexivity.
Qed.

(** X9.  CSV chunking loses no row and keeps their order: the chunk texts
    joined by a newline are the rendered rows joined by a newline. *)
Theorem process_csv_file_keeps_rows (fieldnames : option (list pystr))
    (rows : list Row) (chunk_size : Z) :
  join newline (map text (process_csv_file fieldnames rows chunk_size))
  = join newline (map row_text rows).
Proof.
  unfold process_csv_file. rewrite csv_flush_texts.
  apply (csv_texts_loop fieldnames rows chunk_size).
Qed.

(** X10.  A CSV chunk that spans more than one row has at most
    [chunk_size + 1] characters (the check leaves out the newline that
    joins the rows); a chunk of one row has the length of that row,
    whatever it is. *)
Theorem process_csv_file_size_bound (fieldnames : option (list pystr))
    (rows : list Row) (chunk_size : Z) :
  Forall (fun c => forall s e, row_range c = Some (s, e) -> s < e ->
                               len (text c) <= chunk_size + 1)
         (process_csv_file fieldnames rows chunk_size).
Proof.
  unfold process_csv_file, csv_flush.
  destruct (csv_texts_loop fieldnames rows chunk_size)
    as (_ & _ & _ & _ & Hb & Hf).
  destruct (truthy _); [|exact Hf].
  apply Forall_app. split; [exact Hf|]. constructor; [|constructor].
  intros s e E Hlt. unfold row_range, chunk in E. simpl in E.
  simpl. apply Hb.
  destruct (c_i _); injection E as <- <-; lia.
Qed.

(** The bound of X10 is reached: with [chunk_size = 6], two rows of 3
    characters share a chunk of 7. *)
Example process_csv_file_size_bound_reached :
  map (fun c => (row_range c, len (text c)))
      (process_csv_file (Some [str "k"])
         [[(str "k", str "aaa")]; [(str "k", str "")];
          [(str "k", str "")]] 6)
  = [(Some (0, 0), 6); (Some (1, 2), 7)].
Proof. reflexivity. Qed.

(** ** merge_chunks after each producer *)

Lemma sorted_by_same_key {A} (key : A -> Z) (k : Z) (l : list A) :
  Forall (fun x => key x = k) l -> sorted_by key l = l.
Proof.
  induction 1 as [|x l Hx Hl IH]; simpl; [reflexivity|].
  rewrite IH. destruct Hl as [|y l Hy _]; simpl; [reflexivity|].
  rewrite Hx, Hy, Z.leb_refl. reflexivity.
Qed.

(** The loop on chunks that all start at 0 and end at their length: no
    padding is added. *)
Lemma merge_fold_lines (cs : list Chunk) :
  Forall (fun c => start_of c = Some 0 /\ end_of c = Some (len (text c))) cs ->
  forall acc last_end,
    0 <= last_end ->
    fst (fold_left merge_step cs (acc, last_end))
    = rev (map text cs) ++ acc.
Proof.
  induction 1 as [|c cs [Hs He] _ IH]; intros acc last_end Hle; simpl.
  - reflexivity.
  - rewrite Hs, He.
    replace (0 >? last_end) with false
      by (symmetry; rewrite Z.gtb_ltb; apply Z.ltb_ge; exact Hle).
    rewrite IH by (unfold len; lia).
    rewrite <- app_assoc. reflexivity.
Qed.

Lemma merge_chunks_lines (cs : list Chunk) :
  Forall (fun c => start_of c = Some 0 /\ end_of c = Some (len (text c))) cs ->
  merge_chunks cs = List.concat (map text cs).
Proof.
  intro F. unfold merge_chunks.
  destruct cs as [|c cs]; [reflexivity|]. cbn [truthy negb].
  rewrite (sorted_by_same_key _ 0)
    by (eapply Forall_impl; [|exact F]; intros a [-> _]; reflexivity).
  inversion F as [|? ? [Hs He] F']; subst. rewrite Hs.
  rewrite (merge_fold_lines _ F) by lia.
  rewrite app_nil_r, rev_involutive. reflexivity.
Qed.

(** X11.  Round trip on an input that fits in one chunk: [merge_chunks]
    gives back the trimmed input (the empty string for a blank input). *)
Theorem merge_chunks_chunk_text_short (text0 : pystr)
    (chunk_size overlap min_chunk_size : Z) :
  len (strip text0) <= chunk_size ->
  merge_chunks (chunk_text text0 chunk_size overlap min_chunk_size)
  = strip text0.
Proof.
  intro L. destruct (blank text0) eqn:B.
  - rewrite (chunk_text_blank _ _ _ _ B).
    apply strip_nil_iff in B. rewrite B. reflexivity.
  - rewrite (chunk_text_short _ _ _ _ B L).
    rewrite merge_chunks_lines; [simpl; apply app_nil_r|].
    repeat constructor.
Qed.

Lemma merge_chunks_chunk_text_short_witness :
  merge_chunks (chunk_text (str " Great product! ") 1000 100 50)
  = str "Great product!".
Proof.
  apply (merge_chunks_chunk_text_short (str " Great product! ") 1000 100 50).
  vm_compute. discriminate.
Defined.

Lemma process_text_file_line_like (lines : list pystr) :
  Forall (fun c => start_of c = Some 0 /\ end_of c = Some (len (text c)))
         (process_text_file lines).
Proof.
  unfold process_text_file. apply Forall_flat_map, Forall_forall.
  intros [i l] _. unfold line_chunk.
  destruct (truthy (strip l)); repeat constructor.
Qed.

(** X12.  On the chunks of a text file, [merge_chunks] glues the chunk
    texts one after the other in file order, with nothing between them:
    the line breaks of the file are not restored. *)
Theorem merge_chunks_process_text_file (lines : list pystr) :
  merge_chunks (process_text_file lines)
  = List.concat (map text (process_text_file lines)).
Proof.
  apply merge_chunks_lines, process_text_file_line_like.
Qed.

Lemma merge_chunks_rows (cs : list Chunk) :
  Forall (fun c => start_of c = None) cs ->
  merge_chunks cs = join (newline ++ newline) (map text cs).
Proof.
  intro F. unfold merge_chunks.
  destruct cs as [|c cs]; [reflexivity|]. cbn [truthy negb].
  rewrite (sorted_by_same_key _ 0)
    by (eapply Forall_impl; [|exact F]; intros a ->; reflexivity).
  inversion F as [|? ? Hs F']; subst. rewrite Hs. reflexivity.
Qed.

Lemma process_csv_file_rows_like (fieldnames : option (list pystr))
    (rows : list Row) (chunk_size : Z) :
  Forall (fun c => start_of c = None)
         (process_csv_file fieldnames rows chunk_size).
Proof.
  destruct (process_csv_file_shape fieldnames rows chunk_size)
    as (_ & _ & (ranges & Hr & _) & _).
  revert ranges Hr.
  induction (process_csv_file fieldnames rows chunk_size) as [|c cs IH];
    intros ranges Hr; [constructor|].
  destruct ranges as [|r ranges]; [discriminate|].
  injection Hr as Hc Hr. constructor; [|apply (IH _ Hr)].
  unfold row_range in Hc. unfold start_of.
  destruct (meta c); [discriminate|discriminate|reflexivity].
Qed.

(** X13.  On the chunks of a CSV file, which carry no [start],
    [merge_chunks] joins the chunk texts, in chunk order, with a blank
    line between them. *)
Theorem merge_chunks_process_csv_file (fieldnames : option (list pystr))
    (rows : list Row) (chunk_size : Z) :
  merge_chunks (process_csv_file fieldnames rows chunk_size)
  = join (newline ++ newline)
         (map text (process_csv_file fieldnames rows chunk_size)).
Proof.
  apply merge_chunks_rows, process_csv_file_rows_like.
Qed.

(* ================================================================== *)
(** * Further properties of the services *)

(** ** Rounding is monotone *)

Lemma pow10_pos (n : nat) : (0 < inject_Z (10 ^ Z.of_nat n))%Q.
Proof.
  change 0%Q with (inject_Z 0). rewrite <- Zlt_Qlt.
  apply Z.pow_pos_nonneg; lia.
Qed.

(** [round(x, n)] is monotone in [x]. *)
Lemma py_round_mono (n : nat) (x y : Q) :
  (x <= y)%Q -> (py_round x n <= py_round y n)%Q.
Proof.
  intro H. unfold py_round. pose proof (pow10_pos n) as HS.
  set (S := inject_Z (10 ^ Z.of_nat n)) in *.
  apply double_mono, Qdiv_le_pos; [exact HS|].
  rewrite <- Zle_Qle. apply round_half_even_mono.
  apply Qmult_le_compat_r; [exact H|lra].
Qed.

Lemma fadd_mono (a b c : Q) : (a <= b)%Q -> (fadd a c <= fadd b c)%Q.
Proof. intro H. apply double_mono. lra. Qed.

Lemma fdiv_mono (a b c : Q) :
  (0 < c)%Q -> (a <= b)%Q -> (fdiv a c <= fdiv b c)%Q.
Proof. intros Hc H. apply double_mono, Qdiv_le_pos; assumption. Qed.

Lemma score_of_mono (p q : Q) : (p <= q)%Q -> (score_of p <= score_of q)%Q.
Proof.
  intro H. unfold score_of.
  apply py_round_mono, fdiv_mono; [reflexivity|]. apply fadd_mono, H.
Qed.

Example score_bounds :
  (score_of (-1) == 0)%Q /\ (score_of 1 == 1)%Q
  /\ (py_round (-1) 4 == -1)%Q /\ (py_round 1 4 == 1)%Q /\ (py_round 0 4 == 0)%Q
  /\ (score_of (double (1 # 10)) == double (55 # 100))%Q
  /\ (score_of (- double (1 # 10)) == double (45 # 100))%Q
  /\ (py_round (double (1 # 10)) 4 == double (1 # 10))%Q
  /\ (py_round (- double (1 # 10)) 4 == - double (1 # 10))%Q.
Proof. vm_compute. repeat split. Qed.


(** ** analyze_sentiment *)

Lemma Qgtb_true (a b : Q) : Qgtb a b = true -> (b < a)%Q.
Proof.
  unfold Qgtb. intro H. apply negb_true_iff in H.
  apply Qnot_le_lt. intro Hle. apply Qle_bool_iff in Hle. congruence.
Qed.

Lemma Qgtb_false (a b : Q) : Qgtb a b = false -> (a <= b)%Q.
Proof.
  unfold Qgtb. intro H. apply negb_false_iff in H.
  apply Qle_bool_iff. exact H.
Qed.

(** X14.  [analyze_sentiment] never raises, and when the sentiment library
    answers within its documented ranges (or raises), the score is in
    [0, 1], the polarity in [-1, 1] and the subjectivity in [0, 1]. *)
Theorem analyze_sentiment_in_range (L : Libs) (text lang : pystr) :
  textblob_in_range L text ->
  exists s,
    Services.analyze_sentiment L text lang = Ok s /\ sentiment_in_range s.
Proof.
  intro HL. unfold Services.analyze_sentiment, sentiment_in_range.
  destruct (textblob_sentiment L text) as [[p sub]|e] eqn:E;
    cbn [try_except bind fst snd].
  - destruct (HL p sub E) as (Hp1 & Hp2 & Hs1 & Hs2).
    eexists. split; [reflexivity|].
    cbn [sr_score sr_polarity sr_subjectivity].
    fold (score_of p).
    destruct score_bounds as (S0 & S1 & P0 & P1 & Z0 & _).
    repeat split.
    + rewrite <- S0. apply score_of_mono, Hp1.
    + rewrite <- S1. apply score_of_mono, Hp2.
    + rewrite <- P0. apply py_round_mono, Hp1.
    + rewrite <- P1. apply py_round_mono, Hp2.
    + rewrite <- Z0. apply py_round_mono, Hs1.
    + rewrite <- P1. apply py_round_mono, Hs2.
  - eexists. split; [reflexivity|]. simpl. repeat split; lra.
Qed.

Lemma analyze_sentiment_in_range_witness :
  exists s,
    Services.analyze_sentiment steady_libs (str "fine") (str "en") = Ok s
    /\ sentiment_in_range s.
Proof.
  apply (analyze_sentiment_in_range steady_libs (str "fine") (str "en")).
  intros p sub E. injection E as <- <-. repeat split; lra.
Defined.

(** X15.  [analyze_sentiment] never raises and its label agrees with its
    numbers, the thresholds being the doubles that Python reads 0.1, 0.45
    and 0.55 as: 'positive' comes with a score of at least 0.55,
    'negative' with at most 0.45, 'neutral' with a score between them, and
    there is no other label. *)
Theorem analyze_sentiment_label_agrees (L : Libs) (text lang : pystr) :
  exists s, Services.analyze_sentiment L text lang = Ok s /\ label_agrees s.
Proof.
  unfold Services.analyze_sentiment, label_agrees.
  destruct (textblob_sentiment L text) as [[p sub]|e];
    cbn [try_except bind fst snd].
  - eexists. split; [reflexivity|].
    cbn [sr_sentiment sr_score sr_polarity]. fold (score_of p).
    destruct score_bounds as (_ & _ & _ & _ & _ & Sp & Sn & Pp & Pn).
    destruct (Qgtb p (double (1 # 10))) eqn:Hpos.
    + left. apply Qgtb_true, Qlt_le_weak in Hpos.
      split; [reflexivity|]. split.
      * rewrite <- Sp. apply score_of_mono, Hpos.
      * rewrite <- Pp. apply py_round_mono, Hpos.
    + apply Qgtb_false in Hpos.
      destruct (Qgtb (- double (1 # 10)) p) eqn:Hneg.
      * right. left. apply Qgtb_true, Qlt_le_weak in Hneg.
        split; [reflexivity|]. split.
        -- rewrite <- Sn. apply score_of_mono, Hneg.
        -- rewrite <- Pn. apply py_round_mono, Hneg.
      * right. right. apply Qgtb_false in Hneg. split; [reflexivity|].
        repeat split.
        -- rewrite <- Sn. apply score_of_mono, Hneg.
        -- rewrite <- Sp. apply score_of_mono, Hpos.
        -- rewrite <- Pn. apply py_round_mono, Hneg.
        -- rewrite <- Pp. apply py_round_mono, Hpos.
  - eexists. split; [reflexivity|]. right. right.
    cbn [sr_sentiment sr_score sr_polarity].
    split; [reflexivity|]. vm_compute. repeat split; discriminate.
Qed.

(** ** translate_text, detect_language, the language tables *)

(** X16.  [translate_text] never raises.  Its result keeps the original
    text; with the key 'error' the translated text is the original text;
    without it the translated text is not empty.  A blank input gives the
    error 'Text cannot be empty' whatever the translator would do. *)
Theorem translate_text_result (L : Libs) (text target : pystr)
    (source : option pystr) :
  exists r,
    Services.translate_text L text target source = Ok r
    /\ tr_original_text r = text
    /\ tr_target_lang r = target
    /\ (tr_error r <> None -> tr_translated_text r = text)
    /\ (tr_error r = None -> tr_translated_text r <> [] /\ blank text = false)
    /\ (blank text = true -> tr_error r = Some (str "Text cannot be empty")).
Proof.
  unfold Services.translate_text. rewrite empty_guard.
  destruct (blank text) eqn:B.
  - eexists. split; [reflexivity|]. simpl.
    repeat split; auto; discriminate.
  - assert (Hne : text <> []) by (intros ->; discriminate).
    match goal with
    | |- context [google_translate L ?s ?t ?x] =>
        destruct (google_translate L s t x) as [[t'|]|e]; simpl
    end.
    + eexists. split; [reflexivity|]. simpl.
      repeat split; try congruence.
      destruct t'; simpl; [exact Hne|discriminate].
    + eexists. split; [reflexivity|]. simpl. repeat split; congruence.
    + eexists. split; [reflexivity|]. simpl.
      repeat split; auto; discriminate.
Qed.

(** X17.  [detect_language] never raises.  It returns the default, or the
    lower-cased answer of the detector on the cleaned text when cleaning
    leaves something and the detector answers; a blank text gives the
    default. *)
Theorem detect_language_result (L : Libs) (text default : pystr) :
  exists l,
    Services.detect_language L text default = Ok l
    /\ (l = default
        \/ exists cleaned raw,
             clean_text L text = Ok cleaned
             /\ blank cleaned = false
             /\ langdetect_detect L cleaned = Ok raw
             /\ l = lower raw)
    /\ (blank text = true -> l = default).
Proof.
  unfold Services.detect_language. rewrite empty_guard.
  destruct (blank text) eqn:B; [eauto|].
  destruct (clean_text L text) as [cleaned|e] eqn:C; simpl;
    [|exists default; repeat split; auto; discriminate].
  rewrite truthy_strip, negb_involutive.
  destruct (blank cleaned) eqn:Bc; simpl;
    [exists default; repeat split; auto; discriminate|].
  destruct (langdetect_detect L cleaned) as [raw|e] eqn:D; simpl.
  - exists (lower raw). split; [reflexivity|].
    split; [|discriminate]. right. exists cleaned, raw. auto.
  - exists default. repeat split; auto; discriminate.
Qed.

Lemma dict_has_subset (small big : list (pystr * pystr)) (k : pystr) :
  forallb (fun kv => dict_has big (fst kv)) small = true ->
  dict_has small k = true -> dict_has big k = true.
Proof.
  unfold dict_has at 2.
  induction small as [|[k' v] small IH]; simpl; [discriminate|].
  intros H. apply andb_true_iff in H as [H1 H2].
  destruct (eqb k k') eqn:E.
  - intros _. apply eqb_eq in E. subst. exact H1.
  - apply IH, H2.
Qed.

(** X18.  Every language code [translation.py] reports as supported is
    also a supported language of [language.py], in any letter case. *)
Theorem translation_languages_are_detectable (lang_code : pystr) :
  is_language_supported lang_code = true ->
  is_supported_language lang_code = true.
Proof.
  unfold is_language_supported, is_supported_language.
  apply dict_has_subset. reflexivity.
Qed.

Lemma translation_languages_are_detectable_witness :
  is_supported_language (str "ES") = true.
Proof.
  apply (translation_languages_are_detectable (str "ES")). reflexivity.
Defined.

(* ================================================================== *)
(** * Further properties of app.py *)

(** ** allowed_file *)

Lemma existsb_eqb_In (c : N) (s : pystr) :
  existsb (N.eqb c) s = true <-> In c s.
Proof.
  rewrite existsb_exists. split.
  - intros (x & Hx & E). apply N.eqb_eq in E. subst. exact Hx.
  - intro H. exists c. split; [exact H|apply N.eqb_refl].
Qed.

Lemma rsplit1_aux_none (sep : N) (s : pystr) :
  rsplit1_aux sep s = None <-> ~ In sep s.
Proof.
  induction s as [|x s IH]; simpl; [tauto|].
  destruct (rsplit1_aux sep s) as [[a b]|].
  - split; [discriminate|]. intro H. exfalso.
    assert (Hin : In sep s).
    { destruct (in_dec N.eq_dec sep s) as [Hin|Hn]; [exact Hin|].
      apply IH in Hn. discriminate. }
    tauto.
  - destruct (N.eqb_spec x sep) as [->|Hne].
    + split; [discriminate|]. tauto.
    + split; [|reflexivity]. intros _ [E|Hin]; [congruence|].
      apply (proj1 IH eq_refl), Hin.
Qed.

(** The split is at the last separator. *)
Lemma rsplit1_aux_some (sep : N) (s a b : pystr) :
  rsplit1_aux sep s = Some (a, b)
  <-> s = a ++ [sep] ++ b /\ ~ In sep b.
Proof.
  revert a b. induction s as [|x s IH]; intros a b; simpl.
  - split; [discriminate|]. intros [E _]. destruct a; discriminate.
  - destruct (rsplit1_aux sep s) as [[a' b']|] eqn:R.
    + destruct (proj1 (IH a' b') eq_refl) as [Es Hb'].
      split.
      * intro E. injection E as <- <-. split; [|exact Hb'].
        simpl. f_equal. exact Es.
      * intros [E Hb]. destruct a as [|y a]; simpl in E.
        -- injection E as -> ->. apply rsplit1_aux_none in Hb. congruence.
        -- injection E as -> E.
           assert (R' : Some (a', b') = Some (a, b)) by (apply IH; auto).
           injection R' as -> ->. reflexivity.
    + apply rsplit1_aux_none in R.
      destruct (N.eqb_spec x sep) as [->|Hne].
      * split.
        -- intro E. injection E as <- <-. auto.
        -- intros [E Hb]. destruct a as [|y a]; simpl in E.
           ++ injection E as ->. reflexivity.
           ++ injection E as -> E. exfalso. apply R. rewrite E.
              apply in_or_app. right. left. reflexivity.
      * split; [discriminate|]. intros [E Hb].
        destruct a as [|y a]; simpl in E.
        -- injection E as -> _. congruence.
        -- injection E as -> E. exfalso. apply R. rewrite E.
           apply in_or_app. right. left. reflexivity.
Qed.

(** X19.  [allowed_file] accepts exactly the names whose part after the
    last full stop is "csv" or "txt" in any letter case; a name without a
    full stop is refused. *)
Theorem allowed_file_iff (filename : pystr) :
  allowed_file filename = true
  <-> exists base ext,
        filename = base ++ [46%N] ++ ext
        /\ ~ In 46%N ext
        /\ (lower ext = str "csv" \/ lower ext = str "txt").
Proof.
  unfold allowed_file, rsplit1, ALLOWED_EXTENSIONS.
  rewrite andb_true_iff, existsb_eqb_In. split.
  - intros [Hin H].
    destruct (rsplit1_aux 46 filename) as [[a b]|] eqn:R;
      [|apply rsplit1_aux_none in R; tauto].
    apply rsplit1_aux_some in R as [E Hb]. simpl in H.
    exists a, b. split; [exact E|]. split; [exact Hb|].
    rewrite orb_false_r in H. apply orb_true_iff in H as [H|H];
      apply eqb_eq in H; auto.
  - intros (base & ext & E & Hn & Hl).
    assert (R : rsplit1_aux 46 filename = Some (base, ext))
      by (apply rsplit1_aux_some; auto).
    rewrite R. simpl. split.
    + rewrite E. apply in_or_app. right. left. reflexivity.
    + rewrite orb_false_r. apply orb_true_iff.
      destruct Hl as [-> | ->]; [left|right]; reflexivity.
Qed.

Example allowed_file_examples :
  allowed_file (str "reviews.CSV") = true
  /\ allowed_file (str "notes.v2.txt") = true
  /\ allowed_file (str "reviews.json") = false
  /\ allowed_file (str "csv") = false
  /\ allowed_file (str "archive.txt.") = false.
Proof. repeat split. Qed.

(** ** The results of the loop *)

Section LoopResults.

Variable detect_language : pystr -> Exc pystr.
Variable translate_text :
  pystr -> pystr -> option pystr -> Exc TranslationResult.
Variable analyze_sentiment : pystr -> pystr -> Exc SentimentResult.

(** What holds of the result of every chunk holds of all the results. *)
Lemma process_chunks_Forall (P : ChunkResult -> Prop) :
  (forall c r,
      process_chunk detect_language translate_text analyze_sentiment c
      = Ok (Some r) -> P r) ->
  forall chunks results,
    process_chunks detect_language translate_text analyze_sentiment chunks
    = Ok results ->
    Forall P results.
Proof.
  intros HP. induction chunks as [|c chunks IH]; simpl; intros results E.
  - injection E as <-. constructor.
  - destruct (process_chunk _ _ _ c) as [[r|]|e] eqn:Ec; simpl in E;
      try discriminate;
      destruct (process_chunks _ _ _ chunks) as [rs|e]; simpl in E;
      try discriminate; injection E as <-.
    + constructor; [apply (HP c), Ec|apply IH; reflexivity].
    + apply IH. reflexivity.
Qed.

Lemma process_chunk_consistent (c : Chunk) (r : ChunkResult) :
  process_chunk detect_language translate_text analyze_sentiment c
  = Ok (Some r) ->
  result_consistent r.
Proof.
  unfold process_chunk. rewrite truthy_strip, negb_involutive.
  destruct (blank (text c)) eqn:B; [discriminate|].
  destruct (resolve_language detect_language c) as [lang|e]; simpl;
    [|discriminate].
  unfold translate_step.
  destruct (eqb lang (str "en")) eqn:El; simpl.
  - destruct (analyze_sentiment (text c) (str "en")); simpl; [|discriminate].
    intro E. injection E as <-. unfold result_consistent. simpl.
    repeat split; auto; discriminate.
  - apply eqb_neq in El.
    destruct (translate_text (text c) (str "en") (Some lang)) as [t|e]; simpl.
    + destruct (tr_error t); simpl;
        match goal with
        | |- context [analyze_sentiment ?x ?y] =>
            destruct (analyze_sentiment x y); simpl; [|discriminate]
        end;
        intro E; injection E as <-; unfold result_consistent; simpl;
        repeat split; auto; discriminate.
    + destruct (analyze_sentiment (text c) (str "en")); simpl;
        [|discriminate].
      intro E. injection E as <-. unfold result_consistent. simpl.
      repeat split; auto; discriminate.
Qed.

(** X20.  In the reply of a batch that completed, with any collaborators:
    every result has an original text that is not blank, keeps that text
    when it was not translated, and was translated only if its language is
    not 'en'. *)
Theorem upload_results_consistent (fname : pystr) (chunks : list Chunk)
    (d : ResponseData) :
  upload_chunks detect_language translate_text analyze_sentiment fname chunks
    = Http200 d ->
  Forall result_consistent (analysis_results d).
Proof.
  unfold upload_chunks.
  destruct (process_chunks _ _ _ chunks) as [results|e] eqn:E;
    [|discriminate].
  intro H. injection H as <-. simpl.
  apply (process_chunks_Forall _ process_chunk_consistent _ _ E).
Qed.

End LoopResults.

Lemma upload_results_consistent_witness :
  exists d,
    upload_file offline_libs (str "reviews.txt") [hola; hola] = Http200 d
    /\ Forall result_consistent (analysis_results d).
Proof.
  eexists. split; [reflexivity|].
  apply (upload_results_consistent (detect offline_libs)
           (translate offline_libs) (score offline_libs)
           (str "reviews.txt") [hola; hola]).
  reflexivity.
Defined.

Lemma translate_text_translated_nonempty (L : Libs) (text target : pystr)
    (source : option pystr) (r : TranslationResult) :
  text <> [] ->
  Services.translate_text L text target source = Ok r ->
  tr_translated_text r <> [].
Proof.
  intros Hne. unfold Services.translate_text.
  destruct (negb (truthy text) || negb (truthy (strip text)));
    [intro E; injection E as <-; exact Hne|].
  match goal with
  | |- context [google_translate L ?s ?t ?x] =>
      destruct (google_translate L s t x) as [[t'|]|e]; simpl
  end; intro E; injection E as <-; simpl; try exact Hne.
  destruct t'; simpl; [exact Hne|discriminate].
Qed.

Lemma process_chunk_processed_nonempty (L : Libs) (c : Chunk)
    (r : ChunkResult) :
  process_chunk (detect L) (translate L) (score L) c = Ok (Some r) ->
  processed_text r <> [].
Proof.
  unfold process_chunk. rewrite truthy_strip, negb_involutive.
  destruct (blank (text c)) eqn:B; [discriminate|].
  assert (Hne : text c <> []) by (intro E; rewrite E in B; discriminate).
  destruct (resolve_language (detect L) c) as [lang|e]; simpl;
    [|discriminate].
  unfold translate_step.
  destruct (negb (eqb lang (str "en"))); simpl.
  - destruct (translate L (text c) (str "en") (Some lang)) as [t|e] eqn:T;
      simpl.
    + destruct (tr_error t); simpl;
        match goal with
        | |- context [score L ?x ?y] =>
            destruct (score L x y); simpl; [|discriminate]
        end;
        intro E; injection E as <-; simpl; [exact Hne|].
      apply (translate_text_translated_nonempty _ _ _ _ _ Hne T).
    + destruct (score L (text c) (str "en")); simpl; [|discriminate].
      intro E. injection E as <-. exact Hne.
  - destruct (score L (text c) (str "en")); simpl; [|discriminate].
    intro E. injection E as <-. exact Hne.
Qed.

(** X21.  With the services of the repository, whatever the libraries do,
    every result of a batch has a processed text that is not empty: a
    translation that comes back empty is replaced by the original text. *)
Theorem upload_file_processed_text_nonempty (L : Libs) (fname : pystr)
    (chunks : list Chunk) :
  exists d,
    upload_file L fname chunks = Http200 d
    /\ Forall (fun r => processed_text r <> []) (analysis_results d).
Proof.
  destruct (process_chunks_returns L chunks) as (results & E & _).
  exists (response_data fname results). split.
  - unfold upload_file, upload_chunks. rewrite E. reflexivity.
  - simpl.
    apply (process_chunks_Forall _ _ _ _
             (process_chunk_processed_nonempty L) _ _ E).
Qed.

(** ** The counters of the summary *)

(** X22.  In the reply to any batch, the three counters of the sentiment
    distribution are not negative and add up to the number of reviews
    analysed, which is the number of results. *)
Theorem upload_file_distribution_total (L : Libs) (fname : pystr)
    (chunks : list Chunk) :
  exists d,
    upload_file L fname chunks = Http200 d
    /\ 0 <= positive (sentiment_distribution (summary d))
    /\ 0 <= neutral (sentiment_distribution (summary d))
    /\ 0 <= negative (sentiment_distribution (summary d))
    /\ counted (sentiment_distribution (summary d))
       = total_reviews_analyzed (summary d)
    /\ total_reviews_analyzed (summary d) = len (analysis_results d).
Proof.
  destruct (process_chunks_returns L chunks) as (results & E & F).
  exists (response_data fname results). split.
  { unfold upload_file, upload_chunks. rewrite E. reflexivity. }
  apply chunk_outcomes_recognised in F. simpl. unfold generate_summary.
  destruct results as [|r rs];
    [simpl; unfold counted, len; simpl; repeat split; lia|].
  replace (len (r :: rs) =? 0) with false
    by (symmetry; apply Z.eqb_neq; unfold len; simpl List.length; lia).
  cbn [sentiment_distribution total_reviews_analyzed].
  destruct (sentiment_counts_nonneg (r :: rs)) as (H1 & H2 & H3).
  repeat split; try assumption.
  rewrite sentiment_counts_counted.
  apply (count_if_all (fun r => recognised (sentiment r))), F.
Qed.

Lemma filter_none {A} (p : A -> bool) (l : list A) :
  Forall (fun x => p x = false) l -> filter p l = [].
Proof.
  induction 1 as [|x l Hx _ IH]; simpl; [reflexivity|].
  rewrite Hx. exact IH.
Qed.

Lemma nodup_all_same (x : pystr) (l : list pystr) :
  l <> [] -> Forall (fun y => y = x) l -> nodup pystr_eq_dec l = [x].
Proof.
  intros Hne F. induction F as [|y l -> F IH]; [congruence|].
  simpl. destruct (in_dec pystr_eq_dec x l) as [Hin|Hn].
  - apply IH. intros ->. destruct Hin.
  - destruct l as [|z l]; [reflexivity|].
    inversion F; subst. exfalso. apply Hn. left. reflexivity.
Qed.

(** X23.  A batch whose results are all in English, with any
    collaborators: the summary reports no translation and the one language
    'en'. *)
Theorem english_batch_summary (dl : pystr -> Exc pystr)
    (tt : pystr -> pystr -> option pystr -> Exc TranslationResult)
    (sc : pystr -> pystr -> Exc SentimentResult)
    (fname : pystr) (chunks : list Chunk) (d : ResponseData) :
  upload_chunks dl tt sc fname chunks = Http200 d ->
  analysis_results d <> [] ->
  Forall (fun r => detected_language r = str "en") (analysis_results d) ->
  translations_performed (summary d) = 0
  /\ languages_detected (summary d) = [str "en"].
Proof.
  unfold upload_chunks.
  destruct (process_chunks dl tt sc chunks) as [results|e] eqn:E;
    [|discriminate].
  intro H. injection H as <-. simpl. intros Hne Hen.
  pose proof (process_chunks_Forall dl tt sc _
                (process_chunk_consistent dl tt sc) _ _ E) as Hc.
  unfold generate_summary.
  destruct results as [|r rs]; [congruence|].
  replace (len (r :: rs) =? 0) with false
    by (symmetry; apply Z.eqb_neq; unfold len; simpl List.length; lia).
  cbn [translations_performed languages_detected]. split.
  - unfold count_if.
    rewrite filter_none; [reflexivity|].
    rewrite Forall_forall in *. intros x Hx.
    destruct (was_translated x) eqn:W; [|reflexivity].
    exfalso. apply (proj2 (proj2 (Hc x Hx)) W), Hen, Hx.
  - apply nodup_all_same; [discriminate|].
    apply Forall_map. exact Hen.
Qed.

Lemma english_batch_summary_witness :
  exists d,
    upload_chunks (fun _ => Ok (str "en")) (translate offline_libs)
                  (score offline_libs) (str "reviews.txt") [hola] = Http200 d
    /\ translations_performed (summary d) = 0
    /\ languages_detected (summary d) = [str "en"].
Proof.
  eexists. split; [reflexivity|].
  apply (english_batch_summary (fun _ => Ok (str "en"))
           (translate offline_libs) (score offline_libs)
           (str "reviews.txt") [hola]).
  - reflexivity.
  - discriminate.
  - repeat constructor.
Defined.

(** ** The average score *)

Lemma fsum_bounds (qs : list Q) :
  Forall (fun q => (0 <= q)%Q /\ (q <= 1)%Q) qs ->
  forall (acc : Q) (k : Z),
    0 <= k -> (0 <= acc)%Q -> (acc <= inject_Z (Z.min k (2 ^ 53)))%Q ->
    (0 <= fold_left fadd qs acc)%Q
    /\ (fold_left fadd qs acc <= inject_Z (Z.min (k + len qs) (2 ^ 53)))%Q.
Proof.
  induction 1 as [|q qs [H0 H1] _ IH]; intros acc k Hk A0 A1; cbn [fold_left].
  - unfold len. simpl. rewrite Z.add_0_r. split; assumption.
  - replace (k + len (q :: qs)) with ((k + 1) + len qs)
      by (unfold len; simpl List.length; lia).
    apply IH; [lia| |].
    + change 0%Q with (double 0). apply double_mono. lra.
    + unfold fadd. destruct (Z.le_gt_cases (k + 1) (2 ^ 53)) as [C|C].
      * rewrite Z.min_l in * by lia.
        rewrite <- (double_int (k + 1)) by lia. apply double_mono.
        rewrite inject_Z_plus. change (inject_Z 1) with 1%Q. lra.
      * rewrite Z.min_r in * by lia.
        apply Qle_trans with (double (inject_Z (2 ^ 53) + 1)).
        -- apply double_mono. lra.
        -- vm_compute. discriminate.
Qed.

Lemma average_in_range (scores : list Q) :
  scores <> [] ->
  Forall (fun q => (0 <= q)%Q /\ (q <= 1)%Q) scores ->
  let avg := fdiv (fsum scores) (float_of_int (len scores)) in
  (0 <= py_round avg 3)%Q /\ (py_round avg 3 <= 1)%Q.
Proof.
  intros Hne F avg.
  assert (Hn : 1 <= len scores).
  { destruct scores; [congruence|]. unfold len. simpl List.length. lia. }
  destruct (fsum_bounds scores F 0 0 ltac:(lia) ltac:(lra)
              ltac:(vm_compute; discriminate))
    as [S0 S1]. fold (fsum scores) in S0, S1. rewrite Z.add_0_l in S1.
  set (n := len scores) in *. set (s := fsum scores) in *.
  assert (D1 : (1 <= float_of_int n)%Q).
  { unfold float_of_int. rewrite <- double_1. apply double_mono.
    change 1%Q with (inject_Z 1). rewrite <- Zle_Qle. exact Hn. }
  assert (Ds : (s <= float_of_int n)%Q).
  { apply Qle_trans with (inject_Z (Z.min n (2 ^ 53))); [exact S1|].
    unfold float_of_int. destruct (Z.le_gt_cases n (2 ^ 53)) as [C|C].
    - rewrite Z.min_l by lia. rewrite double_int by lia. apply Qle_refl.
    - rewrite Z.min_r by lia. rewrite <- (double_int (2 ^ 53)) by lia.
      apply double_mono. rewrite <- Zle_Qle. lia. }
  assert (A0 : (0 <= avg)%Q).
  { unfold avg, fdiv. change 0%Q with (double 0). apply double_mono.
    apply Qle_shift_div_l; lra. }
  assert (A1 : (avg <= 1)%Q).
  { unfold avg, fdiv. rewrite <- double_1. apply double_mono.
    apply Qle_shift_div_r; lra. }
  split.
  - apply Qle_trans with (py_round 0 3); [vm_compute; discriminate|].
    apply py_round_mono, A0.
  - apply Qle_trans with (py_round 1 3); [apply py_round_mono, A1|].
    vm_compute. discriminate.
Qed.

(** X24.  When every result has a score between 0 and 1, so has the
    average score of the summary (0 for an empty batch). *)
Theorem generate_summary_average_in_range (rs : list ChunkResult) :
  Forall (fun r => (0 <= sentiment_score r)%Q /\ (sentiment_score r <= 1)%Q)
         rs ->
  (0 <= average_sentiment_score (generate_summary rs))%Q
  /\ (average_sentiment_score (generate_summary rs) <= 1)%Q.
Proof.
  intro F. unfold generate_summary.
  destruct rs as [|r rs]; [simpl; split; lra|].
  replace (len (r :: rs) =? 0) with false
    by (symmetry; apply Z.eqb_neq; unfold len; simpl List.length; lia).
  cbn [average_sentiment_score].
  apply average_in_range; [discriminate|].
  apply Forall_map. exact F.
Qed.

Lemma generate_summary_average_in_range_witness :
  exists d,
    upload_file steady_libs (str "reviews.txt") [hola; hola] = Http200 d
    /\ (0 <= average_sentiment_score (summary d))%Q
    /\ (average_sentiment_score (summary d) <= 1)%Q.
Proof.
  eexists. split; [reflexivity|].
  apply generate_summary_average_in_range.
  repeat constructor; vm_compute; discriminate.
Defined.

(** ** The sample sent to Ollama *)

Lemma range_step_in_bounds (stop step : Z) :
  0 < step ->
  Forall (fun i => 0 <= i < stop) (range_step stop step).
Proof.
  intro Hs. unfold range_step. apply Forall_map, Forall_forall.
  intros k Hk. apply in_seq in Hk.
  set (q := (stop + step - 1) / step) in *.
  assert (Hq : q * step <= stop + step - 1)
    by (rewrite Z.mul_comm; apply Z.mul_div_le; exact Hs).
  assert (Hk' : Z.of_nat k < q) by lia.
  nia.
Qed.

Lemma range_step_length (total : Z) :
  0 <= total ->
  Z.min 10 (len (range_step total (Z.max 1 (total / 10)))) = Z.min 10 total.
Proof.
  intro H0. unfold range_step, len. rewrite length_map, length_seq.
  set (step := Z.max 1 (total / 10)).
  assert (Hs : 0 < step) by lia.
  assert (Hq0 : 0 <= (total + step - 1) / step)
    by (apply Z.div_pos; lia).
  rewrite Z2Nat.id by exact Hq0.
  destruct (Z.lt_ge_cases total 10) as [Hlt|Hge].
  - assert (E : total / 10 = 0) by (apply Z.div_small; lia).
    assert (E1 : step = 1) by lia.
    rewrite E1, Z.div_1_r. lia.
  - assert (H10 : 1 <= total / 10)
      by (apply Z.div_le_lower_bound; lia).
    assert (E1 : step = total / 10) by lia.
    assert (Hmul : 10 * step <= total)
      by (rewrite E1; apply Z.mul_div_le; lia).
    assert (Hq : 10 <= (total + step - 1) / step)
      by (apply Z.div_le_lower_bound; nia).
    lia.
Qed.

Lemma firstn_seq_min (n a m : nat) :
  firstn n (seq a m) = seq a (Nat.min n m).
Proof.
  revert a m. induction n as [|n IH]; intros a [|m]; simpl; try reflexivity.
  rewrite IH. reflexivity.
Qed.

(** The loop takes the excerpts at the first indices, up to 10 in all. *)
Lemma sample_fold (rs : list ChunkResult) (idxs : list Z) :
  Forall (fun i => 0 <= i < len rs) idxs ->
  forall acc,
    (List.length acc <= 10)%nat ->
    exists tail,
      fold_left (sample_step rs) idxs (Some acc) = Some (acc ++ tail)
      /\ Forall2 (fun i x => excerpt_at rs i = Some x)
                 (firstn (10 - List.length acc) idxs) tail.
Proof.
  induction 1 as [|i idxs Hi _ IH]; intros acc Hacc; cbn [fold_left].
  - exists []. rewrite app_nil_r, firstn_nil. split; [reflexivity|constructor].
  - unfold sample_step at 2. destruct (len acc <? 10) eqn:C.
    + apply Z.ltb_lt in C. unfold len in *.
      destruct (nth_error rs (Z.to_nat i)) as [r|] eqn:N;
        [|apply nth_error_None in N; lia].
      destruct (IH (acc ++ [firstn 200 (processed_text r)])) as (tail & E & F).
      { rewrite length_app. simpl. lia. }
      exists (firstn 200 (processed_text r) :: tail).
      rewrite E, <- app_assoc. split; [reflexivity|].
      rewrite length_app in F. simpl in F.
      replace (10 - List.length acc)%nat
        with (S (10 - (List.length acc + 1)))%nat by lia.
      simpl. constructor; [|exact F].
      unfold excerpt_at. rewrite N. reflexivity.
    + apply Z.ltb_ge in C. unfold len in C.
      destruct (IH acc Hacc) as (tail & E & F).
      replace (10 - List.length acc)%nat with 0%nat in * by lia.
      simpl in F. inversion F; subst.
      exists []. rewrite app_nil_r in *. split; [exact E|constructor].
Qed.

(** X25.  The sampling loop of [generate_summary] never indexes out of
    range.  It takes [min(10, total)] excerpts, each of at most 200
    characters: the k-th is the start of the processed text of the result
    at index [k * step], with [step = max(1, total // 10)]. *)
Theorem sample_reviews_result (rs : list ChunkResult) :
  exists sample,
    sample_reviews rs = Some sample
    /\ len sample = Z.min 10 (len rs)
    /\ Forall (fun x => len x <= 200) sample
    /\ Forall2 (fun k x =>
                  excerpt_at rs (Z.of_nat k * Z.max 1 (len rs / 10)) = Some x)
               (seq 0 (List.length sample)) sample.
Proof.
  unfold sample_reviews.
  set (total := len rs). set (step := Z.max 1 (total / 10)).
  assert (H0 : 0 <= total) by (unfold total, len; lia).
  destruct (sample_fold rs (range_step total step)
              (range_step_in_bounds total step ltac:(lia)) [] ltac:(simpl; lia))
    as (sample & E & F).
  exists sample. change ([] ++ sample) with sample in E.
  change (10 - List.length (@nil pystr))%nat with 10%nat in F.
  split; [exact E|].
  assert (Hlen : len sample = Z.min 10 total).
  { rewrite <- (range_step_length total H0). fold step.
    apply Forall2_length in F as Hl. rewrite length_firstn in Hl.
    unfold len. lia. }
  split; [exact Hlen|]. split.
  - clear - F. induction F as [|i x idxs sample Hi _ IH]; constructor; auto.
    unfold excerpt_at in Hi.
    destruct (nth_error rs (Z.to_nat i)) as [r|]; [|discriminate].
    cbn [option_map] in Hi.
    assert (Hx : firstn 200 (processed_text r) = x) by congruence.
    rewrite <- Hx. unfold len. rewrite length_firstn. lia.
  - unfold range_step in F. rewrite firstn_map, firstn_seq_min in F.
    apply Forall2_length in F as Hl. rewrite length_map, length_seq in Hl.
    rewrite Hl in F. clear - F.
    remember (seq 0 (List.length sample)) as ks.
    clear Heqks. revert sample F.
    induction ks as [|k ks IH]; intros sample F; inversion F; subst;
      constructor; auto.
Qed.

(** ** From the file to the results: no chunk is skipped *)

Lemma process_text_file_not_blank (lines : list pystr) :
  Forall (fun c => blank (text c) = false) (process_text_file lines).
Proof.
  unfold process_text_file. apply Forall_flat_map, Forall_forall.
  intros [i l] _. unfold line_chunk.
  destruct (truthy (strip l)) eqn:T; constructor; [|constructor].
  simpl. apply strip_not_blank. intro E. rewrite E in T. discriminate.
Qed.

Lemma row_text_not_blank (row : Row) :
  row <> [] -> blank (row_text row) = false.
Proof.
  destruct row as [|[k v] row]; [congruence|]. intros _.
  unfold row_text. cbn [map fst snd].
  assert (H : blank (k ++ str ": " ++ v) = false).
  { rewrite !blank_app. change (blank (str ": ")) with false.
    rewrite andb_false_r. reflexivity. }
  cbn [join].
  match goal with
  | |- context [match ?m with [] => _ | _ :: _ => _ end] => destruct m
  end; [exact H|].
  rewrite blank_app, H. reflexivity.
Qed.

Lemma join_not_blank (sep : pystr) (l : list pystr) :
  l <> [] -> Forall (fun x => blank x = false) l ->
  blank (join sep l) = false.
Proof.
  intros Hne F. destruct F as [|x l Hx F]; [congruence|].
  destruct l; simpl; [exact Hx|]. rewrite blank_app, Hx. reflexivity.
Qed.

Lemma csv_step_not_blank (fieldnames : option (list pystr)) (chunk_size i : Z)
    (st : CsvState) (row : Row) :
  row <> [] ->
  Forall (fun c => blank (text c) = false) (c_chunks st)
  /\ Forall (fun x => blank x = false) (c_current st) ->
  let st' := csv_step fieldnames chunk_size st (i, row) in
  Forall (fun c => blank (text c) = false) (c_chunks st')
  /\ Forall (fun x => blank x = false) (c_current st').
Proof.
  intros Hrow [Hc Hcur]. apply row_text_not_blank in Hrow.
  unfold csv_step.
  destruct ((c_length st + len (row_text row) >? chunk_size)
            && truthy (c_current st)) eqn:C; simpl.
  - apply andb_true_iff in C as [_ C]. split.
    + apply Forall_app. split; [exact Hc|]. constructor; [|constructor].
      simpl. apply join_not_blank; [|exact Hcur].
      intro E. rewrite E in C. discriminate.
    + repeat constructor. exact Hrow.
  - split; [exact Hc|]. apply Forall_app. split; [exact Hcur|].
    repeat constructor. exact Hrow.
Qed.

Lemma process_csv_file_not_blank (fieldnames : option (list pystr))
    (rows : list Row) (chunk_size : Z) :
  Forall (fun row => row <> []) rows ->
  Forall (fun c => blank (text c) = false)
         (process_csv_file fieldnames rows chunk_size).
Proof.
  intro Hrows. unfold process_csv_file, csv_loop, enumerate.
  assert (G : forall i st,
             Forall (fun c => blank (text c) = false) (c_chunks st)
             /\ Forall (fun x => blank x = false) (c_current st) ->
             let st' := fold_left (csv_step fieldnames chunk_size)
                                  (enumerate_from i rows) st in
             Forall (fun c => blank (text c) = false) (c_chunks st')
             /\ Forall (fun x => blank x = false) (c_current st')).
  { induction Hrows as [|row rows Hrow _ IH]; intros i st H; simpl;
      [exact H|].
    apply IH, csv_step_not_blank; assumption. }
  destruct (G 0 csv_init) as [Hc Hcur]; [split; constructor|].
  unfold csv_flush. destruct (truthy _) eqn:T; [|exact Hc].
  apply Forall_app. split; [exact Hc|]. constructor; [|constructor].
  simpl. apply join_not_blank; [|exact Hcur].
  intro E. rewrite E in T. discriminate.
Qed.

Lemma process_file_not_blank (f : FileInput) (chunk_size overlap : Z) :
  rows_have_fields f ->
  Forall (fun c => blank (text c) = false)
         (process_file f chunk_size overlap).
Proof.
  destruct f as [fn rows|t|lines]; simpl; intro H.
  - apply process_csv_file_not_blank, H.
  - unfold process_json_file.
    eapply Forall_impl; [|apply chunk_text_chunks_ok].
    intros c [Hc _]. exact Hc.
  - apply process_text_file_not_blank.
Qed.

Lemma filter_all {A} (p : A -> bool) (l : list A) :
  Forall (fun x => p x = true) l -> filter p l = l.
Proof.
  induction 1 as [|x l Hx _ IH]; simpl; [reflexivity|].
  rewrite Hx, IH. reflexivity.
Qed.

(** The reply of the endpoint to a file that is accepted, saved and
    read is the reply of the loop on the chunks of that file. *)
Lemma upload_file_endpoint_accepted (L : Libs)
    (secure_filename : pystr -> pystr) (file : UploadedFile)
    (input : FileInput) :
  accepted secure_filename file input ->
  upload_file_endpoint secure_filename L (Ok (Some file))
  = upload_file L (secure_filename (up_filename file))
                (process_file input 1000 100).
Proof.
  intros (Ha & Hs & Hr). unfold upload_file_endpoint.
  destruct (up_filename file) as [|c name] eqn:En; [discriminate|].
  cbn [eqb truthy andb]. rewrite Ha, Hs, Hr. reflexivity.
Qed.

(** What the endpoint answers 200 to: a file that was accepted, saved and
    read, the reply being that of the loop on its chunks. *)
Lemma upload_file_endpoint_200 (L : Libs)
    (secure_filename : pystr -> pystr) (files : Exc (option UploadedFile))
    (d : ResponseData) :
  upload_file_endpoint secure_filename L files = Http200 d ->
  exists file input,
    files = Ok (Some file)
    /\ accepted secure_filename file input
    /\ upload_file L (secure_filename (up_filename file))
                   (process_file input 1000 100) = Http200 d.
Proof.
  unfold upload_file_endpoint, accepted.
  destruct files as [[file|]|e]; try discriminate.
  destruct (eqb (up_filename file) []); [discriminate|].
  destruct (truthy (up_filename file)); [|discriminate].
  cbn [andb].
  destruct (allowed_file (up_filename file)) eqn:Ha; [|discriminate].
  destruct (up_save file _) as [[]|e] eqn:Hs; [|discriminate].
  destruct (read_file _ file) as [input|e] eqn:Hr; [|discriminate].
  intro E. exists file, input. repeat split; assumption.
Qed.

(** X26.  A request whose file has an allowed name, is saved, and is read
    by the reader that the suffix of its secured name selects (its CSV
    rows having fields), with the services of the repository and whatever
    the libraries do: the reply has status 200 and holds exactly one
    result per chunk of the file, in chunk order, with the chunk's text as
    original text and the chunk's identifier; no chunk is skipped as
    blank.  A request whose file name is refused by [allowed_file] is
    answered 400 whatever the file holds. *)
Theorem upload_file_one_result_per_chunk (L : Libs)
    (secure_filename : pystr -> pystr) (file : UploadedFile) :
  (forall input,
      accepted secure_filename file input ->
      rows_have_fields input ->
      exists d,
        upload_file_endpoint secure_filename L (Ok (Some file)) = Http200 d
        /\ map original_text (analysis_results d)
           = map text (process_file input 1000 100)
        /\ map cr_chunk_id (analysis_results d)
           = map chunk_id (process_file input 1000 100)
        /\ total_chunks d = len (process_file input 1000 100))
  /\ (allowed_file (up_filename file) = false ->
      exists e,
        upload_file_endpoint secure_filename L (Ok (Some file)) = Http400 e).
Proof.
  split.
  - intros input Hacc Hf.
    rewrite (upload_file_endpoint_accepted L secure_filename file input Hacc).
    set (fname := secure_filename (up_filename file)).
    pose proof (process_file_not_blank input 1000 100 Hf) as Hnb.
    destruct (process_chunks_returns L (process_file input 1000 100))
      as (results & E & F).
    exists (response_data fname results). split.
    { unfold upload_file, upload_chunks. rewrite E. reflexivity. }
    rewrite filter_all in F
      by (eapply Forall_impl; [|exact Hnb]; intros c ->; reflexivity).
    cbn [analysis_results total_chunks response_data].
    assert (G : map original_text results
                = map text (process_file input 1000 100)
                /\ map cr_chunk_id results
                   = map chunk_id (process_file input 1000 100)).
    { clear - F.
      induction F as [|c r cs rs O _ [IH1 IH2]]; [split; reflexivity|].
      destruct O as (Hid & Hot & _). simpl.
      rewrite Hid, Hot, IH1, IH2. split; reflexivity. }
    destruct G as [G1 G2]. split; [exact G1|]. split; [exact G2|].
    unfold len. f_equal. symmetry. apply (Forall2_length F).
  - intro Ha. unfold upload_file_endpoint.
    destruct (eqb (up_filename file) []); [eauto|].
    rewrite Ha, andb_false_r. eauto.
Qed.

Lemma upload_file_one_result_per_chunk_witness :
  exists d,
    upload_file_endpoint (fun name => name) offline_libs
                         (Ok (Some reviews_txt)) = Http200 d
    /\ map original_text (analysis_results d) = [str "good"; str "bad"]
    /\ map cr_chunk_id (analysis_results d) = [0; 2]
    /\ total_chunks d = 2.
Proof.
  apply (proj1 (upload_file_one_result_per_chunk offline_libs
                  (fun name => name) reviews_txt)
               (TextFile [str "good" ++ newline; newline; str "bad"])).
  - repeat split.
  - exact I.
Defined.

(** ** The keys no producer sets *)

Lemma force_last_no_carried (cs : list Chunk) :
  Forall no_carried_fields cs -> Forall no_carried_fields (force_last cs).
Proof.
  apply force_last_Forall. intros c H. exact H.
Qed.

Lemma chunk_text_no_carried (text0 : pystr)
    (chunk_size overlap min_chunk_size : Z) :
  Forall no_carried_fields
         (chunk_text text0 chunk_size overlap min_chunk_size).
Proof.
  unfold chunk_text.
  destruct (negb (truthy text0) || negb (truthy (strip text0)));
    [constructor|].
  destruct (len (strip text0) <=? chunk_size);
    [repeat constructor|].
  apply force_last_no_carried.
  assert (I : Forall no_carried_fields
                (s_chunks (sent_loop (strip text0) chunk_size overlap))).
  { unfold sent_loop.
    apply (fold_left_invariant
             (fun st => Forall no_carried_fields (s_chunks st))).
    - intros st a H. unfold sent_step.
      destruct (negb (truthy (strip a))); [exact H|].
      destruct (_ && _); simpl; [|exact H].
      apply Forall_app. split; [exact H|]. repeat constructor.
    - constructor. }
  unfold sent_flush.
  destruct (truthy _); [|exact I].
  destruct (_ >=? _); [|exact I].
  apply Forall_app. split; [exact I|]. repeat constructor.
Qed.

Lemma process_csv_file_no_carried (fieldnames : option (list pystr))
    (rows : list Row) (chunk_size : Z) :
  Forall no_carried_fields (process_csv_file fieldnames rows chunk_size).
Proof.
  unfold process_csv_file.
  assert (I : Forall no_carried_fields
                (c_chunks (csv_loop fieldnames rows chunk_size))).
  { unfold csv_loop.
    apply (fold_left_invariant
             (fun st => Forall no_carried_fields (c_chunks st))).
    - intros st [i row] H. unfold csv_step.
      destruct (_ && _); simpl; [|exact H].
      apply Forall_app. split; [exact H|]. repeat constructor.
    - constructor. }
  unfold csv_flush. destruct (truthy _); [|exact I].
  apply Forall_app. split; [exact I|]. repeat constructor.
Qed.

Lemma process_file_no_carried (f : FileInput) (chunk_size overlap : Z) :
  Forall no_carried_fields (process_file f chunk_size overlap).
Proof.
  destruct f as [fn rows|t|lines]; simpl.
  - apply process_csv_file_no_carried.
  - apply chunk_text_no_carried.
  - unfold process_text_file. apply Forall_flat_map, Forall_forall.
    intros [i l] _. unfold line_chunk.
    destruct (truthy (strip l)); repeat constructor.
Qed.

Lemma process_chunk_no_hint (L : Libs) (c : Chunk) (r : ChunkResult) :
  no_carried_fields c ->
  process_chunk (detect L) (translate L) (score L) c = Ok (Some r) ->
  cr_rating r = None /\ cr_date r = None
  /\ detect L (text c) = Ok (detected_language r).
Proof.
  intros (Hl & Hr & Hd). unfold process_chunk, resolve_language.
  rewrite Hl, Hr, Hd. cbn [lower lower_from truthy negb orb].
  destruct (negb (truthy (strip (text c)))); [discriminate|].
  destruct (detect L (text c)) as [lang|e]; simpl; [|discriminate].
  destruct (translate_step (translate L) (text c) lang) as [tw|e]; simpl;
    [|discriminate].
  destruct (score L (fst tw) (str "en")); simpl; [|discriminate].
  intro E. injection E as <-. simpl. auto.
Qed.

(** X27.  No producer of chunks sets 'language', 'rating' or 'date'.  So
    in every reply of status 200 to an upload, every result has no rating
    and no date, and its language is the answer of [detect_language] on
    the chunk text: a language column of a CSV file is never used. *)
Theorem upload_file_ignores_carried_fields (L : Libs)
    (secure_filename : pystr -> pystr) (files : Exc (option UploadedFile))
    (d : ResponseData) :
  upload_file_endpoint secure_filename L files = Http200 d ->
  (forall f chunk_size overlap,
      Forall no_carried_fields (process_file f chunk_size overlap))
  /\ Forall (fun r => cr_rating r = None /\ cr_date r = None
                      /\ detect L (original_text r)
                         = Ok (detected_language r))
            (analysis_results d).
Proof.
  intro E. split; [apply process_file_no_carried|].
  apply upload_file_endpoint_200 in E as (file & input & _ & _ & E).
  pose proof (process_file_no_carried input 1000 100) as Hno.
  set (chunks := process_file input 1000 100) in *.
  unfold upload_file, upload_chunks in E.
  destruct (process_chunks (detect L) (translate L) (score L) chunks)
    as [results|e] eqn:Er; [|discriminate].
  injection E as <-. cbn [analysis_results response_data].
  revert results Er.
  induction Hno as [|c chunks Hc _ IH]; simpl; intros results E.
  - injection E as <-. constructor.
  - destruct (process_chunk _ _ _ c) as [[r|]|e] eqn:Ec; simpl in E;
      try discriminate;
      destruct (process_chunks _ _ _ chunks) as [rs|e]; simpl in E;
      try discriminate; injection E as <-.
    + constructor; [|apply IH; reflexivity].
      destruct (process_chunk_no_hint L c r Hc Ec) as (H1 & H2 & H3).
      assert (Ho : original_text r = text c).
      { revert Ec. unfold process_chunk.
        destruct (negb _); [discriminate|].
        destruct (resolve_language _ c); simpl; [|discriminate].
        destruct (translate_step _ _ _); simpl; [|discriminate].
        destruct (score L _ _); simpl; [|discriminate].
        intro E. injection E as <-. reflexivity. }
      rewrite Ho. auto.
    + apply IH. reflexivity.
Qed.

Lemma upload_file_ignores_carried_fields_witness :
  exists d,
    upload_file_endpoint (fun name => name) offline_libs
                         (Ok (Some ratings_csv)) = Http200 d
    /\ map detected_language (analysis_results d) = [str "es"]
    /\ Forall (fun r => cr_rating r = None /\ cr_date r = None
                        /\ detect offline_libs (original_text r)
                           = Ok (detected_language r))
              (analysis_results d).
Proof.
  eexists. split; [reflexivity|]. split; [reflexivity|].
  apply (upload_file_ignores_carried_fields offline_libs (fun name => name)
           (Ok (Some ratings_csv))).
  reflexivity.
Defined.

(** ** The status of the reply *)

Lemma upload_file_returns (L : Libs) (fname : pystr) (chunks : list Chunk) :
  exists d, upload_file L fname chunks = Http200 d.
Proof.
  destruct (process_chunks_returns L chunks) as (results & E & _).
  exists (response_data fname results).
  unfold upload_file, upload_chunks. rewrite E. reflexivity.
Qed.

(** X30.  With the services of the repository and whatever the libraries
    do, the status of the reply of [upload_file] is decided before the
    loop starts: 200 exactly when the file has an allowed name, is saved
    and is read; 400 exactly when there is no file or its name is refused
    (an empty name is); 500 exactly when reading the request, saving the
    file or reading it raises.  No chunk can turn a reply into a 500. *)
Theorem upload_file_endpoint_status (L : Libs)
    (secure_filename : pystr -> pystr) (files : Exc (option UploadedFile)) :
  let reply := upload_file_endpoint secure_filename L files in
  ((exists d, reply = Http200 d)
   <-> exists file input,
         files = Ok (Some file) /\ accepted secure_filename file input)
  /\ ((exists e, reply = Http400 e)
      <-> files = Ok None
          \/ exists file,
               files = Ok (Some file)
               /\ allowed_file (up_filename file) = false)
  /\ ((exists e, reply = Http500 e)
      <-> (exists e, files = Raise e)
          \/ exists file,
               files = Ok (Some file)
               /\ allowed_file (up_filename file) = true
               /\ forall input, ~ accepted secure_filename file input).
Proof.
  cbv zeta. unfold upload_file_endpoint, accepted.
  destruct files as [[file|]|e0].
  - destruct (up_filename file) as [|c name] eqn:En.
    + cbn [eqb].
      assert (Ha : allowed_file (up_filename file) = false)
        by (rewrite En; reflexivity).
      split; [|split]; split.
      * intros [d E]. discriminate.
      * intros (f & input & E & Ha' & _). injection E as <-. congruence.
      * intros _. right. exists file. auto.
      * intros _. eauto.
      * intros [e E]. discriminate.
      * intros [[e E]|(f & E & Ha' & _)]; [discriminate|].
        injection E as <-. congruence.
    + cbn [eqb truthy andb]. rewrite <- En.
      destruct (allowed_file (up_filename file)) eqn:Ha.
      * destruct (up_save file _) as [[]|e] eqn:Hs.
        -- destruct (read_file _ file) as [input|e] eqn:Hr.
           ++ destruct (upload_file_returns L
                          (secure_filename (up_filename file))
                          (process_file input 1000 100)) as [d ->].
              split; [|split]; split.
              ** intros _. exists file, input. auto.
              ** intros _. eauto.
              ** intros [e E]. discriminate.
              ** intros [E|(f & E & Ha')]; [discriminate|].
                 injection E as <-. congruence.
              ** intros [e E]. discriminate.
              ** intros [[e E]|(f & E & _ & Hn)]; [discriminate|].
                 injection E as <-. exfalso. apply (Hn input). auto.
           ++ split; [|split]; split.
              ** intros [d E]. discriminate.
              ** intros (f & input & E & _ & _ & Hr').
                 injection E as <-. congruence.
              ** intros [x E]. discriminate.
              ** intros [E|(f & E & Ha')]; [discriminate|].
                 injection E as <-. congruence.
              ** intros _. right. exists file. split; [reflexivity|].
                 split; [exact Ha|]. intros input (_ & _ & Hr').
                 congruence.
              ** intros _. eauto.
        -- split; [|split]; split.
           ++ intros [d E]. discriminate.
           ++ intros (f & input & E & _ & Hs' & _).
              injection E as <-. congruence.
           ++ intros [x E]. discriminate.
           ++ intros [E|(f & E & Ha')]; [discriminate|].
              injection E as <-. congruence.
           ++ intros _. right. exists file. split; [reflexivity|].
              split; [exact Ha|]. intros input (_ & Hs' & _).
              congruence.
           ++ intros _. eauto.
      * split; [|split]; split.
        -- intros [d E]. discriminate.
        -- intros (f & input & E & Ha' & _). injection E as <-. congruence.
        -- intros _. right. exists file. auto.
        -- intros _. eauto.
        -- intros [e E]. discriminate.
        -- intros [[e E]|(f & E & Ha' & _)]; [discriminate|].
           injection E as <-. congruence.
  - split; [|split]; split.
    + intros [d E]. discriminate.
    + intros (f & input & E & _). discriminate.
    + intros _. auto.
    + intros _. eauto.
    + intros [e E]. discriminate.
    + intros [[e E]|(f & E & _)]; discriminate.
  - split; [|split]; split.
    + intros [d E]. discriminate.
    + intros (f & input & E & _). discriminate.
    + intros [e E]. discriminate.
    + intros [E|(f & E & _)]; discriminate.
    + intros _. eauto.
    + intros _. eauto.
Qed.

(* ================================================================== *)
(** * chunk_text keeps the sentences *)

Lemma substring_join (sep s : pystr) (l : list pystr) :
  In s l -> substring s (join sep l).
Proof.
  induction l as [|x l IH]; [intros []|].
  intros [->|H].
  - destruct l; simpl.
    + exists [], []. rewrite app_nil_r. reflexivity.
    + exists [], (sep ++ join sep (p :: l)). reflexivity.
  - destruct (IH H) as (pre & post & E).
    destruct l as [|y l]; [destruct H|].
    change (join sep (x :: y :: l)) with (x ++ sep ++ join sep (y :: l)).
    rewrite E. exists (x ++ sep ++ pre), post.
    rewrite <- !app_assoc. reflexivity.
Qed.

Lemma sent_kept_step (source : pystr) (chunk_size overlap : Z)
    (done : list pystr) (st : SentState) (sentence : pystr) :
  sent_kept_inv done st ->
  sent_kept_inv (if truthy (strip sentence) then strip sentence :: done
                 else done)
                (sent_step source chunk_size overlap st sentence).
Proof.
  intro I. unfold sent_step.
  destruct (truthy (strip sentence)); simpl; [|exact I].
  destruct ((s_length st + len (strip sentence) >? chunk_size)
            && truthy (s_current st)); simpl.
  - intros s [<-|H].
    + right. destruct (negb _); simpl; auto.
    + left. destruct (I s H) as [(c & Hc & Hs)|Hin].
      * exists c. split; [apply in_or_app; left; exact Hc|exact Hs].
      * exists (span_chunk source (s_current st) (s_id st) false).
        split; [apply in_or_app; right; left; reflexivity|].
        apply substring_join, Hin.
  - intros s [<-|H].
    + right. apply in_or_app. right. left. reflexivity.
    + destruct (I s H) as [Hc|Hin]; [left; exact Hc|].
      right. apply in_or_app. left. exact Hin.
Qed.

Lemma sent_kept_fold (source : pystr) (chunk_size overlap : Z)
    (sentences : list pystr) :
  forall done st,
    sent_kept_inv done st ->
    sent_kept_inv
      (rev (filter (@truthy N) (map strip sentences)) ++ done)
      (fold_left (sent_step source chunk_size overlap) sentences st).
Proof.
  induction sentences as [|x sentences IH]; intros done st I; simpl;
    [exact I|].
  apply (sent_kept_step source chunk_size overlap _ _ x) in I.
  apply IH in I.
  destruct (truthy (strip x)); simpl; [|exact I].
  rewrite <- app_assoc. exact I.
Qed.

Lemma force_last_texts (cs : list Chunk) :
  map text (force_last cs) = map text cs.
Proof.
  destruct (snoc_cases cs) as [->|[l [x ->]]]; [reflexivity|].
  rewrite force_last_snoc, !map_app. reflexivity.
Qed.

(** X28.  On an input longer than [chunk_size] whose final running chunk
    is not dropped (it has at least [min_chunk_size] characters), no
    sentence is lost: every sentence of the trimmed input that is not
    blank is part of the text of some chunk. *)
Theorem chunk_text_keeps_sentences (text0 : pystr)
    (chunk_size overlap min_chunk_size : Z) (sentence : pystr) :
  blank text0 = false ->
  chunk_size < len (strip text0) ->
  min_chunk_size
    <= len (join (str " ")
                 (s_current (sent_loop (strip text0) chunk_size overlap))) ->
  In sentence (re_split_sentences (strip text0)) ->
  strip sentence <> [] ->
  exists c,
    In c (chunk_text text0 chunk_size overlap min_chunk_size)
    /\ substring (strip sentence) (text c).
Proof.
  intros B L Hmin Hin Hne.
  rewrite (chunk_text_long _ _ _ _ B L).
  set (source := strip text0) in *.
  assert (I : sent_kept_inv
                (rev (filter (@truthy N)
                             (map strip (re_split_sentences source))) ++ [])
                (sent_loop source chunk_size overlap)).
  { apply sent_kept_fold. intros s []. }
  set (st := sent_loop source chunk_size overlap) in *.
  assert (Hdone : In (strip sentence)
                     (rev (filter (@truthy N)
                             (map strip (re_split_sentences source))) ++ [])).
  { rewrite app_nil_r. apply in_rev. rewrite rev_involutive.
    apply filter_In. split; [apply in_map, Hin|].
    destruct (strip sentence); [congruence|reflexivity]. }
  assert (Hflush : exists c,
             In c (sent_flush source min_chunk_size st)
             /\ substring (strip sentence) (text c)).
  { unfold sent_flush.
    destruct (I _ Hdone) as [(c & Hc & Hs)|Hcur].
    - exists c. split; [|exact Hs].
      destruct (truthy _); [|exact Hc].
      destruct (_ >=? _); [apply in_or_app; left|]; exact Hc.
    - destruct (s_current st) as [|x cur] eqn:Ecur; [destruct Hcur|].
      cbn [truthy].
      replace (len (join (str " ") (x :: cur)) >=? min_chunk_size) with true
        by (symmetry; apply Z.geb_le; exact Hmin).
      exists (span_chunk source (x :: cur) (s_id st) true).
      split; [apply in_or_app; right; left; reflexivity|].
      apply substring_join, Hcur. }
  destruct Hflush as (c & Hc & Hs).
  assert (Ht : In (text c)
                  (map text (force_last (sent_flush source min_chunk_size st))))
    by (rewrite force_last_texts; apply in_map, Hc).
  apply in_map_iff in Ht as (c' & Et & Hc').
  exists c'. split; [exact Hc'|]. rewrite Et. exact Hs.
Qed.

Lemma chunk_text_keeps_sentences_witness :
  exists c,
    In c (chunk_text (str "First sentence is here. Second one. Tiny.")
                     30 100 5)
    /\ substring (str "Tiny.") (text c).
Proof.
  apply (chunk_text_keeps_sentences
           (str "First sentence is here. Second one. Tiny.") 30 100 5
           (str "Tiny.")).
  - reflexivity.
  - reflexivity.
  - vm_compute. discriminate.
  - vm_compute. auto.
  - vm_compute. discriminate.
Defined.

(* ================================================================== *)
(** * The translation endpoint *)

(** X29.  [translate_text_endpoint] with the services of the repository,
    on a well-formed body and whatever the libraries do: it answers 400
    when the trimmed text is empty and 200 otherwise, never 500.  A failed
    translation is still answered with 200: the body has the key 'error',
    the original text as translation and no sentiment.  A translation
    that succeeded comes with the sentiment of the translated text, and
    the 'confidence' of the body is then the sentiment score. *)
Theorem translate_text_endpoint_reply (L : Libs) (data : TranslateRequest) :
  let text :=
    strip (match rq_text data with Some t => t | None => [] end) in
  let target :=
    match rq_target_lang data with Some t => t | None => str "en" end in
  let reply := translate_text_endpoint (translate L) (score L) data in
  (text = [] /\ reply = Reply400 (str "No text provided"))
  \/ (text <> []
      /\ exists t,
           translate L text target (rq_source_lang data) = Ok t
           /\ ((tr_error t <> None
                /\ tr_translated_text t = text
                /\ reply = Reply200 (mkTranslateBody t None None))
               \/ (tr_error t = None
                   /\ exists s,
                        score L (tr_translated_text t) target = Ok s
                        /\ reply
                           = Reply200
                               (mkTranslateBody
                                  t (Some (sr_sentiment s, sr_score s))
                                  (Some (sr_score s)))))).
Proof.
  cbv zeta. unfold translate_text_endpoint.
  set (text := strip _). set (target := match rq_target_lang data with
                                        | Some t => t
                                        | None => str "en"
                                        end).
  destruct text as [|x text'] eqn:Et; [left; auto|right].
  split; [discriminate|]. cbn [truthy negb].
  unfold translate, score.
  destruct (translate_text_returns L (x :: text') target (rq_source_lang data))
    as [t Ht].
  exists t. split; [exact Ht|]. rewrite Ht. cbn [bind].
  destruct (tr_error t) as [msg|] eqn:Eerr.
  - left. split; [discriminate|].
    assert (Hkeep : tr_translated_text t = x :: text'
                    /\ tr_confidence t = None).
    { revert Ht Eerr. unfold Services.translate_text.
      destruct (negb _ || negb _);
        [intros E; injection E as <-; auto|].
      match goal with
      | |- context [google_translate L ?a ?b ?c] =>
          destruct (google_translate L a b c) as [[t'|]|e]; simpl
      end; intros E; injection E as <-; simpl; auto; discriminate. }
    destruct Hkeep as [Hk Hc]. rewrite Hc. auto.
  - right. split; [reflexivity|].
    destruct (analyze_sentiment_returns L (tr_translated_text t) target)
      as (s & Hs & _).
    exists s. split; [exact Hs|]. rewrite Hs. reflexivity.
Qed.
